(** * Scholarship portal: the request handlers of [server.js]

    The Express handlers of the portal are embedded as functions in a small
    state-and-exception monad over a relational store with transactions.
    JavaScript values, the JSON codec and the store's comparisons are the
    platform the handlers run on; the handlers themselves follow the source
    statement by statement. *)

From Stdlib Require Import List String Ascii ZArith Bool Lia DecimalString.
From Stdlib Require Import Permutation Sorted.
Import ListNotations.
Set Warnings "-register-all".
Local Open Scope string_scope.
Local Open Scope Z_scope.

(* ================================================================== *)
(** * JavaScript values *)
(* ================================================================== *)

(** A number is kept as the decimal numeral that denotes it,
    [mantissa * 10 ^ exponent]; the handlers only test numbers for
    truthiness and forward them to the store. *)
Record number : Type := Num10 { mantissa : Z; exponent : Z }.

(** The values [JSON.parse] can produce.  Strings are sequences of bytes
    (the WTF-8 form of the JavaScript string); an object is the list of its
    own properties in insertion order. *)
Inductive jsval : Type :=
| JNull
| JBool (b : bool)
| JNum (n : number)
| JStr (s : string)
| JArr (items : list jsval)
| JObj (props : list (string * jsval)).

(** The double nearest to [m * 10 ^ e] is a zero exactly when [m = 0] or the
    magnitude does not exceed [2 ^ -1075], half the least subnormal. *)
Definition number_is_zero (n : number) : bool :=
  if mantissa n =? 0 then true
  else if 0 <=? exponent n then false
  else Z.abs (mantissa n) * 2 ^ 1075 <=? 10 ^ (- exponent n).

Definition string_is_empty (s : string) : bool :=
  match s with EmptyString => true | String _ _ => false end.

(** [ToBoolean]: the test behind [!x], [x || y] and [if (x)]. *)
Definition truthy (v : jsval) : bool :=
  match v with
  | JNull => false
  | JBool b => b
  | JNum n => negb (number_is_zero n)
  | JStr s => negb (string_is_empty s)
  | JArr _ => true
  | JObj _ => true
  end.

(** A possibly [undefined] value: [None] is [undefined]. *)
Definition truthy_opt (v : option jsval) : bool :=
  match v with Some x => truthy x | None => false end.

Definition truthy_str (s : option string) : bool :=
  match s with Some x => negb (string_is_empty x) | None => false end.

Fixpoint assoc (k : string) (props : list (string * jsval)) : option jsval :=
  match props with
  | [] => None
  | (k', v) :: rest => if String.eqb k k' then Some v else assoc k rest
  end.

(** [v.k] for a key that no built-in prototype defines ([user_id],
    [scheme_id], [amount_applied]): an own property of an object, and
    [undefined] on every other non-null value. *)
Definition get_prop (k : string) (v : jsval) : option jsval :=
  match v with
  | JObj props => assoc k props
  | _ => None
  end.

(** [x || null] on a possibly undefined [x]. *)
Definition or_null (v : option jsval) : jsval :=
  match v with
  | Some x => if truthy x then x else JNull
  | None => JNull
  end.

(* ================================================================== *)
(** * JSON text *)
(* ================================================================== *)

Module JSON.

Definition code (c : ascii) : Z := Z.of_N (N_of_ascii c).
Definition char_of (z : Z) : ascii := ascii_of_N (Z.to_N z).

Definition is_ws (c : ascii) : bool :=
  let n := code c in (n =? 32) || (n =? 9) || (n =? 10) || (n =? 13).

Fixpoint skip_ws (s : string) : string :=
  match s with
  | String c rest => if is_ws c then skip_ws rest else s
  | EmptyString => s
  end.

Definition digit_val (c : ascii) : option Z :=
  let n := code c in
  if (48 <=? n) && (n <=? 57) then Some (n - 48) else None.

Definition hex_val (c : ascii) : option Z :=
  let n := code c in
  if (48 <=? n) && (n <=? 57) then Some (n - 48)
  else if (65 <=? n) && (n <=? 70) then Some (n - 55)
  else if (97 <=? n) && (n <=? 102) then Some (n - 87)
  else None.

(** Reads a run of decimal digits: the value read after [acc], how many
    digits there were, and the rest of the text. *)
Fixpoint take_digits (s : string) (acc : Z) (count : Z) : Z * Z * string :=
  match s with
  | String c rest =>
      match digit_val c with
      | Some d => take_digits rest (acc * 10 + d) (count + 1)
      | None => (acc, count, s)
      end
  | EmptyString => (acc, count, s)
  end.

(** The integer part: a single [0], or a non-zero digit and more digits. *)
Definition take_int (s : string) : option (Z * string) :=
  match s with
  | String c rest =>
      match digit_val c with
      | Some 0 => Some (0, rest)
      | Some d => let '(v, _, r) := take_digits rest d 1 in Some (v, r)
      | None => None
      end
  | EmptyString => None
  end.

Definition take_frac (m : Z) (s : string) : option (Z * Z * string) :=
  match s with
  | String "." rest =>
      let '(v, k, r) := take_digits rest m 0 in
      if k =? 0 then None else Some (v, k, r)
  | _ => Some (m, 0, s)
  end.

Definition take_exp (s : string) : option (Z * string) :=
  let digits (sign : Z) (t : string) :=
    let '(v, k, r) := take_digits t 0 0 in
    if k =? 0 then None else Some (sign * v, r) in
  match s with
  | String c rest =>
      if (code c =? 101) || (code c =? 69) then
        match rest with
        | String "+" t => digits 1 t
        | String "-" t => digits (-1) t
        | _ => digits 1 rest
        end
      else Some (0, s)
  | EmptyString => Some (0, s)
  end.

Definition parse_number (s : string) : option (number * string) :=
  let '(sign, s1) :=
    match s with String "-" r => (-1, r) | _ => (1, s) end in
  match take_int s1 with
  | None => None
  | Some (i, s2) =>
      match take_frac i s2 with
      | None => None
      | Some (m, k, s3) =>
          match take_exp s3 with
          | None => None
          | Some (e, s4) => Some (Num10 (sign * m) (e - k), s4)
          end
      end
  end.

(** The bytes of one code point (surrogates included, as in WTF-8). *)
Definition utf8 (cp : Z) : string :=
  if cp <? 128 then String (char_of cp) EmptyString
  else if cp <? 2048 then
    String (char_of (192 + cp / 64))
      (String (char_of (128 + cp mod 64)) EmptyString)
  else if cp <? 65536 then
    String (char_of (224 + cp / 4096))
      (String (char_of (128 + (cp / 64) mod 64))
         (String (char_of (128 + cp mod 64)) EmptyString))
  else
    String (char_of (240 + cp / 262144))
      (String (char_of (128 + (cp / 4096) mod 64))
         (String (char_of (128 + (cp / 64) mod 64))
            (String (char_of (128 + cp mod 64)) EmptyString))).

Definition is_high (u : Z) : bool := (55296 <=? u) && (u <=? 56319).
Definition is_low (u : Z) : bool := (56320 <=? u) && (u <=? 57343).

Definition flush (hi : option Z) : string :=
  match hi with Some h => utf8 h | None => EmptyString end.

Definition hex4 (a b c d : ascii) : option Z :=
  match hex_val a, hex_val b, hex_val c, hex_val d with
  | Some x, Some y, Some z, Some w => Some (((x * 16 + y) * 16 + z) * 16 + w)
  | _, _, _, _ => None
  end.

Definition simple_escape (c : ascii) : option ascii :=
  let n := code c in
  if n =? 34 then Some (char_of 34)
  else if n =? 92 then Some (char_of 92)
  else if n =? 47 then Some (char_of 47)
  else if n =? 98 then Some (char_of 8)
  else if n =? 102 then Some (char_of 12)
  else if n =? 110 then Some (char_of 10)
  else if n =? 114 then Some (char_of 13)
  else if n =? 116 then Some (char_of 9)
  else None.

Definition cons_str (p : string) (r : option (string * string)) :
  option (string * string) :=
  match r with Some (s, rest) => Some (p ++ s, rest) | None => None end.

(** The characters of a string literal after its opening quote.  [hi] is an
    escaped high surrogate waiting for its low half. *)
Fixpoint parse_chars (hi : option Z) (s : string) : option (string * string) :=
  match s with
  | EmptyString => None
  | String c rest =>
      if code c =? 34 then Some (flush hi, rest)
      else if code c =? 92 then
        match rest with
        | String e rest' =>
            if code e =? 117 then
              match rest' with
              | String h1 (String h2 (String h3 (String h4 r))) =>
                  match hex4 h1 h2 h3 h4 with
                  | None => None
                  | Some u =>
                      match hi with
                      | Some h =>
                          if is_low u then
                            cons_str
                              (utf8 (65536 + (h - 55296) * 1024 + (u - 56320)))
                              (parse_chars None r)
                          else if is_high u then
                            cons_str (utf8 h) (parse_chars (Some u) r)
                          else cons_str (utf8 h ++ utf8 u) (parse_chars None r)
                      | None =>
                          if is_high u then parse_chars (Some u) r
                          else cons_str (utf8 u) (parse_chars None r)
                      end
                  end
              | _ => None
              end
            else
              match simple_escape e with
              | Some x =>
                  cons_str (flush hi ++ String x EmptyString)
                    (parse_chars None rest')
              | None => None
              end
        | EmptyString => None
        end
      else if code c <? 32 then None
      else cons_str (flush hi ++ String c EmptyString) (parse_chars None rest)
  end.

Fixpoint expect (lit s : string) : option string :=
  match lit with
  | EmptyString => Some s
  | String c lit' =>
      match s with
      | String d s' => if Ascii.eqb c d then expect lit' s' else None
      | EmptyString => None
      end
  end.

(** The number an integer-like key stands for: a numeral without a leading
    zero, below [2 ^ 32 - 1]. *)
Definition array_index (k : string) : option Z :=
  match k with
  | EmptyString => None
  | String c rest =>
      let '(v, _, r) := take_digits k 0 0 in
      match r with
      | EmptyString =>
          if (code c =? 48) && negb (string_is_empty rest) then None
          else if v <? 4294967295 then Some v else None
      | String _ _ => None
      end
  end.

Fixpoint has_key (k : string) (props : list (string * jsval)) : bool :=
  match props with
  | [] => false
  | (k', _) :: rest => String.eqb k k' || has_key k rest
  end.

Fixpoint replace_prop (k : string) (v : jsval) (props : list (string * jsval)) :
  list (string * jsval) :=
  match props with
  | [] => []
  | (k', v') :: rest =>
      if String.eqb k k' then (k', v) :: rest
      else (k', v') :: replace_prop k v rest
  end.

(** Where a new key goes: an integer-like key before the first key that is
    not one or stands for a greater number, any other key at the end. *)
Fixpoint place_prop (k : string) (v : jsval) (props : list (string * jsval)) :
  list (string * jsval) :=
  match props with
  | [] => [(k, v)]
  | (k', v') :: rest =>
      match array_index k, array_index k' with
      | Some i, Some j =>
          if i <? j then (k, v) :: props else (k', v') :: place_prop k v rest
      | Some _, None => (k, v) :: props
      | None, _ => (k', v') :: place_prop k v rest
      end
  end.

(** [JSON.parse] sets a repeated key in place: the first position, the last
    value.  The properties stay in the order the object lists them: the
    integer-like keys in ascending order, then the others as they came. *)
Definition set_prop (k : string) (v : jsval) (props : list (string * jsval)) :
  list (string * jsval) :=
  if has_key k props then replace_prop k v props else place_prop k v props.

Fixpoint parse_value (fuel : nat) (s : string) : option (jsval * string) :=
  match fuel with
  | O => None
  | S fuel' =>
      match skip_ws s with
      | EmptyString => None
      | String c rest =>
          let n := code c in
          if n =? 123 then
            match skip_ws rest with
            | String "}" r => Some (JObj [], r)
            | _ => parse_members fuel' rest []
            end
          else if n =? 91 then
            match skip_ws rest with
            | String "]" r => Some (JArr [], r)
            | _ => parse_elements fuel' rest []
            end
          else if n =? 34 then
            match parse_chars None rest with
            | Some (str, r) => Some (JStr str, r)
            | None => None
            end
          else if n =? 110 then
            match expect "ull" rest with
            | Some r => Some (JNull, r) | None => None end
          else if n =? 116 then
            match expect "rue" rest with
            | Some r => Some (JBool true, r) | None => None end
          else if n =? 102 then
            match expect "alse" rest with
            | Some r => Some (JBool false, r) | None => None end
          else
            match parse_number (String c rest) with
            | Some (num, r) => Some (JNum num, r)
            | None => None
            end
      end
  end
with parse_elements (fuel : nat) (s : string) (acc : list jsval) :
  option (jsval * string) :=
  match fuel with
  | O => None
  | S fuel' =>
      match parse_value fuel' s with
      | None => None
      | Some (v, r) =>
          match skip_ws r with
          | String "," r' => parse_elements fuel' r' (v :: acc)
          | String "]" r' => Some (JArr (rev (v :: acc)), r')
          | _ => None
          end
      end
  end
with parse_members (fuel : nat) (s : string) (acc : list (string * jsval)) :
  option (jsval * string) :=
  match fuel with
  | O => None
  | S fuel' =>
      match skip_ws s with
      | String c rest =>
          if code c =? 34 then
            match parse_chars None rest with
            | None => None
            | Some (k, r) =>
                match skip_ws r with
                | String ":" r1 =>
                    match parse_value fuel' r1 with
                    | None => None
                    | Some (v, r2) =>
                        match skip_ws r2 with
                        | String "," r3 =>
                            parse_members fuel' r3 (set_prop k v acc)
                        | String "}" r3 => Some (JObj (set_prop k v acc), r3)
                        | _ => None
                        end
                    end
                | _ => None
                end
            end
          else None
      | EmptyString => None
      end
  end.

(** [JSON.parse(text)]: [None] stands for the [SyntaxError] it throws.  Every
    call of the three parsers consumes a character before it recurses, so
    the length of the text bounds their depth. *)
Definition parse (text : string) : option jsval :=
  match parse_value (2 * String.length text + 2) text with
  | Some (v, r) =>
      match skip_ws r with EmptyString => Some v | String _ _ => None end
  | None => None
  end.

Definition Z_to_string (z : Z) : string :=
  NilZero.string_of_int (Z.to_int z).

Definition hex_digit (z : Z) : ascii :=
  if z <? 10 then char_of (48 + z) else char_of (87 + z).

Definition quote_char (c : ascii) : string :=
  let n := code c in
  if n =? 34 then String (char_of 92) (String (char_of 34) EmptyString)
  else if n =? 92 then String (char_of 92) (String (char_of 92) EmptyString)
  else if n =? 8 then String (char_of 92) "b"
  else if n =? 12 then String (char_of 92) "f"
  else if n =? 10 then String (char_of 92) "n"
  else if n =? 13 then String (char_of 92) "r"
  else if n =? 9 then String (char_of 92) "t"
  else if n <? 32 then
    String (char_of 92)
      ("u00" ++ String (hex_digit (n / 16))
                  (String (hex_digit (n mod 16)) EmptyString))
  else String c EmptyString.

Definition hex4_of (u : Z) : string :=
  String (hex_digit (u / 4096))
    (String (hex_digit ((u / 256) mod 16))
       (String (hex_digit ((u / 16) mod 16))
          (String (hex_digit (u mod 16)) EmptyString))).

(** The three bytes of a surrogate: a surrogate that stands alone, since a
    pair is one character of four bytes. *)
Definition lone_surrogate (c1 c2 c3 : ascii) : option Z :=
  if (code c1 =? 237) && (160 <=? code c2) && (code c2 <=? 191)
     && (128 <=? code c3) && (code c3 <=? 191)
  then Some (53248 + (code c2 - 128) * 64 + (code c3 - 128))
  else None.

(** A lone surrogate is written as its escape. *)
Fixpoint quote_chars (s : string) : string :=
  match s with
  | EmptyString => EmptyString
  | String c rest =>
      match rest with
      | String c2 (String c3 rest') =>
          match lone_surrogate c c2 c3 with
          | Some u =>
              String (char_of 92) ("u" ++ hex4_of u) ++ quote_chars rest'
          | None => quote_char c ++ quote_chars rest
          end
      | _ => quote_char c ++ quote_chars rest
      end
  end.

Definition quote (s : string) : string :=
  String (char_of 34) (quote_chars s ++ String (char_of 34) EmptyString).

(** A positive rational [p / q] taken to a power of two or of ten. *)
Definition scale (base : Z) (p q k : Z) : Z * Z :=
  if 0 <=? k then (p * base ^ k, q) else (p, q * base ^ (- k)).

(** The double nearest to the positive rational [p / q], ties to even: its
    significand and binary exponent, [f * 2 ^ b] with [b >= -1074], and
    [None] beyond the largest double. *)
Definition nearest_double (p q : Z) : option (Z * Z) :=
  let guess := Z.log2 p - Z.log2 q - 52 in
  let significand (b : Z) := let '(n, d) := scale 2 p q (- b) in (n / d, n, d) in
  let b0 := if fst (fst (significand guess)) <? 2 ^ 52 then guess - 1 else guess in
  let b := Z.max b0 (-1074) in
  let '(f, n, d) := significand b in
  let r := n mod d in
  let up := (d <? 2 * r) || ((d =? 2 * r) && Z.odd f) in
  let f1 := if up then f + 1 else f in
  let '(f2, b2) := if f1 =? 2 ^ 53 then (2 ^ 52, b + 1) else (f1, b) in
  if 971 <? b2 then None else Some (f2, b2).

(** The least [n] from [start] on with [p / q < 10 ^ n]. *)
Fixpoint magnitude (fuel : nat) (p q n : Z) : Z :=
  match fuel with
  | O => n
  | S fuel' =>
      let '(a, b) := scale 10 p q (- n) in
      if a <? b then n else magnitude fuel' p q (n + 1)
  end.

Fixpoint strip_zeros (fuel : nat) (s n : Z) : Z * Z :=
  match fuel with
  | O => (s, n)
  | S fuel' =>
      if (s mod 10 =? 0) && negb (s =? 0) then strip_zeros fuel' (s / 10) n
      else (s, n)
  end.

(** The numeral of [k] digits nearest to the double [f * 2 ^ b] that reads
    back as that double, if there is one: its digits [s] and the position
    [n] of its point, [s * 10 ^ (n - k)]. *)
Definition digits_of_length (f b n k : Z) : option (Z * Z) :=
  let '(p, q) := scale 2 f 1 b in
  let '(a, d) := scale 10 p q (k - n) in
  let s0 := a / d in
  let r := a mod d in
  let reads_back (s : Z) :=
    match (let '(x, y) := scale 10 s 1 (n - k) in nearest_double x y) with
    | Some (f', b') => (0 <? s) && (f' =? f) && (b' =? b)
    | None => false
    end in
  let lower_first := (2 * r <? d) || ((2 * r =? d) && Z.even s0) in
  let '(first, second) := if lower_first then (s0, s0 + 1) else (s0 + 1, s0) in
  if reads_back first then Some (first, n)
  else if reads_back second then Some (second, n)
  else None.

Fixpoint shortest (lengths : list Z) (f b n : Z) : Z * Z :=
  match lengths with
  | [] => (0, 0)
  | k :: rest =>
      match digits_of_length f b n k with
      | Some (s, n') =>
          let len := Z.of_nat (String.length (Z_to_string s)) in
          (* a carry into one more digit moves the point *)
          let '(s', _) := strip_zeros 20 s 0 in
          (s', n' + (len - k))
      | None => shortest rest f b n
      end
  end.

Definition zeros (n : Z) : string := Z.iter n (String "0") EmptyString.

(** [Number::toString] on the digits [s] with the point after the first [n]
    of them. *)
Definition layout (s n : Z) : string :=
  let ds := Z_to_string s in
  let k := Z.of_nat (String.length ds) in
  if (k <=? n) && (n <=? 21) then ds ++ zeros (n - k)
  else if (0 <? n) && (n <=? 21) then
    substring 0 (Z.to_nat n) ds ++ "."
    ++ substring (Z.to_nat n) (Z.to_nat (k - n)) ds
  else if (-6 <? n) && (n <=? 0) then "0." ++ zeros (- n) ++ ds
  else
    let e := n - 1 in
    (if k =? 1 then ds
     else substring 0 1 ds ++ "." ++ substring 1 (Z.to_nat (k - 1)) ds)
    ++ "e" ++ (if e <? 0 then "-" else "+") ++ Z_to_string (Z.abs e).

(** [JSON.stringify] of a number: the shortest numeral that reads back as
    the double nearest to it, and [null] beyond the doubles. *)
Definition number_to_string (x : number) : string :=
  if mantissa x =? 0 then "0"
  else if (0 <=? exponent x) && (exponent x <=? 15)
          && (Z.abs (mantissa x) * 10 ^ exponent x <? 2 ^ 53)
  then Z_to_string (mantissa x * 10 ^ exponent x)
  else
    let '(p, q) := scale 10 (Z.abs (mantissa x)) 1 (exponent x) in
    match nearest_double p q with
    | None => "null"
    | Some (f, b) =>
        if f =? 0 then "0"
        else
          let '(p', q') := scale 2 f 1 b in
          let start := ((Z.log2 p' - Z.log2 q' - 1) * 30103) / 100000 - 1 in
          let n := magnitude 8 p' q' start in
          let '(s, n') :=
            shortest [1;2;3;4;5;6;7;8;9;10;11;12;13;14;15;16;17] f b n in
          (if mantissa x <? 0 then "-" else EmptyString) ++ layout s n'
    end.

Definition join (sep : string) (parts : list string) : string :=
  match parts with
  | [] => EmptyString
  | p :: rest => fold_left (fun acc q => acc ++ sep ++ q) rest p
  end.

(** [JSON.stringify(v)] for a value [JSON.parse] produced. *)
Fixpoint stringify (v : jsval) : string :=
  match v with
  | JNull => "null"
  | JBool true => "true"
  | JBool false => "false"
  | JNum n => number_to_string n
  | JStr s => quote s
  | JArr items => "[" ++ join "," (map stringify items) ++ "]"
  | JObj props =>
      "{" ++ join ","
               (map (fun kv : string * jsval =>
                       quote (fst kv) ++ ":" ++ stringify (snd kv)) props)
          ++ "}"
  end.

End JSON.

(* ================================================================== *)
(** * String helpers of the handlers *)
(* ================================================================== *)

(** The code points [String.prototype.trim] strips ([WhiteSpace] and
    [LineTerminator]), as the byte sequences that spell them. *)
Definition whitespace : list string :=
  map JSON.utf8
    [9; 10; 11; 12; 13; 32; 160; 5760; 8192; 8193; 8194; 8195; 8196; 8197;
     8198; 8199; 8200; 8201; 8202; 8232; 8233; 8239; 8287; 12288; 65279].

Fixpoint drop_prefix (p s : string) : option string :=
  match p with
  | EmptyString => Some s
  | String c p' =>
      match s with
      | String d s' => if Ascii.eqb c d then drop_prefix p' s' else None
      | EmptyString => None
      end
  end.

Fixpoint drop_any (tokens : list string) (s : string) : option string :=
  match tokens with
  | [] => None
  | t :: rest =>
      match drop_prefix t s with
      | Some r => Some r
      | None => drop_any rest s
      end
  end.

Fixpoint trim_start_fuel (fuel : nat) (tokens : list string) (s : string) :
  string :=
  match fuel with
  | O => s
  | S fuel' =>
      match drop_any tokens s with
      | Some r => trim_start_fuel fuel' tokens r
      | None => s
      end
  end.

Fixpoint rev_string (s acc : string) : string :=
  match s with
  | EmptyString => acc
  | String c rest => rev_string rest (String c acc)
  end.

Definition trim_start (s : string) : string :=
  trim_start_fuel (String.length s) whitespace s.

(** [s.trim()] *)
Definition trim (s : string) : string :=
  let r := rev_string (trim_start s) EmptyString in
  rev_string
    (trim_start_fuel (String.length r)
       (map (fun t => rev_string t EmptyString) whitespace) r)
    EmptyString.

(** [s.split(',')]: the pieces between commas, at least one. *)
Fixpoint split_comma (s : string) : list string :=
  match s with
  | EmptyString => [EmptyString]
  | String c rest =>
      if Ascii.eqb c ","%char then EmptyString :: split_comma rest
      else
        match split_comma rest with
        | piece :: more => String c piece :: more
        | [] => [String c EmptyString]
        end
  end.

(* ================================================================== *)
(** * The relational store *)
(* ================================================================== *)

(** Rows of the four tables.  A column holds what the handler bound to it:
    references and amounts are JavaScript values ([JNull] is SQL [NULL]). *)

Module User.
Record t : Type := mk
  { id : Z; name : string; email : string; password_hash : string;
    age : jsval; gender : jsval; role : string }.
End User.

Module Scheme.
Record t : Type := mk
  { id : Z; scheme_name : option string; scholarship_name : option string;
    amount : jsval; academic_year : option string; type : option string;
    category : option string; is_international_eligible : option bool;
    application_deadline : option Z }.
End Scheme.

Inductive Status : Type := Pending | Approved | Rejected.

Definition Status_eqb (a b : Status) : bool :=
  match a, b with
  | Pending, Pending | Approved, Approved | Rejected, Rejected => true
  | _, _ => false
  end.

Module Application.
Record t : Type := mk
  { id : Z; user_id : jsval; scheme_id : jsval; amount_applied : jsval;
    data_json : string; status : Status; application_date : Z }.

Definition set_status (st : Status) (a : t) : t :=
  mk (id a) (user_id a) (scheme_id a) (amount_applied a) (data_json a) st
     (application_date a).
End Application.

Module Document.
Record t : Type := mk
  { id : Z; application_id : Z; doc_type : string; filename : string }.
End Document.

Record Tables : Type := mkTables
  { users : list User.t;
    schemes : list Scheme.t;
    applications : list Application.t;
    documents : list Document.t }.

(** The [AUTO_INCREMENT] counters behind [insertId]; a rollback does not
    rewind them. *)
Record Sequences : Type := mkSequences
  { next_user_id : Z; next_application_id : Z; next_document_id : Z }.

(** The [WHERE] fragments the scheme listing pushes onto [clauses]. *)
Inductive clause : Type :=
| NameLike                 (* (scheme_name LIKE ? OR scholarship_name LIKE ?) *)
| AcademicYearEq           (* academic_year = ? *)
| TypeEq                   (* type = ? *)
| CategoryIn (n : nat)     (* category IN (?,...,?) with n placeholders *)
| InternationalEligible.   (* is_international_eligible = 1 *)

(** A fragment with its placeholders bound. *)
Inductive condition : Type :=
| NameLikeC (p1 p2 : string)
| AcademicYearC (p : string)
| TypeC (p : string)
| CategoryC (ps : list string)
| InternationalC.

(** Takes [n] values off the front of the bound values, if there are [n]. *)
Fixpoint take_params (n : nat) (params : list string) :
  option (list string * list string) :=
  match n with
  | O => Some ([], params)
  | S n' =>
      match params with
      | [] => None
      | p :: rest =>
          match take_params n' rest with
          | Some (ps, rest') => Some (p :: ps, rest')
          | None => None
          end
      end
  end.

(** [SqlString.format]: placeholders take the values from left to right.  A
    placeholder left without a value stays in the text as a bare [?], which
    the server refuses to parse ([None]); values left over are ignored. *)
Fixpoint format (clauses : list clause) (params : list string) :
  option (list condition) :=
  match clauses with
  | [] => Some []
  | c :: rest =>
      let continue (cond : condition) (params' : list string) :=
        match format rest params' with
        | Some conds => Some (cond :: conds)
        | None => None
        end in
      match c with
      | NameLike =>
          match params with
          | p1 :: p2 :: params' => continue (NameLikeC p1 p2) params'
          | _ => None
          end
      | AcademicYearEq =>
          match params with
          | p :: params' => continue (AcademicYearC p) params'
          | [] => None
          end
      | TypeEq =>
          match params with
          | p :: params' => continue (TypeC p) params'
          | [] => None
          end
      | CategoryIn n =>
          match take_params n params with
          | Some (ps, params') => continue (CategoryC ps) params'
          | None => None
          end
      | InternationalEligible => continue InternationalC params
      end
  end.

(** The statements the handlers send, with the values bound to them. *)
Inductive statement : Type :=
| SelectUserIdByEmail (email : string)
    (* SELECT id FROM users WHERE email = ? *)
| InsertUser (name email hash : string) (age gender : jsval) (role : string)
    (* INSERT INTO users (name, email, password_hash, age, gender, role) *)
| SelectSchemes (clauses : list clause) (params : list string)
    (* SELECT * FROM schemes [WHERE ...] ORDER BY application_deadline IS NULL,
       application_deadline *)
| InsertApplication (user_id scheme_id amount_applied : jsval)
    (data_json : string)
    (* INSERT INTO applications (user_id,scheme_id,amount_applied,data_json) *)
| InsertDocument (application_id : Z) (doc_type filename : string)
    (* INSERT INTO documents (application_id,doc_type,filename) *)
| SelectPendingView
    (* SELECT * FROM v_admin_applications WHERE status='Pending' *)
| SelectPendingJoin
    (* the direct join of the corrected server *)
| UpdateStatus (st : Status) (id : string).
    (* UPDATE applications SET status=... WHERE id=?; what the schema's
       trigger does on it lies outside the four tables *)

(** A row of the admin listing. *)
Module AdminApplication.
Record t : Type := mk
  { id : Z; application_date : Z; status : Status;
    applicant_name : option string; applicant_email : option string;
    scheme_name : option string }.
End AdminApplication.

Inductive row : Type :=
| UserIdRow (id : Z)
| SchemeRow (s : Scheme.t)
| AdminRow (a : AdminApplication.t).

(** What [pool.query] resolves to in its first component: the rows of a
    [SELECT], or the header of a write. *)
Inductive query_result : Type :=
| Rows (rs : list row)
| ResultSetHeader (insertId : Z) (affectedRows : Z).

Definition rows_of (r : query_result) : list row :=
  match r with Rows rs => rs | ResultSetHeader _ _ => [] end.

Definition insertId_of (r : query_result) : Z :=
  match r with ResultSetHeader i _ => i | Rows _ => 0 end.

(** [ORDER BY]: a stable insertion sort by a key comparison. *)
Fixpoint insert_by {A : Type} (le : A -> A -> bool) (x : A) (l : list A) :
  list A :=
  match l with
  | [] => [x]
  | y :: rest => if le x y then x :: l else y :: insert_by le x rest
  end.

Definition order_by {A : Type} (le : A -> A -> bool) (l : list A) : list A :=
  fold_right (insert_by le) [] l.

(** [ORDER BY application_deadline IS NULL, application_deadline] *)
Definition deadline_le (a b : Scheme.t) : bool :=
  match Scheme.application_deadline a, Scheme.application_deadline b with
  | Some x, Some y => x <=? y
  | Some _, None => true
  | None, Some _ => false
  | None, None => true
  end.

(** [ORDER BY application_date ASC] *)
Definition date_le (a b : AdminApplication.t) : bool :=
  AdminApplication.application_date a <=? AdminApplication.application_date b.

(* ================================================================== *)
(** * The platform under the handlers *)
(* ================================================================== *)

(** The built-ins of the runtime, the comparisons of the store, and the one
    view of its schema that a handler reads.  The schema is not part of the
    sources, so the view is whatever the platform makes of the tables.  The
    handlers are written against this interface; [reference_platform] below
    is one implementation of it. *)
Class Platform : Type :=
  { JSON_parse : string -> option jsval;     (* [None]: throws SyntaxError *)
    JSON_stringify : jsval -> string;
    JS_Number : jsval -> option number;      (* [None]: NaN *)
    collation_eq : string -> string -> bool; (* [column = value] on text *)
    sql_like : string -> string -> bool;     (* [column LIKE pattern] *)
    key_eq : jsval -> Z -> bool;             (* [value = key] on integer keys *)
    v_admin_applications : Tables -> list AdminApplication.t }.
                                             (* the rows of the view *)

Section Store.
Context `{Platform}.

Definition text_eq (column : option string) (p : string) : bool :=
  match column with Some s => collation_eq s p | None => false end.

Definition text_like (column : option string) (p : string) : bool :=
  match column with Some s => sql_like s p | None => false end.

(** The truth of one bound fragment on a scheme; [NULL] columns make a
    comparison not true. *)
Definition holds (c : condition) (s : Scheme.t) : bool :=
  match c with
  | NameLikeC p1 p2 =>
      text_like (Scheme.scheme_name s) p1
      || text_like (Scheme.scholarship_name s) p2
  | AcademicYearC p => text_eq (Scheme.academic_year s) p
  | TypeC p => text_eq (Scheme.type s) p
  | CategoryC ps => existsb (text_eq (Scheme.category s)) ps
  | InternationalC =>
      match Scheme.is_international_eligible s with
      | Some true => true
      | _ => false
      end
  end.

(** The fragments are joined by [AND]. *)
Definition where_holds (conds : list condition) (s : Scheme.t) : bool :=
  forallb (fun c => holds c s) conds.

(** The partners of a [LEFT JOIN]: every match, or one [NULL] row. *)
Definition left_matches {A : Type} (p : A -> bool) (l : list A) :
  list (option A) :=
  match filter p l with
  | [] => [None]
  | ms => map Some ms
  end.

Definition is_pending (a : Application.t) : bool :=
  Status_eqb (Application.status a) Pending.

(** The rows one application contributes to
    [applications a LEFT JOIN users u ON a.user_id = u.id
     LEFT JOIN schemes s ON a.scheme_id = s.id], with the columns of the
    admin listing. *)
Definition admin_row (a : Application.t) (u : option User.t)
  (s : option Scheme.t) : AdminApplication.t :=
  AdminApplication.mk (Application.id a) (Application.application_date a)
    (Application.status a) (option_map User.name u) (option_map User.email u)
    (match s with
     | Some s' => Scheme.scheme_name s'
     | None => None
     end).

Definition owner_of (a : Application.t) (u : User.t) : bool :=
  key_eq (Application.user_id a) (User.id u).

Definition scheme_of (a : Application.t) (s : Scheme.t) : bool :=
  key_eq (Application.scheme_id a) (Scheme.id s).

Definition admin_rows (ts : Tables) (a : Application.t) :
  list AdminApplication.t :=
  flat_map
    (fun u => map (admin_row a u) (left_matches (scheme_of a) (schemes ts)))
    (left_matches (owner_of a) (users ts)).

Definition admin_join (ts : Tables) (apps : list Application.t) :
  list AdminApplication.t :=
  flat_map (admin_rows ts) apps.

(** Modelled from the spec: the column defaults of [applications] are set in
    the schema.  A new row has status [Pending] and the store's current time
    as its submission date. *)
Definition new_application (now id : Z) (user_id scheme_id amount : jsval)
  (data_json : string) : Application.t :=
  Application.mk id user_id scheme_id amount data_json Pending now.

Definition count {A : Type} (p : A -> bool) (l : list A) : Z :=
  Z.of_nat (List.length (filter p l)).

(** One statement against the tables: the result, the counters and the
    tables after it; [None] when the server refuses the statement.  An
    insert stores the values bound to it as they are: the column types are
    set in the schema, and what the store would refuse or convert for a
    value that does not fit its column is not modelled. *)
Definition exec (now : Z) (s : statement) (seqs : Sequences) (ts : Tables) :
  option (query_result * Sequences * Tables) :=
  match s with
  | SelectUserIdByEmail e =>
      Some (Rows (map (fun u => UserIdRow (User.id u))
                    (filter (fun u => collation_eq (User.email u) e)
                       (users ts))),
            seqs, ts)
  | InsertUser n e h a g r =>
      let i := next_user_id seqs in
      Some (ResultSetHeader i 1,
            mkSequences (i + 1) (next_application_id seqs)
              (next_document_id seqs),
            mkTables (users ts ++ [User.mk i n e h a g r]) (schemes ts)
              (applications ts) (documents ts))
  | SelectSchemes clauses params =>
      match format clauses params with
      | None => None
      | Some conds =>
          Some (Rows (map SchemeRow
                        (order_by deadline_le
                           (filter (where_holds conds) (schemes ts)))),
                seqs, ts)
      end
  | InsertApplication u sc amt json =>
      let i := next_application_id seqs in
      Some (ResultSetHeader i 1,
            mkSequences (next_user_id seqs) (i + 1) (next_document_id seqs),
            mkTables (users ts) (schemes ts)
              (applications ts ++ [new_application now i u sc amt json])
              (documents ts))
  | InsertDocument app ty file =>
      let i := next_document_id seqs in
      Some (ResultSetHeader i 1,
            mkSequences (next_user_id seqs) (next_application_id seqs) (i + 1),
            mkTables (users ts) (schemes ts) (applications ts)
              (documents ts ++ [Document.mk i app ty file]))
  | SelectPendingView =>
      Some (Rows (map AdminRow
                    (filter
                       (fun r =>
                          Status_eqb (AdminApplication.status r) Pending)
                       (v_admin_applications ts))),
            seqs, ts)
  | SelectPendingJoin =>
      Some (Rows (map AdminRow
                    (order_by date_le
                       (admin_join ts (filter is_pending (applications ts))))),
            seqs, ts)
  | UpdateStatus st i =>
      let hit (a : Application.t) := key_eq (JStr i) (Application.id a) in
      Some (ResultSetHeader 0 (count hit (applications ts)),
            seqs,
            mkTables (users ts) (schemes ts)
              (map (fun a => if hit a then Application.set_status st a else a)
                 (applications ts))
              (documents ts))
  end.

End Store.

(* ================================================================== *)
(** * Handlers as computations *)
(* ================================================================== *)

(** What a handler does to the outside: pool and connection calls, and the
    password hash. *)
Inductive op : Type :=
| GetConnection
| BeginTransaction
| PoolQuery (s : statement)
| ConnectionQuery (s : statement)
| Commit
| Rollback
| Release
| Hash (password : string).

(** An operation together with whether it went through. *)
Definition event : Type := (op * bool)%type.

Inductive exn : Type :=
| SyntaxError
| TypeError
| OperationError (o : op).

(** The environment of one request: which operations fail, the store's
    clock, and the hash the password library returns. *)
Record Env : Type := mkEnv
  { fails : op -> bool; now : Z; bcrypt_hash : string -> string }.

(** The store as the other requests see it, and the pool. *)
Record World : Type := mkWorld
  { committed : Tables; sequences : Sequences; leased : nat }.

(** A pooled connection: the tables as its open transaction sees them, when
    one is open. *)
Record Connection : Type := mkConnection { transaction : option Tables }.

Inductive Body : Type :=
| ErrorBody (error : string)
| RegisterOk (userId : Z)
| ApplyOk (applicationId : Z)
| SchemesBody (schemes : list row)
| ApplicationsBody (applications : list row)
| StatusOk (message : string).

Record Response : Type := mkResponse { code : Z; body : Body }.

(** The state of a running handler: the world, its [connection] variable,
    the response sent so far, the operations performed, and the console. *)
Record HState : Type := mkHState
  { world : World;
    connection : option Connection;
    response : option Response;
    trace : list event;
    console : list exn }.

Inductive result (A : Type) : Type :=
| Return (a : A)
| Throw (e : exn).
Arguments Return {A} a.
Arguments Throw {A} e.

Definition M (A : Type) : Type := Env -> HState -> result A * HState.

Definition ret {A : Type} (a : A) : M A := fun _ h => (Return a, h).

Definition bind {A B : Type} (m : M A) (k : A -> M B) : M B :=
  fun env h =>
    match m env h with
    | (Return a, h') => k a env h'
    | (Throw e, h') => (Throw e, h')
    end.

Definition throw {A : Type} (e : exn) : M A := fun _ h => (Throw e, h).

Declare Scope handler_scope.
Delimit Scope handler_scope with handler.
Notation "x <- m ;; k" := (bind m (fun x => k))
  (at level 61, m at next level, right associativity) : handler_scope.
Notation "m ;; k" := (bind m (fun _ => k))
  (at level 61, right associativity) : handler_scope.
Local Open Scope handler_scope.

(** [try { body } catch (e) { handler e }] *)
Definition try_catch {A : Type} (body : M A) (handler : exn -> M A) : M A :=
  fun env h =>
    match body env h with
    | (Return a, h') => (Return a, h')
    | (Throw e, h') => handler e env h'
    end.

(** [try { body } finally { final }]: [final] runs on every way out. *)
Definition try_finally {A : Type} (body : M A) (final : M unit) : M A :=
  fun env h =>
    let (r, h') := body env h in
    match final env h' with
    | (Return _, h'') => (r, h'')
    | (Throw e, h'') => (Throw e, h'')
    end.

Definition log (o : op) (ok : bool) (h : HState) : HState :=
  mkHState (world h) (connection h) (response h) (trace h ++ [(o, ok)])
    (console h).

Definition set_world (w : World) (h : HState) : HState :=
  mkHState w (connection h) (response h) (trace h) (console h).

Definition set_connection (c : option Connection) (h : HState) : HState :=
  mkHState (world h) c (response h) (trace h) (console h).

(** [res.status(code).json(body)] *)
Definition res_status_json (c : Z) (b : Body) : M unit :=
  fun _ h =>
    (Return tt,
     mkHState (world h) (connection h) (Some (mkResponse c b)) (trace h)
       (console h)).

(** [res.json(body)] *)
Definition res_json (b : Body) : M unit := res_status_json 200 b.

(** [console.error(e)] *)
Definition console_error (e : exn) : M unit :=
  fun _ h =>
    (Return tt,
     mkHState (world h) (connection h) (response h) (trace h)
       (console h ++ [e])).

Section Runtime.
Context `{Platform}.

(** [pool.query(sql, params)]: one statement in autocommit mode. *)
Definition pool_query (s : statement) : M query_result :=
  fun env h =>
    let o := PoolQuery s in
    if fails env o then (Throw (OperationError o), log o false h)
    else
      let w := world h in
      match exec (now env) s (sequences w) (committed w) with
      | None => (Throw (OperationError o), log o false h)
      | Some (r, seqs, ts) =>
          (Return r, log o true (set_world (mkWorld ts seqs (leased w)) h))
      end.

(** [const [rows] = await pool.query(sql, params); return rows[0];] *)
Definition getSql (s : statement) : M (option row) :=
  r <- pool_query s ;; ret (hd_error (rows_of r)).

(** [const [rows] = await pool.query(sql, params); return rows;] *)
Definition allSql (s : statement) : M (list row) :=
  r <- pool_query s ;; ret (rows_of r).

(** [const [result] = await pool.query(sql, params); return result;] *)
Definition runSql (s : statement) : M query_result := pool_query s.

(** [bcrypt.hash(password, 10)] *)
Definition bcrypt_hash_10 (password : string) : M string :=
  fun env h =>
    let o := Hash password in
    if fails env o then (Throw (OperationError o), log o false h)
    else (Return (bcrypt_hash env password), log o true h).

(** [connection = await pool.getConnection()].  Every lease starts outside a
    transaction: what became of a connection that was released with its
    transaction open is not followed into later requests. *)
Definition pool_getConnection : M unit :=
  fun env h =>
    if fails env GetConnection
    then (Throw (OperationError GetConnection), log GetConnection false h)
    else
      let w := world h in
      (Return tt,
       log GetConnection true
         (set_connection (Some (mkConnection None))
            (set_world (mkWorld (committed w) (sequences w) (S (leased w)))
               h))).

(** A call on the [connection] variable; on [undefined] the call itself is a
    [TypeError]. *)
Definition on_connection {A : Type}
  (f : Connection -> Env -> HState -> result A * HState) : M A :=
  fun env h =>
    match connection h with
    | Some c => f c env h
    | None => (Throw TypeError, h)
    end.

(** [connection.beginTransaction()] *)
Definition connection_beginTransaction : M unit :=
  on_connection (fun c env h =>
    if fails env BeginTransaction
    then (Throw (OperationError BeginTransaction),
          log BeginTransaction false h)
    else
      (Return tt,
       log BeginTransaction true
         (set_connection (Some (mkConnection (Some (committed (world h)))))
            h))).

(** [connection.query(sql, params)]: inside the open transaction when there
    is one, in autocommit mode otherwise. *)
Definition connection_query (s : statement) : M query_result :=
  on_connection (fun c env h =>
    let o := ConnectionQuery s in
    if fails env o then (Throw (OperationError o), log o false h)
    else
      let w := world h in
      match transaction c with
      | Some ts =>
          match exec (now env) s (sequences w) ts with
          | None => (Throw (OperationError o), log o false h)
          | Some (r, seqs, ts') =>
              (Return r,
               log o true
                 (set_connection (Some (mkConnection (Some ts')))
                    (set_world (mkWorld (committed w) seqs (leased w)) h)))
          end
      | None =>
          match exec (now env) s (sequences w) (committed w) with
          | None => (Throw (OperationError o), log o false h)
          | Some (r, seqs, ts') =>
              (Return r, log o true (set_world (mkWorld ts' seqs (leased w)) h))
          end
      end).

(** [connection.commit()] *)
Definition connection_commit : M unit :=
  on_connection (fun c env h =>
    if fails env Commit then (Throw (OperationError Commit), log Commit false h)
    else
      let w := world h in
      match transaction c with
      | Some ts =>
          (Return tt,
           log Commit true
             (set_connection (Some (mkConnection None))
                (set_world (mkWorld ts (sequences w) (leased w)) h)))
      | None => (Return tt, log Commit true h)
      end).

(** [connection.rollback()] *)
Definition connection_rollback : M unit :=
  on_connection (fun c env h =>
    if fails env Rollback
    then (Throw (OperationError Rollback), log Rollback false h)
    else
      (Return tt,
       log Rollback true (set_connection (Some (mkConnection None)) h))).

(** [connection.release()] *)
Definition connection_release : M unit :=
  on_connection (fun c env h =>
    let w := world h in
    (Return tt,
     log Release true
       (set_world (mkWorld (committed w) (sequences w) (pred (leased w))) h))).

(** [if (connection) m] *)
Definition if_connection (m : M unit) : M unit :=
  fun env h =>
    match connection h with
    | Some _ => m env h
    | None => (Return tt, h)
    end.

End Runtime.

(* ================================================================== *)
(** * Requests *)
(* ================================================================== *)

(** [req.body] of [POST /api/register] for a body the parsers read, with its
    fields as texts; [None] is an absent field.  A request without a body,
    or with a field that is not a text, lies outside this type. *)
Module RegisterBody.
Record t : Type := mk
  { name : option string; email : option string; password : option string;
    age : option jsval; gender : option jsval }.
End RegisterBody.

(** [req.query] of [GET /api/schemes]. *)
Module SchemesQuery.
Record t : Type := mk
  { q : option string; academic_year : option string; type : option string;
    category : option string; international : option string }.
End SchemesQuery.

(** A file as the upload middleware hands it over. *)
Module File.
Record t : Type := mk
  { fieldname : string; originalname : string; filename : string }.
End File.

(** [req.files] under [applyUpload]: the one file of each accepted field
    ([maxCount: 1]), when it was sent. *)
Module Files.
Record t : Type := mk { photo : option File.t; mark10 : option File.t }.
End Files.

(** [POST /api/apply] for a multipart request, where the upload middleware
    sets [req.body]: [req.body.data] as a text and [req.files].  A request
    without a body lies outside this type. *)
Module ApplyRequest.
Record t : Type := mk { data : option string; files : option Files.t }.
End ApplyRequest.

(** [applyUpload = upload.fields([{name:'photo',maxCount:1},
    {name:'mark10',maxCount:1}])]: every file sits under its own field
    name. *)
Definition applyUpload (fs : Files.t) : Prop :=
  (forall f, Files.photo fs = Some f -> File.fieldname f = "photo") /\
  (forall f, Files.mark10 fs = Some f -> File.fieldname f = "mark10").

(** The requests of the routes that write, and of the two listings; the
    other routes only read. *)
Inductive request : Type :=
| PostRegister (b : RegisterBody.t)
| GetSchemes (query : SchemesQuery.t)
| PostApply (r : ApplyRequest.t)
| GetPendingApplications
| PostApprove (id : string)
| PostReject (id : string).

(* ================================================================== *)
(** * server.js *)
(* ================================================================== *)

Module Server.
Section Handlers.
Context `{Platform}.

(** [(age !== undefined && age !== null && !isNaN(Number(age)))
      ? Number(age) : null] *)
Definition validatedAge (age : option jsval) : jsval :=
  match age with
  | None => JNull
  | Some JNull => JNull
  | Some v =>
      match JS_Number v with
      | Some n => JNum n
      | None => JNull
      end
  end.

(** [app.post('/api/register', ...)] *)
Definition post_api_register (b : RegisterBody.t) : M unit :=
  match RegisterBody.name b, RegisterBody.email b, RegisterBody.password b with
  | Some name, Some email, Some password =>
      if string_is_empty name || string_is_empty email
         || string_is_empty password
      then
        res_status_json 400
          (ErrorBody
             "Missing required fields: name, email, and password are required.")
      else
        try_catch
          (existing <- getSql (SelectUserIdByEmail email) ;;
           match existing with
           | Some _ =>
               res_status_json 409 (ErrorBody "Email already registered")
           | None =>
               let age := validatedAge (RegisterBody.age b) in
               let validatedGender := or_null (RegisterBody.gender b) in
               let userRole := "user" in
               hash <- bcrypt_hash_10 password ;;
               r <- runSql
                      (InsertUser name email hash age validatedGender
                         userRole) ;;
               res_json (RegisterOk (insertId_of r))
           end)
          (fun e =>
             console_error e ;;
             res_status_json 500
               (ErrorBody
                  "Server error: registration failed. Please try again later."))
  | _, _, _ =>
      res_status_json 400
        (ErrorBody
           "Missing required fields: name, email, and password are required.")
  end.

(** The pushes onto [clauses] and [params]. *)
Definition push {A : Type} (cond : bool) (items : list A) (l : list A) :
  list A :=
  if cond then l ++ items else l.

Definition wildcard (q : string) : string := "%" ++ q ++ "%".

Definition cats (category : option string) : list string :=
  match category with
  | Some c => map trim (split_comma c)
  | None => []
  end.

Definition or_empty (s : option string) : string :=
  match s with Some x => x | None => EmptyString end.

Definition international_is_1 (query : SchemesQuery.t) : bool :=
  match SchemesQuery.international query with
  | Some i => String.eqb i "1"
  | None => false
  end.

Definition clauses (query : SchemesQuery.t) : list clause :=
  push (international_is_1 query) [InternationalEligible]
    (push (truthy_str (SchemesQuery.category query))
       [CategoryIn (List.length (cats (SchemesQuery.category query)))]
       (push (truthy_str (SchemesQuery.type query)) [TypeEq]
          (push (truthy_str (SchemesQuery.academic_year query))
             [AcademicYearEq]
             (push (truthy_str (SchemesQuery.q query)) [NameLike] [])))).

Definition params (query : SchemesQuery.t) : list string :=
  push (truthy_str (SchemesQuery.category query))
    (cats (SchemesQuery.category query))
    (push (truthy_str (SchemesQuery.type query))
       [or_empty (SchemesQuery.type query)]
       (push (truthy_str (SchemesQuery.academic_year query))
          [or_empty (SchemesQuery.academic_year query)]
          (push (truthy_str (SchemesQuery.q query))
             [wildcard (or_empty (SchemesQuery.q query));
              wildcard (or_empty (SchemesQuery.q query))] []))).

(** [app.get('/api/schemes', ...)].  The statement goes to [allSql] without
    [params], so [allSql] binds its default, the empty list. *)
Definition get_api_schemes (query : SchemesQuery.t) : M unit :=
  try_catch
    (rows <- allSql (SelectSchemes (clauses query) []) ;;
     res_json (SchemesBody rows))
    (fun e =>
       console_error e ;; res_status_json 500 (ErrorBody "Server error")).

(** [req.body.data ? JSON.parse(req.body.data) : {}] *)
Definition parse_data (data : option string) : M jsval :=
  match data with
  | Some text =>
      if string_is_empty text then ret (JObj [])
      else
        match JSON_parse text with
        | Some v => ret v
        | None => throw SyntaxError
        end
  | None => ret (JObj [])
  end.

(** [const { user_id, scheme_id } = data]: destructuring [null] throws. *)
Definition destructure (data : jsval) : M (option jsval * option jsval) :=
  match data with
  | JNull => throw TypeError
  | _ => ret (get_prop "user_id" data, get_prop "scheme_id" data)
  end.

(** The document insert for one uploaded file. *)
Definition insert_document (appId : Z) (file : option File.t) : M unit :=
  match file with
  | Some f =>
      connection_query
        (InsertDocument appId (File.fieldname f) (File.filename f)) ;;
      ret tt
  | None => ret tt
  end.

(** [app.post('/api/apply', applyUpload, ...)] *)
Definition post_api_apply (req : ApplyRequest.t) : M unit :=
  try_finally
    (try_catch
       (data <- parse_data (ApplyRequest.data req) ;;
        ids <- destructure data ;;
        match ids with
        | (Some user_id, Some scheme_id) =>
            if negb (truthy user_id) || negb (truthy scheme_id)
            then res_status_json 400 (ErrorBody "Missing user_id or scheme_id")
            else
              pool_getConnection ;;
              connection_beginTransaction ;;
              r <- connection_query
                     (InsertApplication user_id scheme_id
                        (or_null (get_prop "amount_applied" data))
                        (JSON_stringify data)) ;;
              let appId := insertId_of r in
              match ApplyRequest.files req with
              | Some files =>
                  insert_document appId (Files.photo files) ;;
                  insert_document appId (Files.mark10 files)
              | None => ret tt
              end ;;
              connection_commit ;;
              res_json (ApplyOk appId)
        | _ => res_status_json 400 (ErrorBody "Missing user_id or scheme_id")
        end)
       (fun e =>
          if_connection connection_rollback ;;
          console_error e ;;
          res_status_json 500 (ErrorBody "Server error")))
    (if_connection connection_release).

(** [app.get('/api/admin/pending-applications', ...)] *)
Definition get_api_admin_pending_applications : M unit :=
  try_catch
    (rows <- allSql SelectPendingView ;;
     res_json (ApplicationsBody rows))
    (fun e =>
       console_error e ;; res_status_json 500 (ErrorBody "Server error")).

(** [app.post('/api/admin/application/:id/approve', ...)] *)
Definition post_api_admin_application_approve (id : string) : M unit :=
  try_catch
    (runSql (UpdateStatus Approved id) ;;
     res_json (StatusOk "Trigger fired (if status changed)"))
    (fun e =>
       console_error e ;; res_status_json 500 (ErrorBody "Server error")).

(** [app.post('/api/admin/application/:id/reject', ...)] *)
Definition post_api_admin_application_reject (id : string) : M unit :=
  try_catch
    (runSql (UpdateStatus Rejected id) ;;
     res_json (StatusOk "Trigger fired (if status changed)"))
    (fun e =>
       console_error e ;; res_status_json 500 (ErrorBody "Server error")).

(** The routes. *)
Definition route (r : request) : M unit :=
  match r with
  | PostRegister b => post_api_register b
  | GetSchemes query => get_api_schemes query
  | PostApply a => post_api_apply a
  | GetPendingApplications => get_api_admin_pending_applications
  | PostApprove id => post_api_admin_application_approve id
  | PostReject id => post_api_admin_application_reject id
  end.

End Handlers.
End Server.

(* ================================================================== *)
(** * The corrected server *)
(* ================================================================== *)

(** The second [server.js] of the repository ("Corrected Version") differs
    from the first in two routes: the scheme listing passes [params] to
    [allSql] and trims the year and the type, and the admin listing joins
    the tables itself instead of reading the view. *)
Module ServerCorrected.
Section Handlers.
Context `{Platform}.

Definition params (query : SchemesQuery.t) : list string :=
  Server.push (truthy_str (SchemesQuery.category query))
    (Server.cats (SchemesQuery.category query))
    (Server.push (truthy_str (SchemesQuery.type query))
       [trim (Server.or_empty (SchemesQuery.type query))]
       (Server.push (truthy_str (SchemesQuery.academic_year query))
          [trim (Server.or_empty (SchemesQuery.academic_year query))]
          (Server.push (truthy_str (SchemesQuery.q query))
             [Server.wildcard (Server.or_empty (SchemesQuery.q query));
              Server.wildcard (Server.or_empty (SchemesQuery.q query))] []))).

(** [app.get('/api/schemes', ...)] *)
Definition get_api_schemes (query : SchemesQuery.t) : M unit :=
  try_catch
    (rows <- allSql (SelectSchemes (Server.clauses query) (params query)) ;;
     res_json (SchemesBody rows))
    (fun e =>
       console_error e ;; res_status_json 500 (ErrorBody "Server error")).

(** [app.get('/api/admin/pending-applications', ...)] *)
Definition get_api_admin_pending_applications : M unit :=
  try_catch
    (rows <- allSql SelectPendingJoin ;;
     res_json (ApplicationsBody rows))
    (fun e =>
       console_error e ;; res_status_json 500 (ErrorBody "Server error")).

End Handlers.
End ServerCorrected.

(* ================================================================== *)
(** * Running a handler *)
(* ================================================================== *)

Definition start (w : World) : HState := mkHState w None None [] [].

(** One request from a world: the handler's result and its final state. *)
Definition run (m : M unit) (env : Env) (w : World) : result unit * HState :=
  m env (start w).

Definition final (m : M unit) (env : Env) (w : World) : HState :=
  snd (run m env w).

(** Requests one after the other, each in its own environment. *)
Fixpoint serve `{Platform} (rs : list (Env * request)) (w : World) : World :=
  match rs with
  | [] => w
  | (env, r) :: rest => serve rest (world (final (Server.route r) env w))
  end.

(* ================================================================== *)
(** * A reference platform *)
(* ================================================================== *)

Module Reference.

(** The rest of a text after the continuation bytes of a character. *)
Fixpoint drop_continuation (s : string) : string :=
  match s with
  | String c rest =>
      if (128 <=? JSON.code c) && (JSON.code c <? 192)
      then drop_continuation rest else s
  | EmptyString => s
  end.

(** [LIKE] under a binary collation: [%] is any run, [_] any one character,
    a backslash takes the next byte literally. *)
Fixpoint like (p : string) : string -> bool :=
  match p with
  | EmptyString => string_is_empty
  | String c p' =>
      if Ascii.eqb c "%"%char then
        fix any (s : string) : bool :=
          like p' s
          || match s with
             | String _ s' => any s'
             | EmptyString => false
             end
      else if Ascii.eqb c "_"%char then
        fun s =>
          match s with
          | String _ s' => like p' (drop_continuation s')
          | EmptyString => false
          end
      else if JSON.code c =? 92 then
        match p' with
        | String d p'' =>
            fun s =>
              match s with
              | String x s' => Ascii.eqb d x && like p'' s'
              | EmptyString => false
              end
        | EmptyString =>
            fun s =>
              match s with
              | String x EmptyString => Ascii.eqb c x
              | _ => false
              end
        end
      else
        fun s =>
          match s with
          | String x s' => Ascii.eqb c x && like p' s'
          | EmptyString => false
          end
  end.

(** Whether the numeral denotes the integer [k]. *)
Definition number_is (n : number) (k : Z) : bool :=
  if 0 <=? exponent n then mantissa n * 10 ^ exponent n =? k
  else mantissa n =? k * 10 ^ (- exponent n).

Definition signed (s : string) : Z * string :=
  match s with
  | String "-" r => (-1, r)
  | String "+" r => (1, r)
  | _ => (1, s)
  end.

(** Digits with an optional fraction: the digits read as one integer, how
    many there were before and after the point, and the rest. *)
Definition take_decimal (s : string) : Z * Z * Z * string :=
  let '(i, ki, s2) := JSON.take_digits s 0 0 in
  match s2 with
  | String "." r =>
      let '(m, kf, s3) := JSON.take_digits r i 0 in (m, ki, kf, s3)
  | _ => (i, ki, 0, s2)
  end.

(** [StrDecimalLiteral]: a signed decimal numeral or [Infinity], the latter
    kept as a numeral beyond the range of the doubles. *)
Definition decimal_literal (s : string) : option number :=
  let '(sign, s1) := signed s in
  if String.eqb s1 "Infinity" then Some (Num10 sign 400)
  else
    let '(m, ki, kf, s3) := take_decimal s1 in
    if ki + kf =? 0 then None
    else
      match JSON.take_exp s3 with
      | Some (e, EmptyString) => Some (Num10 (sign * m) (e - kf))
      | _ => None
      end.

Fixpoint take_radix (base : Z) (s : string) (acc : Z) (count : Z) : option Z :=
  match s with
  | EmptyString => if count =? 0 then None else Some acc
  | String c rest =>
      match JSON.hex_val c with
      | Some d =>
          if d <? base then take_radix base rest (acc * base + d) (count + 1)
          else None
      | None => None
      end
  end.

Definition radix_of (c : ascii) : option Z :=
  let n := JSON.code c in
  if (n =? 120) || (n =? 88) then Some 16
  else if (n =? 111) || (n =? 79) then Some 8
  else if (n =? 98) || (n =? 66) then Some 2
  else None.

(** [Number(text)]: the [StringNumericLiteral] grammar. *)
Definition string_number (s : string) : option number :=
  let t := trim s in
  match t with
  | EmptyString => Some (Num10 0 0)
  | String "0" (String x rest) =>
      match radix_of x with
      | Some base =>
          match take_radix base rest 0 0 with
          | Some v => Some (Num10 v 0)
          | None => None
          end
      | None => decimal_literal t
      end
  | _ => decimal_literal t
  end.

(** [Number(v)]: an array counts as the text of its elements joined by
    commas, so only arrays of at most one element can be numbers. *)
Fixpoint Number (v : jsval) : option number :=
  match v with
  | JNull => Some (Num10 0 0)
  | JBool true => Some (Num10 1 0)
  | JBool false => Some (Num10 0 0)
  | JNum n => Some n
  | JStr s => string_number s
  | JArr [] => Some (Num10 0 0)
  | JArr [JNull] => Some (Num10 0 0)
  | JArr [JBool _] => None
  | JArr [x] => Number x
  | JArr _ => None
  | JObj _ => None
  end.

Definition is_space (c : ascii) : bool :=
  let n := JSON.code c in (n =? 32) || ((9 <=? n) && (n <=? 13)).

Fixpoint skip_spaces (s : string) : string :=
  match s with
  | String c rest => if is_space c then skip_spaces rest else s
  | EmptyString => s
  end.

(** The number the store reads off a text it compares with a number: the
    longest numeral at its front, and zero when there is none. *)
Definition leading_number (s : string) : number :=
  let '(sign, s1) := signed (skip_spaces s) in
  let '(m, ki, kf, s3) := take_decimal s1 in
  if ki + kf =? 0 then Num10 0 0
  else
    match JSON.take_exp s3 with
    | Some (e, _) => Num10 (sign * m) (e - kf)
    | None => Num10 (sign * m) (- kf)
    end.

(** Keys compare by number; [NULL] equals nothing. *)
Definition key_eq (v : jsval) (k : Z) : bool :=
  match v with
  | JNum n => number_is n k
  | JStr s => number_is (leading_number s) k
  | JBool true => k =? 1
  | JBool false => k =? 0
  | _ => false
  end.

(** A view for the small portal to run on: the plain join of the
    applications with their users and schemes, in table order. *)
Definition view (ts : Tables) : list AdminApplication.t :=
  flat_map
    (fun a =>
       flat_map
         (fun u =>
            map (admin_row a u)
              (left_matches
                 (fun s => key_eq (Application.scheme_id a) (Scheme.id s))
                 (schemes ts)))
         (left_matches
            (fun u => key_eq (Application.user_id a) (User.id u))
            (users ts)))
    (applications ts).

End Reference.

#[export] Instance reference_platform : Platform :=
  {| JSON_parse := JSON.parse;
     JSON_stringify := JSON.stringify;
     JS_Number := Reference.Number;
     collation_eq := String.eqb;
     sql_like := fun column pattern => Reference.like pattern column;
     key_eq := Reference.key_eq;
     v_admin_applications := Reference.view |}.

(* ================================================================== *)
(** * Vocabulary of the properties *)
(* ================================================================== *)

(** The apply handler answered [{success: true, applicationId}]. *)
Definition succeeded (h : HState) (appId : Z) : Prop :=
  response h = Some (mkResponse 200 (ApplyOk appId)).

Definition server_error : Response := mkResponse 500 (ErrorBody "Server error").

Definition option_list {A : Type} (o : option A) : list A :=
  match o with Some a => [a] | None => [] end.

(** The files of a request, in the order the handler looks at them. *)
Definition uploads (req : ApplyRequest.t) : list File.t :=
  match ApplyRequest.files req with
  | Some fs =>
      (option_list (Files.photo fs) ++ option_list (Files.mark10 fs))%list
  | None => []
  end.

(** One document row per file, numbered from [first]. *)
Fixpoint document_rows (appId first : Z) (fs : list File.t) :
  list Document.t :=
  match fs with
  | [] => []
  | f :: rest =>
      Document.mk first appId (File.fieldname f) (File.filename f)
      :: document_rows appId (first + 1) rest
  end.

Definition has_type (ty : string) (d : Document.t) : bool :=
  String.eqb (Document.doc_type d) ty.

(** The spec's reading of the amount column: the numeric [amount_applied]
    of the payload, and [NULL] when it is absent or not a number. *)
Definition spec_amount_requested (data : jsval) : jsval :=
  match get_prop "amount_applied" data with
  | Some (JNum n) => JNum n
  | _ => JNull
  end.

(** The applications after [UPDATE applications SET status=st WHERE id=?]. *)
Definition with_status `{Platform} (st : Status) (id : string)
  (apps : list Application.t) : list Application.t :=
  map (fun a =>
         if key_eq (JStr id) (Application.id a)
         then Application.set_status st a else a) apps.

Definition acknowledged : Response :=
  mkResponse 200 (StatusOk "Trigger fired (if status changed)").

(** The schemes a listing request asks for, one test per filter that is
    supplied: the text somewhere in one of the two names, the year and the
    type equal to the trimmed values, the category among the trimmed pieces
    of the list, the eligibility flag for [international=1].  A parameter
    that is absent or empty is no filter. *)
Definition matches_q `{Platform} (query : SchemesQuery.t) (s : Scheme.t) :
  bool :=
  match SchemesQuery.q query with
  | Some text =>
      string_is_empty text
      || text_like (Scheme.scheme_name s) (Server.wildcard text)
      || text_like (Scheme.scholarship_name s) (Server.wildcard text)
  | None => true
  end.

Definition matches_year `{Platform} (query : SchemesQuery.t) (s : Scheme.t) :
  bool :=
  match SchemesQuery.academic_year query with
  | Some y => string_is_empty y || text_eq (Scheme.academic_year s) (trim y)
  | None => true
  end.

Definition matches_type `{Platform} (query : SchemesQuery.t) (s : Scheme.t) :
  bool :=
  match SchemesQuery.type query with
  | Some t => string_is_empty t || text_eq (Scheme.type s) (trim t)
  | None => true
  end.

Definition matches_category `{Platform} (query : SchemesQuery.t)
  (s : Scheme.t) : bool :=
  match SchemesQuery.category query with
  | Some c =>
      string_is_empty c
      || existsb (text_eq (Scheme.category s)) (map trim (split_comma c))
  | None => true
  end.

Definition matches_international (query : SchemesQuery.t) (s : Scheme.t) :
  bool :=
  if Server.international_is_1 query then
    match Scheme.is_international_eligible s with
    | Some true => true
    | _ => false
    end
  else true.

Definition matches `{Platform} (query : SchemesQuery.t) (s : Scheme.t) : bool :=
  matches_q query s && matches_year query s && matches_type query s
  && matches_category query s && matches_international query s.

(** Whether a listing request carries one of the filters that bind a value. *)
Definition binds_a_value (query : SchemesQuery.t) : bool :=
  truthy_str (SchemesQuery.q query)
  || truthy_str (SchemesQuery.academic_year query)
  || truthy_str (SchemesQuery.type query)
  || truthy_str (SchemesQuery.category query).

(** A user row stored under this very address. *)
Definition has_email (email : string) (u : User.t) : bool :=
  String.eqb (User.email u) email.

Definition conflict : Response :=
  mkResponse 409 (ErrorBody "Email already registered").

(** What [req.body.data ? JSON.parse(req.body.data) : {}] evaluates to;
    [None] when the text is not JSON. *)
Definition payload `{Platform} (req : ApplyRequest.t) : option jsval :=
  match ApplyRequest.data req with
  | Some text =>
      if string_is_empty text then Some (JObj []) else JSON_parse text
  | None => Some (JObj [])
  end.

(** The payload has no usable user reference or no usable scheme
    reference. *)
Definition lacks_reference (data : jsval) : bool :=
  negb (truthy_opt (get_prop "user_id" data))
  || negb (truthy_opt (get_prop "scheme_id" data)).

Definition missing_reference : Response :=
  mkResponse 400 (ErrorBody "Missing user_id or scheme_id").

(** The partner a [LEFT JOIN] pairs a row with: a matching row of the other
    table, or [NULL] when none matches. *)
Definition joined {A : Type} (p : A -> bool) (l : list A) (o : option A) :
  Prop :=
  match o with
  | Some x => In x l /\ p x = true
  | None => forall x, In x l -> p x = false
  end.

(** [WHERE status='Pending'] on a row of the admin listing. *)
Definition row_pending (r : AdminApplication.t) : bool :=
  Status_eqb (AdminApplication.status r) Pending.

(* ================================================================== *)
(** * A small portal to run the handlers on *)
(* ================================================================== *)

Module Example.

Definition merit : Scheme.t :=
  Scheme.mk 1 (Some "Merit Scholarship") (Some "State Merit Award")
    (JNum (Num10 20000 0)) (Some "2024-25") (Some "Merit") (Some "General")
    (Some true) (Some 20250131).

Definition means : Scheme.t :=
  Scheme.mk 2 (Some "Means Scholarship") (Some "Central Means Award")
    (JNum (Num10 12000 0)) (Some "2024-25") (Some "Means") (Some "OBC")
    (Some false) None.

Definition sports : Scheme.t :=
  Scheme.mk 3 (Some "Sports Grant") (Some "Sports Talent Award")
    (JNum (Num10 8000 0)) (Some "2023-24") (Some "Merit") (Some "SC")
    None (Some 20240915).

Definition asha : User.t :=
  User.mk 1 "Asha" "asha@example.org" "$2a$10$asha" (JNum (Num10 19 0))
    (JStr "F") "user".

Definition ravi : User.t :=
  User.mk 2 "Ravi" "ravi@example.org" "$2a$10$ravi" JNull JNull "user".

Definition first_application : Application.t :=
  Application.mk 1 (JNum (Num10 2 0)) (JNum (Num10 1 0)) (JNum (Num10 5000 0))
    "{}" Pending 20240820.

Definition second_application : Application.t :=
  Application.mk 2 (JNum (Num10 1 0)) (JNum (Num10 3 0)) JNull "{}" Approved
    20240701.

Definition third_application : Application.t :=
  Application.mk 3 (JNum (Num10 1 0)) (JNum (Num10 2 0)) JNull "{}" Pending
    20240705.

Definition tables : Tables :=
  mkTables [asha; ravi] [merit; means; sports]
    [first_application; second_application; third_application] [].

Definition portal : World := mkWorld tables (mkSequences 3 4 1) 0.

(** No operation fails. *)
Definition calm : Env :=
  mkEnv (fun _ => false) 20240901 (fun p => "$2a$10$" ++ p).

Definition is_document_insert (o : op) : bool :=
  match o with
  | ConnectionQuery (InsertDocument _ _ _) => true
  | _ => false
  end.

(** Every document insert fails. *)
Definition documents_fail : Env :=
  mkEnv is_document_insert 20240901 (fun p => "$2a$10$" ++ p).

(** Every document insert fails, and so does the rollback after it. *)
Definition rollback_fails : Env :=
  mkEnv (fun o =>
           match o with
           | Rollback => true
           | _ => is_document_insert o
           end)
    20240901 (fun p => "$2a$10$" ++ p).

Definition photo : File.t :=
  File.mk "photo" "me.png" "0f3a9c51d2e84b7fa6c0b1d2e3f40516".

Definition marks : File.t :=
  File.mk "mark10" "marks.pdf" "7be1c2a93d4f4065b8a7c6d5e4f3a2b1".

(** The form field [data] as the page sends it:
    [JSON.stringify({user_id: 1, scheme_id: 2, amount_applied: amount})]. *)
Definition form (amount : Z) : jsval :=
  JObj [("user_id", JNum (Num10 1 0)); ("scheme_id", JNum (Num10 2 0));
        ("amount_applied", JNum (Num10 amount 0))].

Definition application : ApplyRequest.t :=
  ApplyRequest.mk (Some (JSON.stringify (form 5000)))
    (Some (Files.mk (Some photo) (Some marks))).

Definition zero_amount : ApplyRequest.t :=
  ApplyRequest.mk (Some (JSON.stringify (form 0)))
    (Some (Files.mk (Some photo) None)).

Definition null_payload : ApplyRequest.t :=
  ApplyRequest.mk (Some "null") None.

Definition type_and_year : SchemesQuery.t :=
  SchemesQuery.mk None (Some "2024-25") (Some "Merit") None None.

Definition two_categories : SchemesQuery.t :=
  SchemesQuery.mk None None None (Some "General,OBC") None.

Definition newcomer : RegisterBody.t :=
  RegisterBody.mk (Some "Meera") (Some "meera@example.org") (Some "s3cret")
    (Some (JStr "21")) None.

Definition impostor : RegisterBody.t :=
  RegisterBody.mk (Some "Someone") (Some "meera@example.org") (Some "other")
    None None.

End Example.

(* ================================================================== *)
(** * The reading routes of server.js *)
(* ================================================================== *)

(** [a.user_id = ?]: the store's comparison of a stored reference with a
    path parameter. *)
Class References : Type :=
  { reference_eq : jsval -> string -> bool }.

(** [req.body] of [POST /api/login] for a body the parsers read, with its
    fields as texts; [None] is an absent field.  A request without a body,
    or with a field that is not a text, lies outside this type. *)
Module LoginBody.
Record t : Type := mk { email : option string; password : option string }.
End LoginBody.

(** A row of [GET /api/my-applications/:userId]. *)
Module MyApplication.
Record t : Type := mk
  { application_id : Z; scheme_name : option string;
    scholarship_name : option string; application_date : Z;
    status : Status }.
End MyApplication.

(** The row of [GET /api/application/:id]: [a.*] and the three columns of
    the scheme. *)
Module Detail.
Record t : Type := mk
  { application : Application.t; scheme_name : option string;
    scholarship_name : option string; amount : jsval }.
End Detail.

Module Reads.

(** The [SELECT]s of the reading routes, each with the type of its rows. *)
Inductive query : Type -> Type :=
| SelectUserByEmail (email : string) : query jsval
    (* SELECT id,name,email,password_hash,role,age,gender FROM users
       WHERE email = ? *)
| SelectSchemeById (id : string) : query Scheme.t
    (* SELECT * FROM schemes WHERE id = ? *)
| SelectMyApplications (userId : string) : query MyApplication.t
    (* SELECT a.id as application_id, s.scheme_name, s.scholarship_name,
       a.application_date, a.status FROM applications a
       LEFT JOIN schemes s ON a.scheme_id = s.id WHERE a.user_id = ?
       ORDER BY a.application_date DESC *)
| SelectApplicationById (id : string) : query Detail.t
    (* SELECT a.*, s.scheme_name, s.scholarship_name, s.amount
       FROM applications a LEFT JOIN schemes s ON a.scheme_id = s.id
       WHERE a.id = ? *)
| SelectDocumentsOf (id : string) : query Document.t
    (* SELECT * FROM documents WHERE application_id = ? *)
| CountUsers : query Z
    (* SELECT COUNT( * ) as c FROM users *)
| CountSchemes : query Z
    (* SELECT COUNT( * ) as c FROM schemes *)
| CountPending : query Z.
    (* SELECT COUNT( * ) as c FROM applications WHERE status = 'Pending' *)

(** A query the handler sent, and whether it went through. *)
Inductive asked : Type :=
| Asked {R : Type} (q : query R) (ok : bool).

Inductive exn : Type :=
| TypeError
| QueryError {R : Type} (q : query R)
| CompareError.

(** The environment of one request: which queries fail, and what the
    password library answers for a password and the stored hash ([None]:
    it throws). *)
Record Env : Type := mkEnv
  { fails : forall R, query R -> bool;
    bcrypt_compare : string -> option jsval -> option bool }.

Inductive Body : Type :=
| ErrorBody (error : string)
| LoginOk (user : jsval)
| SchemeBody (scheme : Scheme.t)
| MyApplicationsBody (applications : list MyApplication.t)
| ApplicationBody (application : Detail.t) (documents : list Document.t)
| StatsBody (total_users total_schemes pending_applications : Z).

Record Response : Type := mkResponse { code : Z; body : Body }.

(** The state of a running handler: the response sent, the queries asked,
    and the console. *)
Record State : Type := mkState
  { response : option Response; queries : list asked; console : list exn }.

Inductive result (A : Type) : Type :=
| Return (a : A)
| Throw (e : exn).
Arguments Return {A} a.
Arguments Throw {A} e.

(** A handler that only reads: the tables stay as they are. *)
Definition Q (A : Type) : Type :=
  Env -> Tables -> State -> result A * State.

Definition ret {A : Type} (a : A) : Q A := fun _ _ st => (Return a, st).

Definition bind {A B : Type} (m : Q A) (k : A -> Q B) : Q B :=
  fun env ts st =>
    match m env ts st with
    | (Return a, st') => k a env ts st'
    | (Throw e, st') => (Throw e, st')
    end.

Definition throw {A : Type} (e : exn) : Q A := fun _ _ st => (Throw e, st).

Declare Scope reads_scope.
Delimit Scope reads_scope with reads.
Notation "x <- m ;; k" := (bind m (fun x => k))
  (at level 61, m at next level, right associativity) : reads_scope.
Notation "m ;; k" := (bind m (fun _ => k))
  (at level 61, right associativity) : reads_scope.
Local Open Scope reads_scope.

(** [try { body } catch (e) { handler e }] *)
Definition try_catch {A : Type} (body : Q A) (handler : exn -> Q A) : Q A :=
  fun env ts st =>
    match body env ts st with
    | (Return a, st') => (Return a, st')
    | (Throw e, st') => handler e env ts st'
    end.

(** [res.status(code).json(body)] *)
Definition res_status_json (c : Z) (b : Body) : Q unit :=
  fun _ _ st =>
    (Return tt, mkState (Some (mkResponse c b)) (queries st) (console st)).

(** [res.json(body)] *)
Definition res_json (b : Body) : Q unit := res_status_json 200 b.

(** [console.error(e)] *)
Definition console_error (e : exn) : Q unit :=
  fun _ _ st =>
    (Return tt, mkState (response st) (queries st) (console st ++ [e])).

Definition note {R : Type} (q : query R) (ok : bool) (st : State) : State :=
  mkState (response st) (queries st ++ [Asked q ok]) (console st).

(** The [id] column as the driver hands it over. *)
Definition js_int (z : Z) : jsval := JNum (Num10 z 0).

(** A user row with the columns the login selects. *)
Definition user_row (u : User.t) : jsval :=
  JObj [("id", js_int (User.id u)); ("name", JStr (User.name u));
        ("email", JStr (User.email u));
        ("password_hash", JStr (User.password_hash u));
        ("role", JStr (User.role u)); ("age", User.age u);
        ("gender", User.gender u)].

(** [delete v.k] *)
Definition delete_prop (k : string) (v : jsval) : jsval :=
  match v with
  | JObj props =>
      JObj (filter (fun kv : string * jsval => negb (String.eqb (fst kv) k))
              props)
  | _ => v
  end.

(** [ORDER BY a.application_date DESC] *)
Definition newest_first (a b : MyApplication.t) : bool :=
  MyApplication.application_date b <=? MyApplication.application_date a.

(** The requests of the routes that only read. *)
Inductive request : Type :=
| PostLogin (b : LoginBody.t)
| GetScheme (id : string)
| GetMyApplications (userId : string)
| GetApplication (id : string)
| GetAdminStats.

Section Store.
Context `{Platform} `{References}.

Definition owned_by (userId : string) (a : Application.t) : bool :=
  reference_eq (Application.user_id a) userId.

Definition application_is (id : string) (a : Application.t) : bool :=
  key_eq (JStr id) (Application.id a).

Definition scheme_is (id : string) (s : Scheme.t) : bool :=
  key_eq (JStr id) (Scheme.id s).

Definition document_of (id : string) (d : Document.t) : bool :=
  key_eq (JStr id) (Document.application_id d).

Definition my_row (a : Application.t) (s : option Scheme.t) :
  MyApplication.t :=
  MyApplication.mk (Application.id a)
    (match s with Some s' => Scheme.scheme_name s' | None => None end)
    (match s with Some s' => Scheme.scholarship_name s' | None => None end)
    (Application.application_date a) (Application.status a).

Definition detail_row (a : Application.t) (s : option Scheme.t) : Detail.t :=
  Detail.mk a
    (match s with Some s' => Scheme.scheme_name s' | None => None end)
    (match s with Some s' => Scheme.scholarship_name s' | None => None end)
    (match s with Some s' => Scheme.amount s' | None => JNull end).

(** The rows of a query on the tables. *)
Definition select {R : Type} (q : query R) (ts : Tables) : list R :=
  match q in query T return list T with
  | SelectUserByEmail e =>
      map user_row
        (filter (fun u => collation_eq (User.email u) e) (users ts))
  | SelectSchemeById id => filter (scheme_is id) (schemes ts)
  | SelectMyApplications userId =>
      order_by newest_first
        (flat_map
           (fun a => map (my_row a) (left_matches (scheme_of a) (schemes ts)))
           (filter (owned_by userId) (applications ts)))
  | SelectApplicationById id =>
      flat_map
        (fun a => map (detail_row a) (left_matches (scheme_of a) (schemes ts)))
        (filter (application_is id) (applications ts))
  | SelectDocumentsOf id => filter (document_of id) (documents ts)
  | CountUsers => [Z.of_nat (List.length (users ts))]
  | CountSchemes => [Z.of_nat (List.length (schemes ts))]
  | CountPending => [count is_pending (applications ts)]
  end.

(** [pool.query(sql, params)] for a [SELECT]. *)
Definition pool_query {R : Type} (q : query R) : Q (list R) :=
  fun env ts st =>
    if fails env R q then (Throw (QueryError q), note q false st)
    else (Return (select q ts), note q true st).

(** [const [rows] = await pool.query(sql, params); return rows[0];] *)
Definition getSql {R : Type} (q : query R) : Q (option R) :=
  rows <- pool_query q ;; ret (hd_error rows).

(** [const [rows] = await pool.query(sql, params); return rows;] *)
Definition allSql {R : Type} (q : query R) : Q (list R) := pool_query q.

(** [bcrypt.compare(password, user.password_hash)] *)
Definition bcrypt_compare_to (password : string) (hash : option jsval) :
  Q bool :=
  fun env _ st =>
    match bcrypt_compare env password hash with
    | Some ok => (Return ok, st)
    | None => (Throw CompareError, st)
    end.

Definition invalid_credentials : Response :=
  mkResponse 401 (ErrorBody "Invalid credentials").

(** [app.post('/api/login', ...)] *)
Definition post_api_login (b : LoginBody.t) : Q unit :=
  try_catch
    (match LoginBody.email b, LoginBody.password b with
     | Some email, Some password =>
         if string_is_empty email || string_is_empty password
         then res_status_json 400 (ErrorBody "Missing fields")
         else
           user <- getSql (SelectUserByEmail email) ;;
           match user with
           | None => res_status_json 401 (ErrorBody "Invalid credentials")
           | Some user =>
               ok <- bcrypt_compare_to password
                       (get_prop "password_hash" user) ;;
               if ok : bool
               then res_json (LoginOk (delete_prop "password_hash" user))
               else res_status_json 401 (ErrorBody "Invalid credentials")
           end
     | _, _ => res_status_json 400 (ErrorBody "Missing fields")
     end)
    (fun e =>
       console_error e ;; res_status_json 500 (ErrorBody "Server error")).

(** [app.get('/api/schemes/:id', ...)] *)
Definition get_api_schemes_id (id : string) : Q unit :=
  try_catch
    (row <- getSql (SelectSchemeById id) ;;
     match row with
     | None => res_status_json 404 (ErrorBody "Scheme not found")
     | Some scheme => res_json (SchemeBody scheme)
     end)
    (fun e =>
       console_error e ;; res_status_json 500 (ErrorBody "Server error")).

(** [app.get('/api/my-applications/:userId', ...)] *)
Definition get_api_my_applications (userId : string) : Q unit :=
  try_catch
    (rows <- allSql (SelectMyApplications userId) ;;
     res_json (MyApplicationsBody rows))
    (fun e =>
       console_error e ;; res_status_json 500 (ErrorBody "Server error")).

(** [app.get('/api/application/:id', ...)] *)
Definition get_api_application (id : string) : Q unit :=
  try_catch
    (appRow <- getSql (SelectApplicationById id) ;;
     match appRow with
     | None => res_status_json 404 (ErrorBody "Application not found")
     | Some application =>
         docs <- allSql (SelectDocumentsOf id) ;;
         res_json (ApplicationBody application docs)
     end)
    (fun e =>
       console_error e ;; res_status_json 500 (ErrorBody "Server error")).

(** [row.c]: reading a column of [undefined] is a [TypeError]. *)
Definition c (row : option Z) : Q Z :=
  match row with
  | Some n => ret n
  | None => throw TypeError
  end.

(** [app.get('/api/admin/stats', ...)] *)
Definition get_api_admin_stats : Q unit :=
  try_catch
    (users <- getSql CountUsers ;;
     schemes <- getSql CountSchemes ;;
     pending <- getSql CountPending ;;
     total_users <- c users ;;
     total_schemes <- c schemes ;;
     pending_applications <- c pending ;;
     res_json (StatsBody total_users total_schemes pending_applications))
    (fun e =>
       console_error e ;; res_status_json 500 (ErrorBody "Server error")).

(** The routes. *)
Definition route (r : request) : Q unit :=
  match r with
  | PostLogin b => post_api_login b
  | GetScheme id => get_api_schemes_id id
  | GetMyApplications userId => get_api_my_applications userId
  | GetApplication id => get_api_application id
  | GetAdminStats => get_api_admin_stats
  end.

End Store.

Definition start : State := mkState None [] [].

(** One reading request on the tables: what the handler leaves behind. *)
Definition answer (m : Q unit) (env : Env) (ts : Tables) : State :=
  snd (m env ts start).

End Reads.

(** Whether the numeral denotes an integer, and which. *)
Definition integer_of (n : number) : option Z :=
  if 0 <=? exponent n then Some (mantissa n * 10 ^ exponent n)
  else if mantissa n mod 10 ^ (- exponent n) =? 0
       then Some (mantissa n / 10 ^ (- exponent n))
       else None.

(** A stored reference equals a text when the text reads as the key the
    reference denotes. *)
#[export] Instance reference_references : References :=
  {| reference_eq := fun v s =>
       match integer_of (Reference.leading_number s) with
       | Some k => Reference.key_eq v k
       | None => false
       end |}.

(* ================================================================== *)
(** * Vocabulary of the reading routes *)
(* ================================================================== *)

(** What the login hands out of a user row: every selected column but the
    hash. *)
Definition public_user (u : User.t) : jsval :=
  JObj [("id", Reads.js_int (User.id u)); ("name", JStr (User.name u));
        ("email", JStr (User.email u)); ("role", JStr (User.role u));
        ("age", User.age u); ("gender", User.gender u)].

Definition missing_fields : Reads.Response :=
  Reads.mkResponse 400 (Reads.ErrorBody "Missing fields").

Definition read_error : Reads.Response :=
  Reads.mkResponse 500 (Reads.ErrorBody "Server error").

Definition scheme_not_found : Reads.Response :=
  Reads.mkResponse 404 (Reads.ErrorBody "Scheme not found").

Definition application_not_found : Reads.Response :=
  Reads.mkResponse 404 (Reads.ErrorBody "Application not found").

(** The join behind the applicant's own list, before it is ordered. *)
Definition my_join `{Platform} `{References} (userId : string) (ts : Tables) :
  list MyApplication.t :=
  flat_map
    (fun a =>
       map (Reads.my_row a) (left_matches (scheme_of a) (schemes ts)))
    (filter (Reads.owned_by userId) (applications ts)).

(** The application rows without their status. *)
Definition unchanging (a : Application.t) :
  Z * jsval * jsval * jsval * string * Z :=
  (Application.id a, Application.user_id a, Application.scheme_id a,
   Application.amount_applied a, Application.data_json a,
   Application.application_date a).

(** The tables only grew: the schemes are the same, users and documents
    were appended, and applications were appended or changed in nothing but
    their status. *)
Definition grew (before after : Tables) : Prop :=
  schemes after = schemes before /\
  (exists us, users after = (users before ++ us)%list) /\
  (exists aps,
     map unchanging (applications after)
     = (map unchanging (applications before) ++ aps)%list) /\
  (exists ds, documents after = (documents before ++ ds)%list).

(** A request that the handler of [POST /api/register] turns away before it
    looks at the store. *)
Definition incomplete (b : RegisterBody.t) : bool :=
  negb (truthy_str (RegisterBody.name b)
        && truthy_str (RegisterBody.email b)
        && truthy_str (RegisterBody.password b)).

Definition registration_refused : Response :=
  mkResponse 400
    (ErrorBody
       "Missing required fields: name, email, and password are required.").

(** Ascending deadlines, and the schemes without one after all the others. *)
Definition deadline_order (a b : Scheme.t) : Prop :=
  match Scheme.application_deadline a, Scheme.application_deadline b with
  | Some x, Some y => x <= y
  | Some _, None => True
  | None, Some _ => False
  | None, None => True
  end.

(** A pending application that a decision on [id] does not reach. *)
Definition undecided `{Platform} (id : string) (a : Application.t) : bool :=
  is_pending a && negb (key_eq (JStr id) (Application.id a)).

(** The three numbers of the admin dashboard. *)
Definition stats_of `{Platform} (ts : Tables) : Reads.Body :=
  Reads.StatsBody (Z.of_nat (List.length (users ts)))
    (Z.of_nat (List.length (schemes ts)))
    (count is_pending (applications ts)).

(* ================================================================== *)
(** * The reading side of the small portal *)
(* ================================================================== *)

Module Desk.

(** No query fails; a password is accepted by the hash [Example.calm]
    makes of it. *)
Definition calm : Reads.Env :=
  Reads.mkEnv (fun _ _ => false)
    (fun password hash =>
       match hash with
       | Some (JStr h) => Some (String.eqb h ("$2a$10$" ++ password))
       | _ => None
       end).

Definition asha : LoginBody.t :=
  LoginBody.mk (Some "asha@example.org") (Some "asha").

Definition stranger : LoginBody.t :=
  LoginBody.mk (Some "nobody@example.org") (Some "asha").

Definition mistaken : LoginBody.t :=
  LoginBody.mk (Some "asha@example.org") (Some "ravi").

Definition meera : LoginBody.t :=
  LoginBody.mk (Some "meera@example.org") (Some "s3cret").

End Desk.

(* ================================================================== *)
(** * Stepping through a handler *)
(* ================================================================== *)

(** The term a stuck computation waits on: the scrutinee at the head of the
    chain of matches. *)
Ltac applied_match f :=
  lazymatch f with
  | match ?x with _ => _ end => x
  | ?g _ => applied_match g
  end.

Ltac waiting_on t :=
  lazymatch t with
  | snd ?x => waiting_on x
  | fst ?x => waiting_on x
  | match ?x with _ => _ end => waiting_on x
  | ?f _ =>
      match constr:(Set) with
      | _ => let x := applied_match f in waiting_on x
      | _ => t
      end
  | _ => t
  end.

Ltac is_waiting t :=
  lazymatch t with
  | snd _ => idtac
  | fst _ => idtac
  | match _ with _ => _ end => idtac
  | ?f _ => let x := applied_match f in idtac
  end.

(** One case split on what the computation in [E : _ = t] waits on. *)
Ltac path_step E :=
  lazymatch type of E with
  | _ = ?t =>
      is_waiting t;
      let y := waiting_on t in
      destruct y eqn:?; cbn in E
  end.

Ltac unfold_handler E :=
  unfold final, run, start, Server.route,
    Server.post_api_apply, Server.parse_data, Server.destructure,
    Server.insert_document, Server.post_api_register,
    Server.get_api_schemes, Server.get_api_admin_pending_applications,
    Server.post_api_admin_application_approve,
    Server.post_api_admin_application_reject,
    ServerCorrected.get_api_schemes,
    ServerCorrected.get_api_admin_pending_applications,
    getSql, allSql, runSql, pool_query, bcrypt_hash_10,
    try_finally, try_catch, bind, ret, throw, if_connection,
    connection_release, connection_rollback, connection_commit,
    connection_query, connection_beginTransaction, pool_getConnection,
    on_connection, res_json, res_status_json, console_error in E;
  cbn in E.

(** All the paths of the handler whose final state is named by [E]. *)
Ltac paths E := unfold_handler E; repeat path_step E.

Ltac tidy_files :=
  subst;
  repeat match goal with
         | E : Files.photo ?t = _ |- _ => destruct t; cbn in *; subst
         | E : Files.mark10 ?t = _ |- _ => destruct t; cbn in *; subst
         end.

Ltac in_cases :=
  repeat match goal with
         | A : In _ _ |- _ => cbn in A
         | A : _ \/ _ |- _ => destruct A
         | A : False |- _ => destruct A
         | A : (_, _) = (_, _) |- _ => inversion A; clear A
         | A : exists _, _ |- _ => destruct A
         end.

Ltac settle :=
  intros;
  first [ reflexivity
        | discriminate
        | match goal with
          | A : false = true |- _ => discriminate A
          | A : true = false |- _ => discriminate A
          end
        | congruence ].

(** The three shapes of an optional text parameter: a text that is empty,
    one that is not, and none. *)
Ltac field o :=
  destruct o as [o|]; [destruct (string_is_empty o) eqn:?|].

Arguments get_prop : simpl never.
Arguments truthy : simpl never.
Arguments or_null : simpl never.
Arguments string_is_empty : simpl never.
Arguments format : simpl never.
Arguments order_by : simpl never.
Arguments trim : simpl never.
Arguments split_comma : simpl never.
Arguments String.eqb : simpl never.

(** Stepping through a handler that only reads. *)
Ltac unfold_reads E :=
  unfold Reads.answer, Reads.start, Reads.route, Reads.post_api_login,
    Reads.get_api_schemes_id, Reads.get_api_my_applications,
    Reads.get_api_application, Reads.get_api_admin_stats, Reads.c,
    Reads.getSql, Reads.allSql, Reads.pool_query, Reads.bcrypt_compare_to,
    Reads.try_catch, Reads.bind, Reads.ret, Reads.throw, Reads.res_json,
    Reads.res_status_json, Reads.console_error, Reads.note in E;
  cbn in E.

(** All the paths of the reading handler whose final state is named by [E]. *)
Ltac read_paths E := unfold_reads E; repeat path_step E.

(** A failed query is the last one asked, and the one logged. *)
Ltac blamed :=
  let blame :=
    constr:(fun a : Reads.asked =>
              match a with Reads.Asked q _ => Reads.QueryError q end) in
  match goal with
  | I : _ = Reads.Asked ?q false |- _ =>
      split; [reflexivity|];
      split;
      [ change (Reads.QueryError q) with (blame (Reads.Asked q false));
        rewrite <- I; reflexivity
      | eexists; split;
        [ rewrite <- I;
          first [ exact eq_refl
                | exact (eq_refl : ([_; _] = [_] ++ [_])%list)
                | exact (eq_refl : ([_; _; _] = [_; _] ++ [_])%list)
                | exact (eq_refl : ([_] = [] ++ [_])%list) ]
        | intros ? ? J; cbn in J;
          repeat match goal with
                 | A : _ \/ _ |- _ => destruct A
                 | A : False |- _ => destruct A
                 end; discriminate ] ]
  end.

(** A table that is the old one with rows appended, or with nothing but
    statuses changed. *)
Ltac appended :=
  first [ eexists; reflexivity
        | exists []; rewrite app_nil_r; reflexivity
        | rewrite map_app; eexists; reflexivity
        | rewrite <- !app_assoc; eexists; reflexivity
        | exists []; rewrite app_nil_r;
          match goal with
          | |- map unchanging (map _ ?aps) = _ =>
              rewrite map_map; apply map_ext; intros a;
              match goal with
              | |- context [if ?c then _ else _] => destruct c; reflexivity
              end
          end ].

Arguments JSON.number_to_string : simpl never.
Arguments Reads.select : simpl never.
Arguments Reads.delete_prop : simpl never.


(* ================================================================== *)
(** * The apply operation *)
(* ================================================================== *)

Section Apply.
Context `{Platform}.

(** What a successful apply went through, and the tables it leaves. *)
Lemma apply_success (req : ApplyRequest.t) (env : Env) (w : World)
  (appId : Z) :
  succeeded (final (Server.post_api_apply req) env w) appId ->
  exists text data user scheme,
    ApplyRequest.data req = Some text /\
    JSON_parse text = Some data /\
    get_prop "user_id" data = Some user /\
    get_prop "scheme_id" data = Some scheme /\
    truthy user = true /\ truthy scheme = true /\
    appId = next_application_id (sequences w) /\
    committed (world (final (Server.post_api_apply req) env w)) =
      mkTables (users (committed w)) (schemes (committed w))
        (applications (committed w)
         ++ [new_application (now env) appId user scheme
               (or_null (get_prop "amount_applied" data))
               (JSON_stringify data)])
        (documents (committed w)
         ++ document_rows appId (next_document_id (sequences w))
              (uploads req)).
Proof.
  destruct req as [data files].
  remember (final _ _ _) as h eqn:E; paths E;
    subst h; tidy_files; unfold succeeded, uploads; cbn.
  all: intros R; try discriminate R.
  all: try match goal with
           | E : get_prop _ _ = Some _ |- _ => discriminate E
           end.
  all: inversion R; subst; clear R.
  all: match goal with
       | E : negb (truthy ?u) || negb (truthy ?s) = false |- _ =>
           apply orb_false_elim in E; destruct E as [Eu Es];
           apply negb_false_iff in Eu; apply negb_false_iff in Es
       end.
  all: do 4 eexists; repeat split; try eassumption; try reflexivity.
  all: destruct (committed w); cbn; rewrite <- ?app_assoc, ?app_nil_r;
    reflexivity.
Qed.

(** A request that does not get past the checks leaves no trace: nothing
    was asked of the pool or the store, and the world is as before. *)
Lemma apply_rejected_before_store (req : ApplyRequest.t) (env : Env)
  (w : World) :
  let h := final (Server.post_api_apply req) env w in
  (payload req = None ->
   response h = Some server_error /\ trace h = [] /\ world h = w) /\
  (forall data, payload req = Some data -> lacks_reference data = true ->
   trace h = [] /\ world h = w /\
   (data <> JNull -> response h = Some missing_reference) /\
   (data = JNull -> response h = Some server_error)).
Proof.
  destruct req as [data files].
  intros h; remember (final _ _ _) as h0 eqn:E in h.
  unfold payload, lacks_reference; unfold_handler E.
  destruct data as [text|]; cbn in *;
    [destruct (string_is_empty text) eqn:Ee; cbn in *;
     [|destruct (JSON_parse text) as [v|] eqn:Ep; cbn in *]|].
  all: split; [intros P; try discriminate P|intros d P L; inversion P; subst d].
  all: try (subst h h0; auto; fail).
  all: try (subst h h0; cbn; repeat split; auto; intros; congruence).
  destruct v; cbn in *;
    try (subst h h0; cbn; repeat split; auto; intros; congruence).
  unfold get_prop in L, E.
  destruct (assoc "user_id" props) as [u|]; cbn in *;
    [destruct (assoc "scheme_id" props) as [sc|]; cbn in *|].
  all: try rewrite L in E; cbn in E.
  all: subst h h0; cbn; repeat split; auto; intros; congruence.
Qed.

(** C1: the Application row and the Document rows of an apply persist
    together.  When the handler reports success, the committed tables hold
    the new application and one document per uploaded file; when any
    operation of the attempt failed, the handler does not report success and
    the committed applications and documents are those from before; and one
    of the two always holds. *)
Theorem apply_atomic (req : ApplyRequest.t) (env : Env) (w : World) :
  let h := final (Server.post_api_apply req) env w in
  let before := committed w in
  let after := committed (world h) in
  (forall appId, succeeded h appId ->
     (exists a, Application.id a = appId /\
                applications after = (applications before ++ [a])%list) /\
     documents after =
       (documents before
        ++ document_rows appId (next_document_id (sequences w))
             (uploads req))%list)
  /\ (forall o, In (o, false) (trace h) ->
        (forall appId, ~ succeeded h appId) /\
        applications after = applications before /\
        documents after = documents before)
  /\ ((exists appId, succeeded h appId) \/
      (applications after = applications before /\
       documents after = documents before)).
Proof.
  destruct req as [data files];
    intros h; remember (final _ _ _) as h0 eqn:E in h; paths E;
    subst h h0; tidy_files; unfold succeeded, uploads; cbn.
  all: repeat split; intros; subst; cbn in *.
  all: try tauto; try discriminate; try congruence.
  all: try (right; split; reflexivity).
  all: try (left; eexists; reflexivity).
  all: try match goal with
           | R : Some _ = Some _ |- _ => inversion R; subst; clear R
           end.
  all: try (eexists; split; [|reflexivity]; reflexivity).
  all: try (rewrite <- app_assoc; reflexivity).
  all: try (rewrite app_nil_r; reflexivity).
  all: try (repeat match goal with
                   | D : _ \/ _ |- _ => destruct D
                   end; try tauto; congruence).
Qed.

(** C9, as the code has it: an apply that acquired a connection gives it
    back on every way out, and after a failure attempts the rollback before
    the release.  Whether the handler answers with success, answers with an
    error, or ends in an exception nobody catches (which only a failed
    rollback causes), its operations end with the one release of the
    connection and the pool has as many connections out as before.  No
    rollback is attempted unless an operation failed.  When one failed,
    nothing of the attempt is committed and the rollback is the last thing
    before the release: a rollback that the store carries out leaves the
    connection with no open transaction and the handler answers with the
    server error; a rollback that fails sends its exception out of the
    handler, which sends no answer of its own, and the connection is
    released with the transaction it had begun still open. *)
Theorem apply_releases_connection (req : ApplyRequest.t) (env : Env)
  (w : World) :
  let r := fst (run (Server.post_api_apply req) env w) in
  let h := snd (run (Server.post_api_apply req) env w) in
  (In (GetConnection, true) (trace h) ->
   exists steps,
     trace h = ((GetConnection, true) :: steps ++ [(Release, true)])%list /\
     ~ In Release (map fst steps) /\
     leased (world h) = leased w /\
     ((forall o, ~ In (o, false) steps) -> ~ In Rollback (map fst steps)) /\
     ((exists o, In (o, false) steps) ->
      committed (world h) = committed w /\
      exists earlier,
        steps = (earlier ++ [(Rollback, negb (fails env Rollback))])%list /\
        ~ In Rollback (map fst earlier) /\
        (fails env Rollback = false ->
         connection h = Some (mkConnection None) /\
         r = Return tt /\ response h = Some server_error) /\
        (fails env Rollback = true ->
         r = Throw (OperationError Rollback) /\ response h = None /\
         (In (BeginTransaction, true) earlier ->
          exists ts, connection h = Some (mkConnection (Some ts))))))
  /\ (~ In (GetConnection, true) (trace h) ->
      ~ In Release (map fst (trace h)) /\ leased (world h) = leased w)
  /\ (forall e, r = Throw e ->
      e = OperationError Rollback /\ In (GetConnection, true) (trace h)).
Proof.
  destruct req as [data files];
    intros r h; remember (run _ _ _) as p eqn:E in r, h; paths E;
    subst r h p; tidy_files; cbn.
  all: split; [intros Hacq | split; [intros Hnot | intros e Ht]].
  all: try (inversion Ht; subst e; split; [reflexivity|left; reflexivity]).
  all: try (exfalso; in_cases; discriminate).
  all: try (split; [intros Hr; in_cases; discriminate | reflexivity]).
  all: try (exfalso; apply Hnot; auto; fail).
  all: lazymatch goal with
       | |- exists steps, (_ :: ?l) = _ /\ _ => exists (removelast l); cbn
       end.
  all: split; [reflexivity|].
  all: split; [intros Hr; in_cases; discriminate|].
  all: split; [reflexivity|].
  all: split;
    [intros Hnone;
     first [ intros Hr; in_cases; discriminate
           | exfalso;
             match goal with
             | |- False =>
                 first [ eapply Hnone; left; reflexivity
                       | eapply Hnone; right; left; reflexivity
                       | eapply Hnone; right; right; left; reflexivity
                       | eapply Hnone; right; right; right; left; reflexivity
                       | eapply Hnone; right; right; right; right; left;
                         reflexivity
                       | eapply Hnone; right; right; right; right; right; left;
                         reflexivity ]
             end ]
    |].
  all: intros Hf.
  all: try (exfalso; in_cases; discriminate).
  all: split; [reflexivity|].
  all: lazymatch goal with
       | |- exists earlier, ?l = _ /\ _ => exists (removelast l); cbn
       end.
  all: split; [reflexivity|].
  all: split; [intros Hr; in_cases; discriminate|].
  all: split; intros Hb; try discriminate Hb.
  all: repeat split; try reflexivity.
  all: intros Hbegin; try (exfalso; in_cases; discriminate).
  all: eexists; reflexivity.
Qed.

(** C10: a successful apply creates at most two Document rows, at most one
    of type [photo] and at most one of type [mark10]; each belongs to the
    new application, carries the field name of its upload as its type and
    the file name the upload store assigned. *)
Theorem apply_documents (req : ApplyRequest.t) (env : Env) (w : World)
  (appId : Z) :
  (forall fs, ApplyRequest.files req = Some fs -> applyUpload fs) ->
  let h := final (Server.post_api_apply req) env w in
  succeeded h appId ->
  exists docs,
    documents (committed (world h)) = (documents (committed w) ++ docs)%list /\
    (List.length docs <= 2)%nat /\
    (List.length (filter (has_type "photo") docs) <= 1)%nat /\
    (List.length (filter (has_type "mark10") docs) <= 1)%nat /\
    Forall
      (fun d =>
         Document.application_id d = appId /\
         (Document.doc_type d = "photo" \/ Document.doc_type d = "mark10") /\
         exists f, In f (uploads req) /\
                   Document.doc_type d = File.fieldname f /\
                   Document.filename d = File.filename f)
      docs.
Proof.
  intros Hup h Hok. subst h.
  destruct (apply_success _ _ _ _ Hok)
    as (text & data & user & scheme & _ & _ & _ & _ & _ & _ & _ & Hc).
  rewrite Hc. cbn.
  exists (document_rows appId (next_document_id (sequences w)) (uploads req)).
  split; [reflexivity|].
  destruct req as [d [[[f1|] [f2|]]|]]; unfold uploads, has_type; cbn.
  all: try (destruct (Hup _ eq_refl) as [Hp Hm]; cbn in Hp, Hm).
  all: try (pose proof (Hp _ eq_refl) as Ep; rewrite Ep).
  all: try (pose proof (Hm _ eq_refl) as Em; rewrite Em).
  all: cbn; repeat split; try lia.
  all: repeat (apply Forall_cons; [split; [reflexivity|split]|]);
    try apply Forall_nil.
  all: try (left; reflexivity); try (right; reflexivity).
  all: first [ exists f1; cbn; rewrite Ep; tauto
             | exists f2; cbn; rewrite Em; tauto ].
Qed.

(** The statement a successful apply sent for the application row. *)
Lemma apply_success_statement (req : ApplyRequest.t) (env : Env) (w : World)
  (appId : Z) :
  succeeded (final (Server.post_api_apply req) env w) appId ->
  exists text data user scheme,
    ApplyRequest.data req = Some text /\
    JSON_parse text = Some data /\
    get_prop "user_id" data = Some user /\
    get_prop "scheme_id" data = Some scheme /\
    In (ConnectionQuery
          (InsertApplication user scheme
             (or_null (get_prop "amount_applied" data))
             (JSON_stringify data)), true)
       (trace (final (Server.post_api_apply req) env w)).
Proof.
  destruct req as [data files].
  remember (final _ _ _) as h eqn:E; paths E;
    subst h; tidy_files; unfold succeeded; cbn.
  all: intros R; try discriminate R.
  all: try match goal with
           | E : get_prop _ _ = Some _ |- _ => discriminate E
           end.
  all: do 4 eexists; repeat split; try eassumption; try reflexivity.
  all: right; right; left; reflexivity.
Qed.

(** C6, as the code has it: the amount column of the new row holds the
    payload's numeric [amount_applied] when that number is not zero, and
    [NULL] when the field is absent, [null] or the number zero.  It is the
    value the handler bound in its insert, and the text column holds the
    serialised payload. *)
Theorem apply_amount (req : ApplyRequest.t) (env : Env) (w : World)
  (appId : Z) :
  let h := final (Server.post_api_apply req) env w in
  succeeded h appId ->
  exists text data user scheme a,
    ApplyRequest.data req = Some text /\ JSON_parse text = Some data /\
    get_prop "user_id" data = Some user /\
    get_prop "scheme_id" data = Some scheme /\
    applications (committed (world h))
    = (applications (committed w) ++ [a])%list /\
    Application.id a = appId /\
    Application.data_json a = JSON_stringify data /\
    In (ConnectionQuery
          (InsertApplication user scheme (Application.amount_applied a)
             (JSON_stringify data)), true)
       (trace h) /\
    (forall n, get_prop "amount_applied" data = Some (JNum n) ->
       Application.amount_applied a
       = if number_is_zero n then JNull else JNum n) /\
    (get_prop "amount_applied" data = None \/
     get_prop "amount_applied" data = Some JNull ->
     Application.amount_applied a = JNull).
Proof.
  intros h Hok. subst h.
  destruct (apply_success _ _ _ _ Hok)
    as (text & data & user & scheme & Hd & Hp & Hu & Hs & _ & _ & _ & Hc).
  destruct (apply_success_statement _ _ _ _ Hok)
    as (text' & data' & user' & scheme' & Hd' & Hp' & Hu' & Hs' & Ht).
  rewrite Hd in Hd'. injection Hd' as <-.
  rewrite Hp in Hp'. injection Hp' as <-.
  rewrite Hu in Hu'. injection Hu' as <-.
  rewrite Hs in Hs'. injection Hs' as <-.
  rewrite Hc. cbn.
  exists text, data, user, scheme. eexists.
  repeat split; try eassumption; try reflexivity; cbn; unfold or_null.
  - intros n Hn. rewrite Hn. unfold truthy.
    destruct (number_is_zero n); reflexivity.
  - intros [Hn|Hn]; rewrite Hn; reflexivity.
Qed.

End Apply.

(** The apply handler on the example portal. *)

Lemma apply_atomic_witness :
  let h :=
    final (Server.post_api_apply Example.application) Example.documents_fail
      Example.portal in
  In (ConnectionQuery
        (InsertDocument 4 "photo" "0f3a9c51d2e84b7fa6c0b1d2e3f40516"), false)
     (trace h) /\
  applications (committed (world h)) = applications Example.tables /\
  documents (committed (world h)) = documents Example.tables.
Proof.
  cbv zeta. split; [vm_compute; tauto|].
  apply (apply_atomic Example.application Example.documents_fail
           Example.portal)
    with (o := ConnectionQuery
                 (InsertDocument 4 "photo" "0f3a9c51d2e84b7fa6c0b1d2e3f40516")).
  vm_compute; tauto.
Defined.

Lemma apply_releases_connection_witness :
  let p := run (Server.post_api_apply Example.application)
             Example.documents_fail Example.portal in
  let h := snd p in
  In (GetConnection, true) (trace h) /\
  fails Example.documents_fail Rollback = false /\
  exists steps,
    trace h = ((GetConnection, true) :: steps ++ [(Release, true)])%list /\
    ~ In Release (map fst steps) /\
    leased (world h) = 0%nat /\
    committed (world h) = Example.tables /\
    connection h = Some (mkConnection None) /\
    response h = Some server_error.
Proof.
  cbv zeta.
  assert (A : In (GetConnection, true)
                (trace (snd (run (Server.post_api_apply Example.application)
                               Example.documents_fail Example.portal))))
    by (vm_compute; tauto).
  split; [exact A|]. split; [reflexivity|].
  destruct (proj1 (apply_releases_connection Example.application
                     Example.documents_fail Example.portal) A)
    as (steps & E & N & L & _ & F).
  exists steps. split; [exact E|]. split; [exact N|]. split; [exact L|].
  assert (X : exists o, In (o, false) steps).
  { exists (ConnectionQuery
              (InsertDocument 4 "photo" "0f3a9c51d2e84b7fa6c0b1d2e3f40516")).
    vm_compute in E. injection E as E.
    match type of E with
    | ?a :: ?b :: ?c :: ?d :: ?e :: nil = _ =>
        change ((a :: b :: c :: d :: nil) ++ [e] = steps ++ [(Release, true)])%list
          in E
    end.
    apply app_inj_tail in E. destruct E as [<- _].
    right; right; left. reflexivity. }
  destruct (F X) as (C & earlier & _ & _ & Good & _).
  destruct (Good eq_refl) as (Cn & _ & R).
  repeat split; assumption.
Defined.

(** C9 as the spec words it: on the example portal, with the document
    insert and the rollback both failing, the connection is released while
    its transaction still holds the application the attempt wrote.  The
    writes were not rolled back before the release. *)
Lemma apply_failed_rollback_keeps_writes :
  let p := run (Server.post_api_apply Example.application)
             Example.rollback_fails Example.portal in
  let h := snd p in
  trace h =
    [(GetConnection, true); (BeginTransaction, true);
     (ConnectionQuery
        (InsertApplication (JNum (Num10 1 0)) (JNum (Num10 2 0))
           (JNum (Num10 5000 0)) (JSON.stringify (Example.form 5000))), true);
     (ConnectionQuery
        (InsertDocument 4 "photo" "0f3a9c51d2e84b7fa6c0b1d2e3f40516"), false);
     (Rollback, false); (Release, true)] /\
  fst p = Throw (OperationError Rollback) /\
  committed (world h) = Example.tables /\
  (exists ts a,
     connection h = Some (mkConnection (Some ts)) /\
     applications ts = (applications Example.tables ++ [a])%list /\
     Application.id a = 4) /\
  connection h <> Some (mkConnection None).
Proof.
  cbv zeta. split; [vm_compute; reflexivity|].
  split; [vm_compute; reflexivity|].
  split; [vm_compute; reflexivity|].
  split; [|vm_compute; discriminate].
  eexists. eexists. split; [vm_compute; reflexivity|].
  split; reflexivity.
Qed.

Lemma apply_documents_witness :
  let h :=
    final (Server.post_api_apply Example.application) Example.calm
      Example.portal in
  succeeded h 4 /\
  exists docs,
    documents (committed (world h)) = (documents Example.tables ++ docs)%list /\
    (List.length docs <= 2)%nat.
Proof.
  cbv zeta.
  assert (S : succeeded
                (final (Server.post_api_apply Example.application)
                   Example.calm Example.portal) 4)
    by (vm_compute; reflexivity).
  split; [exact S|].
  assert (U : forall fs,
             ApplyRequest.files Example.application = Some fs ->
             applyUpload fs).
  { intros fs E. inversion E; subst fs. split; intros f F; inversion F;
      reflexivity. }
  destruct (apply_documents Example.application Example.calm Example.portal 4
              U S) as (docs & D & L & _).
  exists docs. split; assumption.
Defined.

Lemma apply_amount_witness :
  let h :=
    final (Server.post_api_apply Example.application) Example.calm
      Example.portal in
  succeeded h 4 /\
  exists a,
    applications (committed (world h))
    = (applications Example.tables ++ [a])%list /\
    Application.amount_applied a = JNum (Num10 5000 0).
Proof.
  cbv zeta.
  assert (S : succeeded
                (final (Server.post_api_apply Example.application)
                   Example.calm Example.portal) 4)
    by (vm_compute; reflexivity).
  split; [exact S|].
  destruct (apply_amount Example.application Example.calm Example.portal 4 S)
    as (text & data & user & scheme & a & T & P & _ & _ & A & _ & _ & _ & M
        & _).
  exists a. split; [exact A|].
  inversion T; subst text.
  vm_compute in P. inversion P; subst data.
  apply (M (Num10 5000 0)). reflexivity.
Defined.

(** C6 as the spec words it: a payload whose [amount_applied] is the number
    zero has the field, and the field is numeric, yet the stored amount is
    [NULL] and not the number. *)
Lemma apply_zero_amount_stored_null :
  let h :=
    final (Server.post_api_apply Example.zero_amount) Example.calm
      Example.portal in
  succeeded h 4 /\
  payload Example.zero_amount = Some (Example.form 0) /\
  get_prop "amount_applied" (Example.form 0) = Some (JNum (Num10 0 0)) /\
  spec_amount_requested (Example.form 0) = JNum (Num10 0 0) /\
  exists a,
    applications (committed (world h))
    = (applications Example.tables ++ [a])%list /\
    Application.amount_applied a = JNull /\
    Application.amount_applied a <> spec_amount_requested (Example.form 0).
Proof.
  cbv zeta. repeat split; try (vm_compute; reflexivity).
  eexists. split; [vm_compute; reflexivity|].
  split; [reflexivity|vm_compute; discriminate].
Qed.

(** C5 at the payload [null]: the payload is valid JSON and carries no user
    reference, and the handler answers with the generic server error, not
    the 400 the other reference-less payloads get.  Nothing is asked of the
    store. *)
Theorem apply_null_payload_server_error (env : Env) (w : World) :
  let h := final (Server.post_api_apply Example.null_payload) env w in
  payload Example.null_payload = Some JNull /\
  lacks_reference JNull = true /\
  response h = Some server_error /\
  response h <> Some missing_reference /\
  trace h = [] /\ world h = w.
Proof.
  cbv zeta. repeat split; try reflexivity. discriminate.
Qed.

(** The payload [5] carries no reference either, and gets the 400. *)
Lemma apply_number_payload_missing_reference (env : Env) (w : World) :
  let h :=
    final (Server.post_api_apply (ApplyRequest.mk (Some "5") None)) env w in
  response h = Some missing_reference /\ trace h = [] /\ world h = w.
Proof. cbv zeta. repeat split. Qed.


(* ================================================================== *)
(** * Approve and reject *)
(* ================================================================== *)

Section Status.
Context `{Platform}.

(** An update that matches no row changes none. *)
Lemma with_status_no_match (st : Status) (id : string)
  (apps : list Application.t) :
  (forall a, In a apps -> key_eq (JStr id) (Application.id a) = false) ->
  with_status st id apps = apps.
Proof.
  unfold with_status. induction apps as [|a rest IH]; intros N; cbn.
  - reflexivity.
  - rewrite (N a (or_introl eq_refl)). f_equal. apply IH.
    intros b B. apply N. right. exact B.
Qed.

(** Either handler: one update through the pool, then the acknowledgment. *)
Lemma status_update (handler : string -> M unit) (st : Status) (id : string)
  (env : Env) (w : World) :
  handler = Server.post_api_admin_application_approve /\ st = Approved \/
  handler = Server.post_api_admin_application_reject /\ st = Rejected ->
  fails env (PoolQuery (UpdateStatus st id)) = false ->
  let h := final (handler id) env w in
  response h = Some acknowledged /\
  trace h = [(PoolQuery (UpdateStatus st id), true)] /\
  committed (world h) =
    mkTables (users (committed w)) (schemes (committed w))
      (with_status st id (applications (committed w)))
      (documents (committed w)).
Proof.
  intros [[-> ->]|[-> ->]] F h; remember (final _ _ _) as h0 eqn:E in h;
    unfold_handler E; rewrite F in E; cbn in E; subst h h0; cbn;
    repeat split; reflexivity.
Qed.

(** C4: approve and reject issue one unconditional status update and
    acknowledge it.  For every identity and every world, when the store
    carries out the statement the handler has sent exactly that one update,
    the applications are those with the status set wherever the identity
    matches, and the answer is the success acknowledgment; this is so too
    when no application matches, where the table is left as it was. *)
Theorem status_update_unconditional (id : string) (env : Env) (w : World) :
  (fails env (PoolQuery (UpdateStatus Approved id)) = false ->
   let h := final (Server.post_api_admin_application_approve id) env w in
   response h = Some acknowledged /\
   trace h = [(PoolQuery (UpdateStatus Approved id), true)] /\
   applications (committed (world h)) =
     with_status Approved id (applications (committed w)) /\
   ((forall a, In a (applications (committed w)) ->
               key_eq (JStr id) (Application.id a) = false) ->
    applications (committed (world h)) = applications (committed w)))
  /\
  (fails env (PoolQuery (UpdateStatus Rejected id)) = false ->
   let h := final (Server.post_api_admin_application_reject id) env w in
   response h = Some acknowledged /\
   trace h = [(PoolQuery (UpdateStatus Rejected id), true)] /\
   applications (committed (world h)) =
     with_status Rejected id (applications (committed w)) /\
   ((forall a, In a (applications (committed w)) ->
               key_eq (JStr id) (Application.id a) = false) ->
    applications (committed (world h)) = applications (committed w))).
Proof.
  split; intros F h.
  - destruct (status_update _ Approved id env w
                (or_introl (conj eq_refl eq_refl)) F) as (R & T & C).
    subst h. rewrite R, T, C. cbn. repeat split.
    apply with_status_no_match.
  - destruct (status_update _ Rejected id env w
                (or_intror (conj eq_refl eq_refl)) F) as (R & T & C).
    subst h. rewrite R, T, C. cbn. repeat split.
    apply with_status_no_match.
Qed.
End Status.


Lemma status_update_unconditional_witness :
  let h :=
    final (Server.post_api_admin_application_approve "9") Example.calm
      Example.portal in
  fails Example.calm (PoolQuery (UpdateStatus Approved "9")) = false /\
  response h = Some acknowledged /\
  applications (committed (world h)) = applications Example.tables.
Proof.
  cbv zeta. split; [reflexivity|].
  destruct (proj1 (status_update_unconditional "9" Example.calm Example.portal)
              eq_refl) as (R & _ & _ & N).
  split; [exact R|]. apply N.
  intros a A. cbn in A.
  destruct A as [<-|[<-|[<-|[]]]]; vm_compute; reflexivity.
Defined.

(* ================================================================== *)
(** * The scheme listing *)
(* ================================================================== *)

Section Schemes.
Context `{Platform}.

Lemma split_comma_length (s : string) : (1 <= List.length (split_comma s))%nat.
Proof.
  induction s as [|c rest IH]; [cbv; lia|].
  change (split_comma (String c rest))
    with (if Ascii.eqb c ","%char then EmptyString :: split_comma rest
          else match split_comma rest with
               | piece :: more => String c piece :: more
               | [] => [String c EmptyString]
               end).
  destruct (Ascii.eqb c ","); cbn [List.length]; [lia|].
  destruct (split_comma rest); cbn [List.length] in *; lia.
Qed.

Lemma take_params_none (n : nat) : (1 <= n)%nat -> take_params n [] = None.
Proof. destruct n; [lia|reflexivity]. Qed.

Lemma format_category_unbound (n : nat) (rest : list clause) :
  (1 <= n)%nat -> format (CategoryIn n :: rest) [] = None.
Proof. destruct n; [lia|reflexivity]. Qed.

(** A listing that binds a value has a placeholder, and the first server
    binds no value to it. *)
Lemma format_unbound (query : SchemesQuery.t) :
  binds_a_value query = true -> format (Server.clauses query) [] = None.
Proof.
  destruct query as [q y t c i]. unfold binds_a_value, Server.clauses.
  cbn [SchemesQuery.q SchemesQuery.academic_year SchemesQuery.type
       SchemesQuery.category].
  destruct (truthy_str q), (truthy_str y), (truthy_str t),
    (truthy_str c) eqn:Ec, (Server.international_is_1 _);
    cbn [orb]; intros B; try discriminate B;
    cbn [Server.push app]; try reflexivity.
  all: apply format_category_unbound; unfold Server.cats;
    destruct c as [c|]; [|discriminate Ec];
    rewrite length_map; apply split_comma_length.
Qed.

(** Every such listing ends in the server error, the statement refused. *)
Lemma schemes_unbound (query : SchemesQuery.t) (env : Env) (w : World) :
  binds_a_value query = true ->
  let h := final (Server.get_api_schemes query) env w in
  response h = Some server_error /\
  trace h = [(PoolQuery (SelectSchemes (Server.clauses query) []), false)] /\
  world h = w.
Proof.
  intros B h; remember (final _ _ _) as h0 eqn:E in h.
  unfold_handler E. rewrite (format_unbound _ B) in E.
  destruct (fails env _); cbn in E; subst h h0; cbn; repeat split; reflexivity.
Qed.

(** C2 at [type=Merit&academic_year=2024-25]: the statement is sent with
    its two placeholders unbound, the store refuses it, and the answer is
    the server error instead of the schemes matching both filters. *)
Theorem schemes_type_and_year_server_error (env : Env) (w : World) :
  let h := final (Server.get_api_schemes Example.type_and_year) env w in
  response h = Some server_error /\
  (forall rows, response h <> Some (mkResponse 200 (SchemesBody rows))) /\
  trace h =
    [(PoolQuery (SelectSchemes [AcademicYearEq; TypeEq] []), false)].
Proof.
  destruct (schemes_unbound Example.type_and_year env w eq_refl)
    as (R & T & _).
  cbv zeta. rewrite R, T. repeat split. intros rows. discriminate.
Qed.

(** C3 at [category=General,OBC]: the [IN] list goes out with its two
    placeholders unbound, the store refuses it, and the answer is the server
    error instead of the schemes of either category. *)
Theorem schemes_categories_server_error (env : Env) (w : World) :
  let h := final (Server.get_api_schemes Example.two_categories) env w in
  response h = Some server_error /\
  (forall rows, response h <> Some (mkResponse 200 (SchemesBody rows))) /\
  trace h = [(PoolQuery (SelectSchemes [CategoryIn 2] []), false)].
Proof.
  destruct (schemes_unbound Example.two_categories env w eq_refl)
    as (R & T & _).
  cbv zeta. rewrite R, T. repeat split. intros rows. discriminate.
Qed.

Lemma take_params_all (l : list string) :
  take_params (List.length l) l = Some (l, []).
Proof.
  induction l as [|p rest IH]; cbn; [reflexivity|]. rewrite IH. reflexivity.
Qed.

Lemma format_category_bound (l : list string) (rest : list clause) :
  format (CategoryIn (List.length l) :: rest) l =
  match format rest [] with
  | Some conds => Some (CategoryC l :: conds)
  | None => None
  end.
Proof. unfold format; fold format. rewrite take_params_all. reflexivity. Qed.

(** In the corrected server every placeholder finds its value, and the
    bound fragments test what the request asks for. *)
Lemma corrected_where (query : SchemesQuery.t) :
  exists conds,
    format (Server.clauses query) (ServerCorrected.params query) = Some conds /\
    forall s, where_holds conds s = matches query s.
Proof.
  destruct query as [q y t c i].
  unfold Server.clauses, ServerCorrected.params, matches, matches_q,
    matches_year, matches_type, matches_category, matches_international,
    Server.cats, truthy_str, where_holds.
  cbn [SchemesQuery.q SchemesQuery.academic_year SchemesQuery.type
       SchemesQuery.category].
  destruct (Server.international_is_1 _); field q; field y; field t; field c;
    cbn [negb Server.push app Server.or_empty orb andb].
  all: try (eexists; split; [reflexivity|];
            intros s; cbn [forallb holds]; 
            repeat rewrite ?andb_true_r, ?andb_assoc; reflexivity).
  all: cbv beta iota zeta delta [format]; rewrite take_params_all;
    cbv beta iota zeta.
  all: eexists; split; [reflexivity|];
    intros s; cbn [forallb holds];
    repeat rewrite ?andb_true_r, ?andb_assoc; reflexivity.
Qed.

(** The corrected listing answers with the schemes that pass every supplied
    filter, in deadline order. *)
Lemma corrected_schemes_conjunctive (query : SchemesQuery.t) (env : Env)
  (w : World) :
  fails env
    (PoolQuery
       (SelectSchemes (Server.clauses query) (ServerCorrected.params query)))
  = false ->
  response (final (ServerCorrected.get_api_schemes query) env w) =
  Some (mkResponse 200
          (SchemesBody
             (map SchemeRow
                (order_by deadline_le
                   (filter (matches query) (schemes (committed w))))))).
Proof.
  intros F. remember (final _ _ _) as h eqn:E. unfold_handler E.
  rewrite F in E. destruct (corrected_where query) as (conds & Fm & W).
  rewrite Fm in E. cbn in E. subst h. cbn.
  rewrite (filter_ext _ _ W). reflexivity.
Qed.

(** Without a value-binding filter the first server answers too: all the
    schemes, or the eligible ones for [international=1]. *)
Lemma schemes_without_values (query : SchemesQuery.t) (env : Env) (w : World) :
  binds_a_value query = false ->
  fails env (PoolQuery (SelectSchemes (Server.clauses query) [])) = false ->
  response (final (Server.get_api_schemes query) env w) =
  Some (mkResponse 200
          (SchemesBody
             (map SchemeRow
                (order_by deadline_le
                   (filter (matches_international query)
                      (schemes (committed w))))))).
Proof.
  intros B F. remember (final _ _ _) as h eqn:E. unfold_handler E.
  rewrite F in E. revert E F. destruct query as [q y t c i].
  unfold binds_a_value, Server.clauses, matches_international in *.
  cbn [SchemesQuery.q SchemesQuery.academic_year SchemesQuery.type
       SchemesQuery.category] in *.
  destruct (truthy_str q), (truthy_str y), (truthy_str t), (truthy_str c);
    try discriminate B.
  destruct (Server.international_is_1 _); cbn [Server.push app];
    cbv beta iota zeta delta [format]; cbn; intros E _; subst h; cbn.
  - erewrite filter_ext; [reflexivity|].
    intros s. unfold where_holds. cbn. apply andb_true_r.
  - erewrite filter_ext; [reflexivity|]. intros s. reflexivity.
Qed.

End Schemes.

(** On the example portal the year and the type single out the merit scheme
    and the two categories the merit and the means schemes; the corrected
    server lists them. *)
Lemma corrected_type_and_year :
  filter (matches Example.type_and_year) (schemes Example.tables)
  = [Example.merit] /\
  response
    (final (ServerCorrected.get_api_schemes Example.type_and_year)
       Example.calm Example.portal)
  = Some (mkResponse 200 (SchemesBody [SchemeRow Example.merit])).
Proof. split; vm_compute; reflexivity. Qed.

Lemma corrected_two_categories :
  filter (matches Example.two_categories) (schemes Example.tables)
  = [Example.merit; Example.means] /\
  response
    (final (ServerCorrected.get_api_schemes Example.two_categories)
       Example.calm Example.portal)
  = Some (mkResponse 200
            (SchemesBody [SchemeRow Example.merit; SchemeRow Example.means])).
Proof. split; vm_compute; reflexivity. Qed.

(* ================================================================== *)
(** * Ordering *)
(* ================================================================== *)

Section Ordering.
Variable A : Type.
Variable le : A -> A -> bool.
Hypothesis le_total : forall a b, le a b = false -> le b a = true.
Hypothesis le_trans :
  forall a b c, le a b = true -> le b c = true -> le a c = true.

Let R (a b : A) : Prop := le a b = true.

Lemma insert_by_perm (x : A) (l : list A) :
  Permutation (insert_by le x l) (x :: l).
Proof.
  induction l as [|y rest IH]; cbn; [reflexivity|].
  destruct (le x y); [reflexivity|].
  rewrite IH. apply perm_swap.
Qed.

Lemma order_by_perm (l : list A) : Permutation (order_by le l) l.
Proof.
  unfold order_by. induction l as [|x rest IH]; cbn; [reflexivity|].
  rewrite insert_by_perm. constructor. exact IH.
Qed.

Lemma insert_by_sorted (x : A) (l : list A) :
  StronglySorted R l -> StronglySorted R (insert_by le x l).
Proof.
  induction 1 as [|y rest S IH F]; cbn.
  - constructor; constructor.
  - destruct (le x y) eqn:E.
    + constructor; [constructor; assumption|].
      constructor; [exact E|].
      eapply Forall_impl; [|exact F]. intros z Z. exact (le_trans _ _ _ E Z).
    + constructor; [exact IH|].
      apply Forall_forall. intros z Z.
      apply (Permutation_in _ (insert_by_perm x rest)) in Z.
      destruct Z as [<-|Z]; [exact (le_total _ _ E)|].
      rewrite Forall_forall in F. exact (F z Z).
Qed.

Lemma order_by_sorted (l : list A) : StronglySorted R (order_by le l).
Proof.
  unfold order_by. induction l as [|x rest IH]; cbn.
  - constructor.
  - apply insert_by_sorted. exact IH.
Qed.

Lemma filter_sorted (p : A -> bool) (l : list A) :
  StronglySorted R l -> StronglySorted R (filter p l).
Proof.
  induction 1 as [|y rest S IH F]; cbn; [constructor|].
  destruct (p y); [|exact IH].
  constructor; [exact IH|].
  apply Forall_forall. intros z Z. apply filter_In in Z.
  rewrite Forall_forall in F. apply F. tauto.
Qed.

Lemma filter_perm (p : A -> bool) (l l' : list A) :
  Permutation l l' -> Permutation (filter p l) (filter p l').
Proof.
  induction 1 as [|x l l' P IH|x y l|l l' l'' P1 IH1 P2 IH2]; cbn.
  - constructor.
  - destruct (p x); [constructor|]; exact IH.
  - destruct (p x), (p y); try reflexivity. apply perm_swap.
  - etransitivity; eassumption.
Qed.
End Ordering.

(* ================================================================== *)
(** * The admin pending list *)
(* ================================================================== *)

Section Pending.
Context `{Platform}.

Lemma sorted_weaken {A : Type} (R R' : A -> A -> Prop) (l : list A) :
  (forall a b, R a b -> R' a b) -> StronglySorted R l -> StronglySorted R' l.
Proof.
  intros W. induction 1 as [|x rest S IH F]; constructor; [exact IH|].
  eapply Forall_impl; [|exact F]. intros b. apply W.
Qed.

Lemma left_matches_joined {A : Type} (p : A -> bool) (l : list A)
  (o : option A) :
  In o (left_matches p l) <-> joined p l o.
Proof.
  unfold left_matches, joined.
  destruct (filter p l) as [|m ms] eqn:E.
  - cbn. split.
    + intros [<-|[]]. intros x X.
      destruct (p x) eqn:P; [|reflexivity].
      assert (I : In x (filter p l)) by (apply filter_In; auto).
      rewrite E in I. destruct I.
    + destruct o as [x|]; [|auto].
      intros [I P]. assert (I' : In x (filter p l)) by (apply filter_In; auto).
      rewrite E in I'. destruct I'.
  - rewrite <- E. rewrite in_map_iff. split.
    + intros (x & <- & I). apply filter_In in I. exact I.
    + destruct o as [x|].
      * intros [I P]. exists x. split; [reflexivity|]. apply filter_In; auto.
      * intros N. assert (I : In m (filter p l)) by (rewrite E; left; auto).
        apply filter_In in I. destruct I as [I P]. rewrite (N m I) in P.
        discriminate P.
Qed.

Lemma left_matches_inhabited {A : Type} (p : A -> bool) (l : list A) :
  exists o, In o (left_matches p l).
Proof.
  unfold left_matches. destruct (filter p l) as [|m ms].
  - exists None. left. reflexivity.
  - exists (Some m). left. reflexivity.
Qed.

Lemma admin_rows_in (ts : Tables) (a : Application.t) (r : AdminApplication.t) :
  In r (admin_rows ts a) <->
  exists u s, r = admin_row a u s /\ joined (owner_of a) (users ts) u /\
              joined (scheme_of a) (schemes ts) s.
Proof.
  unfold admin_rows. rewrite in_flat_map. split.
  - intros (u & U & R). apply in_map_iff in R. destruct R as (s & <- & S).
    exists u, s. rewrite <- !left_matches_joined. auto.
  - intros (u & s & -> & U & S). exists u.
    rewrite left_matches_joined. split; [exact U|].
    apply in_map. rewrite left_matches_joined. exact S.
Qed.

Lemma admin_rows_inhabited (ts : Tables) (a : Application.t) :
  exists u s, In (admin_row a u s) (admin_rows ts a).
Proof.
  destruct (left_matches_inhabited (owner_of a) (users ts)) as [u U].
  destruct (left_matches_inhabited (scheme_of a) (schemes ts)) as [s S].
  exists u, s. apply admin_rows_in. exists u, s.
  rewrite <- !left_matches_joined. auto.
Qed.

Lemma filter_admin_rows (ts : Tables) (a : Application.t) :
  filter row_pending (admin_rows ts a) =
  if is_pending a then admin_rows ts a else [].
Proof.
  assert (S : forall r, In r (admin_rows ts a) -> row_pending r = is_pending a).
  { intros r R. apply admin_rows_in in R. destruct R as (u & s & -> & _).
    reflexivity. }
  induction (admin_rows ts a) as [|r rest IH]; cbn.
  - destruct (is_pending a); reflexivity.
  - rewrite (S r (or_introl eq_refl)).
    assert (IH' := IH (fun x X => S x (or_intror X))).
    destruct (is_pending a); [f_equal|]; exact IH'.
Qed.

Lemma filter_admin_join (ts : Tables) (apps : list Application.t) :
  filter row_pending (admin_join ts apps) =
  admin_join ts (filter is_pending apps).
Proof.
  unfold admin_join. induction apps as [|a rest IH]; cbn; [reflexivity|].
  rewrite filter_app, IH, filter_admin_rows.
  destruct (is_pending a); reflexivity.
Qed.

Lemma status_eqb_eq (a b : Status) : Status_eqb a b = true <-> a = b.
Proof.
  destruct a, b; cbn; split; intros E; try reflexivity; discriminate E.
Qed.

(** What the handler answers when its statement goes through: the rows of
    the view that are Pending, in the order the view has them.  The handler
    adds neither a join nor an order of its own. *)
Lemma pending_response (env : Env) (w : World) :
  fails env (PoolQuery SelectPendingView) = false ->
  response (final Server.get_api_admin_pending_applications env w)
  = Some (mkResponse 200
            (ApplicationsBody
               (map AdminRow
                  (filter row_pending (v_admin_applications (committed w)))))).
Proof.
  intros F. remember (final _ _ _) as h eqn:E.
  unfold_handler E. rewrite F in E. cbn in E. subst h. reflexivity.
Qed.

Lemma date_le_total (a b : AdminApplication.t) :
  date_le a b = false -> date_le b a = true.
Proof.
  unfold date_le. intros L. apply Z.leb_le. apply Z.leb_gt in L. lia.
Qed.

Lemma date_le_trans (a b c : AdminApplication.t) :
  date_le a b = true -> date_le b c = true -> date_le a c = true.
Proof.
  unfold date_le. intros L1 L2. apply Z.leb_le. apply Z.leb_le in L1, L2. lia.
Qed.

(** The corrected server's own join lists the Pending applications in date
    order. *)
Lemma corrected_pending_list (env : Env) (w : World) :
  fails env (PoolQuery SelectPendingJoin) = false ->
  let h := final ServerCorrected.get_api_admin_pending_applications env w in
  let ts := committed w in
  exists rows,
    response h = Some (mkResponse 200 (ApplicationsBody (map AdminRow rows))) /\
    Permutation rows (admin_join ts (filter is_pending (applications ts))) /\
    StronglySorted
      (fun r r' =>
         AdminApplication.application_date r
         <= AdminApplication.application_date r')
      rows.
Proof.
  intros F h ts. remember (final _ _ _) as h0 eqn:E in h.
  unfold_handler E. rewrite F in E. cbn in E. subst h h0. cbn. fold ts.
  eexists. split; [reflexivity|]. split; [apply order_by_perm|].
  apply (sorted_weaken (fun a b => date_le a b = true)).
  - intros a b. unfold date_le. apply Z.leb_le.
  - apply order_by_sorted; [exact date_le_total|exact date_le_trans].
Qed.

End Pending.


(* ================================================================== *)
(** * Registration *)
(* ================================================================== *)

Lemma first_row_none {A B : Type} (f : A -> B) (p : A -> bool) (l : list A) :
  hd_error (map f (filter p l)) = None -> forall x, In x l -> p x = false.
Proof.
  intros E x X. destruct (p x) eqn:P; [|reflexivity].
  assert (I : In (f x) (map f (filter p l)))
    by (apply in_map; apply filter_In; auto).
  destruct (map f (filter p l)); [destruct I|discriminate E].
Qed.

Lemma first_row_some {A B : Type} (f : A -> B) (p : A -> bool) (l : list A)
  (x : A) :
  In x l -> p x = true -> exists r, hd_error (map f (filter p l)) = Some r.
Proof.
  intros X P.
  assert (I : In (f x) (map f (filter p l)))
    by (apply in_map; apply filter_In; auto).
  destruct (map f (filter p l)) as [|r rest]; [destruct I|].
  exists r. reflexivity.
Qed.

Section Register.
Context `{Platform}.
Hypothesis collation_refl : forall s, collation_eq s s = true.

(** What any request does to the users table: it appends rows, and a row it
    appends carries an address no stored row compared equal to. *)
Lemma route_users (r : request) (env : Env) (w : World) :
  exists more,
    users (committed (world (final (Server.route r) env w)))
    = (users (committed w) ++ more)%list /\
    forall u, In u more ->
      forall u0, In u0 (users (committed w)) ->
        collation_eq (User.email u0) (User.email u) = false.
Proof.
  destruct r as [b|query|[data files]| |id|id];
    remember (final _ _ _) as h eqn:E; paths E; subst h; tidy_files; cbn.
  all: try (exists []; rewrite app_nil_r; split; [reflexivity|];
            intros u []; fail).
  eexists; split; [reflexivity|].
  intros u [<-|[]] u0 U0; cbn.
  match goal with
  | E : hd_error _ = None |- _ => exact (first_row_none _ _ _ E u0 U0)
  end.
Qed.

Lemma has_email_eq (email : string) (u : User.t) :
  has_email email u = true <-> User.email u = email.
Proof. unfold has_email. apply String.eqb_eq. Qed.

(** One record under an address stays the only one, whatever is served. *)
Lemma serve_keeps_one (email : string) (rs : list (Env * request))
  (w : World) :
  List.length (filter (has_email email) (users (committed w))) = 1%nat ->
  List.length (filter (has_email email) (users (committed (serve rs w))))
  = 1%nat.
Proof.
  revert w. induction rs as [|[env r] rest IH]; intros w One; cbn;
    [exact One|].
  apply IH. destruct (route_users r env w) as (more & -> & Fresh).
  rewrite filter_app, length_app, One.
  assert (N : filter (has_email email) more = []).
  { destruct (filter (has_email email) (users (committed w)))
      as [|u0 rest0] eqn:F; [discriminate One|].
    assert (I0 : In u0 (filter (has_email email) (users (committed w))))
      by (rewrite F; left; reflexivity).
    apply filter_In in I0. destruct I0 as [I0 E0].
    apply has_email_eq in E0.
    destruct (filter (has_email email) more) as [|u rest1] eqn:G;
      [reflexivity|].
    assert (I : In u (filter (has_email email) more))
      by (rewrite G; left; reflexivity).
    apply filter_In in I. destruct I as [I E1]. apply has_email_eq in E1.
    pose proof (Fresh u I u0 I0) as C. rewrite E0, E1, collation_refl in C.
    discriminate C. }
  rewrite N. reflexivity.
Qed.

(** An address that is stored makes every further registration under it
    end without a new row and without success. *)
Lemma register_taken (b : RegisterBody.t) (email : string) (env : Env)
  (w : World) :
  RegisterBody.email b = Some email ->
  string_is_empty email = false ->
  (exists u, In u (users (committed w)) /\ User.email u = email) ->
  let h := final (Server.post_api_register b) env w in
  users (committed (world h)) = users (committed w) /\
  (forall id, response h <> Some (mkResponse 200 (RegisterOk id))) /\
  (truthy_str (RegisterBody.name b) = true ->
   truthy_str (RegisterBody.password b) = true ->
   fails env (PoolQuery (SelectUserIdByEmail email)) = false ->
   response h = Some conflict).
Proof.
  intros Em Ee (u & U & Eu) h. remember (final _ _ _) as h0 eqn:E in h.
  unfold_handler E. rewrite Em in E.
  destruct (first_row_some (fun u => UserIdRow (User.id u))
              (fun u => collation_eq (User.email u) email) _ u U)
    as (r & R); [rewrite Eu; apply collation_refl|].
  unfold truthy_str.
  destruct (RegisterBody.name b) as [name|]; cbn in *;
    [|subst h h0; cbn; repeat split; settle].
  destruct (RegisterBody.password b) as [password|]; cbn in *;
    [|subst h h0; cbn; repeat split; settle].
  destruct (string_is_empty name) eqn:En; cbn in *;
    [subst h h0; cbn; repeat split; settle|].
  rewrite Ee in E; cbn in E.
  destruct (string_is_empty password) eqn:Ep; cbn in *;
    [subst h h0; cbn; repeat split; settle|].
  destruct (fails env (PoolQuery (SelectUserIdByEmail email))) eqn:F;
    cbn in *; [subst h h0; cbn; repeat split; settle|].
  rewrite R in E. cbn in E. subst h h0; cbn.
  repeat split; settle.
Qed.

(** C8: a registration with its three required fields and an address no
    stored user compares equal to succeeds and returns the new user id; from
    then on, whatever requests are served in between, there is exactly one
    record under that address, a registration under it adds no record and
    never succeeds, and it is answered with the 409 conflict whenever it
    carries a name and a password and its lookup goes through. *)
Theorem register_once (b : RegisterBody.t) (name email password : string)
  (env : Env) (w : World) :
  RegisterBody.name b = Some name ->
  RegisterBody.email b = Some email ->
  RegisterBody.password b = Some password ->
  string_is_empty name = false ->
  string_is_empty email = false ->
  string_is_empty password = false ->
  (forall u, In u (users (committed w)) ->
             collation_eq (User.email u) email = false) ->
  (forall o, fails env o = false) ->
  let h := final (Server.post_api_register b) env w in
  response h = Some (mkResponse 200 (RegisterOk (next_user_id (sequences w))))
  /\ (exists u,
        users (committed (world h)) = (users (committed w) ++ [u])%list /\
        User.id u = next_user_id (sequences w) /\ User.email u = email)
  /\ forall (later : list (Env * request)) (b' : RegisterBody.t)
       (env' : Env),
       RegisterBody.email b' = Some email ->
       let w' := serve later (world h) in
       let h' := final (Server.post_api_register b') env' w' in
       List.length (filter (has_email email) (users (committed w'))) = 1%nat /\
       users (committed (world h')) = users (committed w') /\
       (forall id, response h' <> Some (mkResponse 200 (RegisterOk id))) /\
       (truthy_str (RegisterBody.name b') = true ->
        truthy_str (RegisterBody.password b') = true ->
        fails env' (PoolQuery (SelectUserIdByEmail email)) = false ->
        response h' = Some conflict).
Proof.
  intros Bn Be Bp En Ee Ep Fresh Calm h.
  assert (Old : filter (has_email email) (users (committed w)) = []).
  { destruct (filter (has_email email) (users (committed w)))
      as [|u rest] eqn:F; [reflexivity|].
    assert (I : In u (filter (has_email email) (users (committed w))))
      by (rewrite F; left; reflexivity).
    apply filter_In in I. destruct I as [I E1]. apply has_email_eq in E1.
    pose proof (Fresh u I) as C. rewrite E1, collation_refl in C.
    discriminate C. }
  assert (None_yet :
            hd_error
              (map (fun u => UserIdRow (User.id u))
                 (filter (fun u => collation_eq (User.email u) email)
                    (users (committed w)))) = None).
  { destruct (filter (fun u => collation_eq (User.email u) email)
                (users (committed w))) as [|u rest] eqn:F; [reflexivity|].
    assert (I : In u (filter (fun u => collation_eq (User.email u) email)
                        (users (committed w))))
      by (rewrite F; left; reflexivity).
    apply filter_In in I. destruct I as [I C]. rewrite (Fresh u I) in C.
    discriminate C. }
  remember (final _ _ _) as h0 eqn:E in h.
  unfold_handler E. rewrite Bn, Be, Bp in E. cbn in E.
  rewrite En, Ee, Ep in E. cbn in E. rewrite !Calm in E. cbn in E.
  rewrite None_yet in E. cbn in E. rewrite !Calm in E. cbn in E.
  subst h h0. cbn.
  split; [reflexivity|]. split.
  { eexists. repeat split. }
  intros later b' env' Be'.
  match goal with
  | |- context [serve later ?x] => set (w' := serve later x)
  end.
  assert (One : List.length (filter (has_email email) (users (committed w')))
                = 1%nat).
  { subst w'. apply serve_keeps_one. cbn.
    rewrite filter_app, Old. cbn. unfold has_email. cbn.
    rewrite String.eqb_refl. reflexivity. }
  split; [exact One|].
  apply register_taken; [exact Be'|exact Ee|].
  destruct (filter (has_email email) (users (committed w'))) as [|u rest] eqn:F;
    [discriminate One|].
  assert (I : In u (filter (has_email email) (users (committed w'))))
    by (rewrite F; left; reflexivity).
  apply filter_In in I. destruct I as [I E1]. apply has_email_eq in E1.
  exists u. split; assumption.
Qed.
End Register.

Lemma register_once_witness :
  let h := final (Server.post_api_register Example.newcomer) Example.calm
             Example.portal in
  let w' := serve [(Example.calm, PostApply Example.application)] (world h) in
  let h' := final (Server.post_api_register Example.impostor)
              Example.documents_fail w' in
  response h = Some (mkResponse 200 (RegisterOk 3)) /\
  users (committed (world h')) = users (committed w') /\
  response h' = Some conflict.
Proof.
  cbv zeta.
  destruct (register_once (H := reference_platform) String.eqb_refl
              Example.newcomer "Meera"
              "meera@example.org" "s3cret" Example.calm Example.portal
              eq_refl eq_refl eq_refl eq_refl eq_refl eq_refl)
    as (R & _ & Later).
  - intros u U. cbn in U. destruct U as [<-|[<-|[]]]; reflexivity.
  - intros o. reflexivity.
  - split; [exact R|].
    destruct (Later [(Example.calm, PostApply Example.application)]
                Example.impostor Example.documents_fail eq_refl)
      as (_ & Same & _ & Conflict).
    split; [exact Same|]. apply Conflict; reflexivity.
Defined.

(* ================================================================== *)
(** * Login *)
(* ================================================================== *)

Section Login.
Context `{Platform} `{References}.

Lemma filter_nothing {A : Type} (p : A -> bool) (l : list A) :
  (forall x, In x l -> p x = false) -> filter p l = [].
Proof.
  induction l as [|x l IH]; intros Hn; [reflexivity|].
  cbn. rewrite (Hn x (or_introl eq_refl)). apply IH.
  intros y Hy. apply Hn. right. exact Hy.
Qed.

Lemma filter_first {A : Type} (p : A -> bool) (l : list A) (x : A)
  (rest : list A) :
  filter p l = x :: rest -> In x l /\ p x = true.
Proof.
  intros E. apply filter_In. rewrite E. left. reflexivity.
Qed.

Lemma select_user (email : string) (ts : Tables) :
  hd_error (Reads.select (Reads.SelectUserByEmail email) ts) =
  option_map Reads.user_row
    (hd_error (filter (fun u => collation_eq (User.email u) email)
                 (users ts))).
Proof.
  unfold Reads.select.
  destruct (filter _ (users ts)); reflexivity.
Qed.

(** X1: a login whose body lacks the address or the password is turned away
    before the store is asked.  For a body the parsers read, with the two
    fields as texts or absent: the answer is 400 with [Missing fields]
    exactly when one of the two is absent or empty, and then no query has
    been sent and nothing has been logged. *)
Theorem login_missing_fields (b : LoginBody.t) (env : Reads.Env)
  (ts : Tables) :
  let st := Reads.answer (Reads.post_api_login b) env ts in
  (truthy_str (LoginBody.email b) && truthy_str (LoginBody.password b) = false
   <-> Reads.response st = Some missing_fields) /\
  (Reads.response st = Some missing_fields ->
   Reads.queries st = [] /\ Reads.console st = []).
Proof.
  intros st. remember st as s0 eqn:E. unfold st in E. clear st.
  destruct b as [[email|] [password|]]; cbn [LoginBody.email LoginBody.password];
    unfold truthy_str, missing_fields.
  2-4: read_paths E; subst; cbn; rewrite ?andb_false_r; repeat split; reflexivity.
  rewrite <- negb_orb.
  read_paths E; subst; cbn;
    (split; [split|]); intros; try reflexivity; try discriminate;
    try (split; reflexivity).
Qed.

(** X2: a login succeeds only for a stored user whose hash accepts the
    password, and its answer does not carry the hash.  Whenever the answer
    is the success body, the request named an address and a password, some
    user row matches the address, the password library accepted the
    password against that row's hash, and the user object in the answer is
    that row's id, name, email, role, age and gender, with no
    [password_hash] property. *)
Theorem login_success_sound (b : LoginBody.t) (env : Reads.Env) (ts : Tables)
  (user : jsval) :
  Reads.response (Reads.answer (Reads.post_api_login b) env ts)
  = Some (Reads.mkResponse 200 (Reads.LoginOk user)) ->
  exists email password u,
    LoginBody.email b = Some email /\
    LoginBody.password b = Some password /\
    In u (users ts) /\
    collation_eq (User.email u) email = true /\
    Reads.bcrypt_compare env password (Some (JStr (User.password_hash u)))
    = Some true /\
    user = public_user u /\
    get_prop "password_hash" user = None.
Proof.
  remember (Reads.answer _ _ _) as s0 eqn:E. intros R.
  destruct b as [[email|] [password|]]; read_paths E; subst; cbn in R;
    try discriminate R.
  match goal with
  | A : hd_error (Reads.select _ _) = Some _ |- _ =>
      rewrite select_user in A;
      destruct (filter _ (users ts)) as [|u rest] eqn:F; cbn in A;
      [discriminate A|]; injection A as <-
  end.
  apply filter_first in F. destruct F as [Hin Heq].
  injection R as <-.
  exists email, password, u. repeat split; try assumption; reflexivity.
Qed.

(** X3: an unknown address and a wrong password are answered alike.  When
    no user row matches the address of one login, and every row matching
    the address of another rejects its password, both logins get the same
    response, 401 with [Invalid credentials], and neither logs anything:
    both consoles are empty. *)
Theorem login_rejections_alike (email password email' password' : string)
  (env env' : Reads.Env) (ts ts' : Tables) :
  string_is_empty email = false -> string_is_empty password = false ->
  string_is_empty email' = false -> string_is_empty password' = false ->
  Reads.fails env _ (Reads.SelectUserByEmail email) = false ->
  Reads.fails env' _ (Reads.SelectUserByEmail email') = false ->
  (forall x, In x (users ts) -> collation_eq (User.email x) email = false) ->
  (exists x, In x (users ts') /\ collation_eq (User.email x) email' = true) ->
  (forall x, In x (users ts') -> collation_eq (User.email x) email' = true ->
     Reads.bcrypt_compare env' password' (Some (JStr (User.password_hash x)))
     = Some false) ->
  let unknown :=
    Reads.answer
      (Reads.post_api_login (LoginBody.mk (Some email) (Some password)))
      env ts in
  let wrong :=
    Reads.answer
      (Reads.post_api_login (LoginBody.mk (Some email') (Some password')))
      env' ts' in
  Reads.response unknown = Some Reads.invalid_credentials /\
  Reads.response wrong = Reads.response unknown /\
  Reads.console unknown = [] /\ Reads.console wrong = [].
Proof.
  intros He Hp He' Hp' Hf Hf' Hnone [x [Hx Hxe]] Hno unknown wrong.
  assert (U : Reads.response unknown = Some Reads.invalid_credentials /\
              Reads.console unknown = []).
  { remember unknown as s0 eqn:E. unfold unknown in E. clear unknown wrong.
    unfold_reads E. rewrite He, Hp in E. cbn in E. rewrite Hf in E. cbn in E.
    rewrite select_user, (filter_nothing _ _ Hnone) in E. cbn in E.
    subst. split; reflexivity. }
  assert (W : Reads.response wrong = Some Reads.invalid_credentials /\
              Reads.console wrong = []).
  { remember wrong as s0 eqn:E. unfold wrong in E. clear U unknown wrong.
    unfold_reads E. rewrite He', Hp' in E. cbn in E. rewrite Hf' in E.
    cbn in E. rewrite select_user in E.
    destruct (filter (fun u => collation_eq (User.email u) email') (users ts'))
      as [|u rest] eqn:F.
    { assert (I : In x (filter (fun u => collation_eq (User.email u) email')
                          (users ts')))
        by (apply filter_In; auto).
      rewrite F in I. destruct I. }
    apply filter_first in F. destruct F as [Hu Hue].
    cbn in E.
    change (get_prop "password_hash" (Reads.user_row u))
      with (Some (JStr (User.password_hash u))) in E.
    rewrite (Hno u Hu Hue) in E. cbn in E. subst. split; reflexivity. }
  destruct U as [U1 U2], W as [W1 W2].
  rewrite U1, W1. repeat split; assumption.
Qed.

End Login.

Lemma login_success_sound_witness :
  Reads.response
    (Reads.answer (Reads.post_api_login Desk.asha) Desk.calm Example.tables)
  = Some (Reads.mkResponse 200 (Reads.LoginOk (public_user Example.asha))) /\
  exists email password u,
    LoginBody.email Desk.asha = Some email /\
    LoginBody.password Desk.asha = Some password /\
    In u (users Example.tables) /\
    get_prop "password_hash" (public_user Example.asha) = None.
Proof.
  assert (R : Reads.response
                (Reads.answer (Reads.post_api_login Desk.asha) Desk.calm
                   Example.tables)
              = Some (Reads.mkResponse 200
                        (Reads.LoginOk (public_user Example.asha))))
    by reflexivity.
  split; [exact R|].
  destruct (login_success_sound Desk.asha Desk.calm Example.tables
              (public_user Example.asha) R)
    as (email & password & u & E & P & I & _ & _ & _ & N).
  exists email, password, u. repeat split; assumption.
Defined.

Lemma login_rejections_alike_witness :
  let unknown :=
    Reads.answer (Reads.post_api_login Desk.stranger) Desk.calm
      Example.tables in
  let wrong :=
    Reads.answer (Reads.post_api_login Desk.mistaken) Desk.calm
      Example.tables in
  Reads.response unknown = Some Reads.invalid_credentials /\
  Reads.response wrong = Reads.response unknown /\
  Reads.console unknown = [] /\ Reads.console wrong = [].
Proof.
  cbv zeta.
  apply (login_rejections_alike "nobody@example.org" "asha"
           "asha@example.org" "ravi" Desk.calm Desk.calm Example.tables
           Example.tables); try reflexivity.
  - intros x X. cbn in X. destruct X as [<-|[<-|[]]]; reflexivity.
  - exists Example.asha. split; [left|]; reflexivity.
  - intros x X. cbn in X. destruct X as [<-|[<-|[]]];
      [reflexivity|discriminate].
Defined.

Section RegisterLogin.
Context `{Platform} `{References}.
Hypothesis collation_refl : forall s, collation_eq s s = true.

(** X4: who has registered can log in.  After a registration that was
    answered with success, a login with the same address and password, on a
    store that compares a text equal to itself and with a password library
    that accepts the password against the hash it made of it, succeeds and
    returns the new user: the id the registration returned, the name and
    address given, the role [user], the validated age and the gender. *)
Theorem register_then_login (b : RegisterBody.t) (email password : string)
  (env : Env) (w : World) (userId : Z) (renv : Reads.Env) :
  RegisterBody.email b = Some email ->
  RegisterBody.password b = Some password ->
  let h := final (Server.post_api_register b) env w in
  response h = Some (mkResponse 200 (RegisterOk userId)) ->
  Reads.fails renv _ (Reads.SelectUserByEmail email) = false ->
  Reads.bcrypt_compare renv password
    (Some (JStr (bcrypt_hash env password))) = Some true ->
  exists name,
    RegisterBody.name b = Some name /\
    Reads.response
      (Reads.answer
         (Reads.post_api_login (LoginBody.mk (Some email) (Some password)))
         renv (committed (world h)))
    = Some
        (Reads.mkResponse 200
           (Reads.LoginOk
              (JObj [("id", Reads.js_int userId); ("name", JStr name);
                     ("email", JStr email); ("role", JStr "user");
                     ("age", Server.validatedAge (RegisterBody.age b));
                     ("gender", or_null (RegisterBody.gender b))]))).
Proof.
  intros Hemail Hpassword h. remember h as h0 eqn:E. unfold h in E. clear h.
  intros R Hf Hc.
  destruct b as [name email0 password0 age gender];
    cbn in Hemail, Hpassword; subst email0 password0.
  destruct name as [name|]; paths E; subst; cbn in R; try discriminate R.
  injection R as <-. exists name. split; [reflexivity|].
  match goal with
  | A : string_is_empty _ || _ || _ = false |- _ =>
      apply orb_false_elim in A; destruct A as [A Hp];
      apply orb_false_elim in A; destruct A as [Hn He]
  end.
  match goal with
  | A : hd_error _ = None |- _ =>
      pose proof (first_row_none _ _ _ A) as Hnone
  end.
  remember (Reads.answer _ _ _) as s0 eqn:E.
  unfold_reads E. rewrite He, Hp in E. cbn in E. rewrite Hf in E. cbn in E.
  rewrite select_user in E. cbn [users] in E.
  rewrite filter_app, (filter_nothing _ _ Hnone) in E. cbn in E.
  rewrite collation_refl in E. cbn in E.
  change (get_prop "password_hash" (Reads.user_row ?u))
    with (Some (JStr (User.password_hash u))) in E.
  cbn in E. rewrite Hc in E. cbn in E. subst. reflexivity.
Qed.

End RegisterLogin.

Lemma register_then_login_witness :
  let h := final (Server.post_api_register Example.newcomer) Example.calm
             Example.portal in
  response h = Some (mkResponse 200 (RegisterOk 3)) /\
  exists user,
    Reads.response
      (Reads.answer (Reads.post_api_login Desk.meera) Desk.calm
         (committed (world h)))
    = Some (Reads.mkResponse 200 (Reads.LoginOk user)) /\
    get_prop "id" user = Some (Reads.js_int 3).
Proof.
  cbv zeta. split; [reflexivity|].
  destruct (register_then_login (H := reference_platform) String.eqb_refl
              Example.newcomer "meera@example.org" "s3cret" Example.calm
              Example.portal 3 Desk.calm eq_refl eq_refl eq_refl eq_refl
              eq_refl)
    as (name & _ & R).
  eexists. split; [exact R|reflexivity].
Defined.

(* ================================================================== *)
(** * One scheme, one application, and the applicant's list *)
(* ================================================================== *)

Section Lookups.
Context `{Platform} `{References}.

Lemma first_of_filter {A : Type} (p : A -> bool) (l : list A) :
  match hd_error (filter p l) with
  | Some x => In x l /\ p x = true
  | None => forall x, In x l -> p x = false
  end.
Proof.
  destruct (filter p l) as [|x rest] eqn:F; cbn.
  - intros x Hx. destruct (p x) eqn:P; [|reflexivity].
    assert (I : In x (filter p l)) by (apply filter_In; auto).
    rewrite F in I. destruct I.
  - apply filter_In. rewrite F. left. reflexivity.
Qed.

(** X5: the single-scheme route answers 404 exactly when no scheme has the
    id.  When the query goes through, the answer is 404 with
    [Scheme not found] if and only if no scheme matches the id; a scheme in
    the answer is a stored scheme that matches it; and when some scheme
    matches, a scheme is returned. *)
Theorem scheme_by_id (id : string) (env : Reads.Env) (ts : Tables) :
  Reads.fails env _ (Reads.SelectSchemeById id) = false ->
  let st := Reads.answer (Reads.get_api_schemes_id id) env ts in
  ((forall s, In s (schemes ts) -> Reads.scheme_is id s = false)
   <-> Reads.response st = Some scheme_not_found) /\
  (forall s, Reads.response st
             = Some (Reads.mkResponse 200 (Reads.SchemeBody s)) ->
             In s (schemes ts) /\ Reads.scheme_is id s = true) /\
  (forall s, In s (schemes ts) -> Reads.scheme_is id s = true ->
             exists s', Reads.response st
                        = Some (Reads.mkResponse 200 (Reads.SchemeBody s'))).
Proof.
  intros Hf st. remember st as s0 eqn:E. unfold st in E. clear st.
  unfold_reads E. rewrite Hf in E. cbn in E.
  unfold Reads.select in E.
  pose proof (first_of_filter (Reads.scheme_is id) (schemes ts)) as F.
  destruct (hd_error (filter (Reads.scheme_is id) (schemes ts))) as [s0'|];
    cbn in E; subst; cbn.
  - destruct F as [Hin Hp]. split; [split|split].
    + intros Hn. rewrite (Hn _ Hin) in Hp. discriminate Hp.
    + discriminate.
    + intros s R. injection R as <-. split; assumption.
    + intros s _ _. exists s0'. reflexivity.
  - split; [split|split].
    + reflexivity.
    + intros _. exact F.
    + discriminate.
    + intros s Hin Hp. rewrite (F _ Hin) in Hp. discriminate Hp.
Qed.

Lemma newest_first_total (a b : MyApplication.t) :
  Reads.newest_first a b = false -> Reads.newest_first b a = true.
Proof. unfold Reads.newest_first. lia. Qed.

Lemma newest_first_trans (a b c : MyApplication.t) :
  Reads.newest_first a b = true -> Reads.newest_first b c = true ->
  Reads.newest_first a c = true.
Proof. unfold Reads.newest_first. lia. Qed.

Lemma my_join_in (userId : string) (ts : Tables) (r : MyApplication.t) :
  In r (my_join userId ts) <->
  exists a s,
    In a (applications ts) /\ Reads.owned_by userId a = true /\
    r = Reads.my_row a s /\ joined (scheme_of a) (schemes ts) s.
Proof.
  unfold my_join. rewrite in_flat_map. split.
  - intros [a [Ha Hr]]. apply filter_In in Ha. destruct Ha as [Ha Ho].
    apply in_map_iff in Hr. destruct Hr as [s [Hs Hj]].
    exists a, s. repeat split; auto. apply left_matches_joined. exact Hj.
  - intros [a [s [Ha [Ho [-> Hj]]]]]. exists a. split.
    + apply filter_In. auto.
    + apply in_map. apply left_matches_joined. exact Hj.
Qed.

(** X6: the applicant's list holds the applicant's applications, newest
    first.  When the query goes through, the rows of the answer are a
    rearrangement of the join of the user's applications with their schemes:
    every application of the user is listed, every row comes from an
    application of the user paired with a scheme it refers to (or with none
    when it refers to no scheme), and the submission dates never increase
    along the list. *)
Theorem my_applications_newest_first (userId : string) (env : Reads.Env)
  (ts : Tables) :
  Reads.fails env _ (Reads.SelectMyApplications userId) = false ->
  let st := Reads.answer (Reads.get_api_my_applications userId) env ts in
  exists rows,
    Reads.response st
    = Some (Reads.mkResponse 200 (Reads.MyApplicationsBody rows)) /\
    Permutation rows (my_join userId ts) /\
    (forall a, In a (applications ts) -> Reads.owned_by userId a = true ->
       exists s, In (Reads.my_row a s) rows) /\
    (forall r, In r rows ->
       exists a s,
         In a (applications ts) /\ Reads.owned_by userId a = true /\
         r = Reads.my_row a s /\ joined (scheme_of a) (schemes ts) s) /\
    StronglySorted
      (fun r r' =>
         MyApplication.application_date r' <= MyApplication.application_date r)
      rows.
Proof.
  intros Hf st. remember st as s0 eqn:E. unfold st in E. clear st.
  unfold_reads E. rewrite Hf in E. cbn in E. subst. cbn.
  exists (Reads.select (Reads.SelectMyApplications userId) ts).
  assert (P : Permutation (Reads.select (Reads.SelectMyApplications userId) ts)
                (my_join userId ts)) by apply order_by_perm.
  split; [reflexivity|]. split; [exact P|]. split; [|split].
  - intros a Ha Ho.
    destruct (left_matches_inhabited (scheme_of a) (schemes ts)) as [s Hs].
    exists s. apply (Permutation_in _ (Permutation_sym P)).
    apply my_join_in. exists a, s. repeat split; auto.
    apply left_matches_joined. exact Hs.
  - intros r Hr. apply my_join_in. apply (Permutation_in _ P). exact Hr.
  - apply sorted_weaken
      with (R := fun a b => Reads.newest_first a b = true).
    + intros a b. unfold Reads.newest_first. lia.
    + apply order_by_sorted.
      * exact newest_first_total.
      * exact newest_first_trans.
Qed.

(** X7: the detail route answers on the application row before it asks for
    the documents.  When no application has the id, the answer is 404 with
    [Application not found] and the documents were never queried.  When one
    has, the answer carries an application with that id, joined with its
    scheme, and exactly the documents stored under the id; and if the
    documents query fails, the answer is the server error and no part of
    the application. *)
Theorem application_detail (id : string) (env : Reads.Env) (ts : Tables) :
  Reads.fails env _ (Reads.SelectApplicationById id) = false ->
  let st := Reads.answer (Reads.get_api_application id) env ts in
  ((forall a, In a (applications ts) -> Reads.application_is id a = false) ->
   Reads.response st = Some application_not_found /\
   Reads.queries st = [Reads.Asked (Reads.SelectApplicationById id) true]) /\
  (forall a, In a (applications ts) -> Reads.application_is id a = true ->
   (Reads.fails env _ (Reads.SelectDocumentsOf id) = false ->
    exists a' s,
      In a' (applications ts) /\ Reads.application_is id a' = true /\
      joined (scheme_of a') (schemes ts) s /\
      Reads.response st
      = Some (Reads.mkResponse 200
                (Reads.ApplicationBody (Reads.detail_row a' s)
                   (filter (Reads.document_of id) (documents ts))))) /\
   (Reads.fails env _ (Reads.SelectDocumentsOf id) = true ->
    Reads.response st = Some read_error)).
Proof.
  intros Hf st. remember st as s0 eqn:E. unfold st in E. clear st.
  unfold_reads E. rewrite Hf in E. cbn in E.
  unfold Reads.select at 1 in E. split.
  - intros Hn. rewrite (filter_nothing _ _ Hn) in E. cbn in E. subst.
    split; reflexivity.
  - intros a Ha Hp.
    destruct (filter (Reads.application_is id) (applications ts))
      as [|a' rest] eqn:F.
    { assert (I : In a (filter (Reads.application_is id) (applications ts)))
        by (apply filter_In; auto).
      rewrite F in I. destruct I. }
    apply filter_first in F. destruct F as [Ha' Hp'].
    cbn [flat_map] in E.
    destruct (left_matches (scheme_of a') (schemes ts)) as [|s more] eqn:L.
    { destruct (left_matches_inhabited (scheme_of a') (schemes ts)) as [o Ho].
      rewrite L in Ho. destruct Ho. }
    assert (J : joined (scheme_of a') (schemes ts) s).
    { apply left_matches_joined. rewrite L. left. reflexivity. }
    cbn in E. split; intros Hd; rewrite Hd in E; cbn in E; subst.
    + exists a', s. repeat split; auto.
    + reflexivity.
Qed.

End Lookups.

Lemma scheme_by_id_witness :
  Reads.fails Desk.calm _ (Reads.SelectSchemeById "2") = false /\
  Reads.response
    (Reads.answer (Reads.get_api_schemes_id "2") Desk.calm Example.tables)
  = Some (Reads.mkResponse 200 (Reads.SchemeBody Example.means)) /\
  Reads.scheme_is "2" Example.means = true.
Proof.
  split; [reflexivity|]. split; [reflexivity|].
  destruct (scheme_by_id "2" Desk.calm Example.tables eq_refl)
    as (_ & Found & _).
  apply (Found Example.means). reflexivity.
Defined.

Lemma my_applications_newest_first_witness :
  Reads.fails Desk.calm _ (Reads.SelectMyApplications "1") = false /\
  exists rows,
    Reads.response
      (Reads.answer (Reads.get_api_my_applications "1") Desk.calm
         Example.tables)
    = Some (Reads.mkResponse 200 (Reads.MyApplicationsBody rows)) /\
    map MyApplication.application_id rows = [3; 2] /\
    StronglySorted
      (fun r r' =>
         MyApplication.application_date r' <= MyApplication.application_date r)
      rows.
Proof.
  split; [reflexivity|].
  destruct (my_applications_newest_first "1" Desk.calm Example.tables eq_refl)
    as (rows & R & _ & _ & _ & S).
  exists rows. split; [exact R|]. split; [|exact S].
  injection R as <-. reflexivity.
Defined.

Lemma application_detail_witness :
  Reads.fails Desk.calm _ (Reads.SelectApplicationById "9") = false /\
  Reads.response
    (Reads.answer (Reads.get_api_application "9") Desk.calm Example.tables)
  = Some application_not_found /\
  Reads.queries
    (Reads.answer (Reads.get_api_application "9") Desk.calm Example.tables)
  = [Reads.Asked (Reads.SelectApplicationById "9") true].
Proof.
  split; [reflexivity|].
  apply (application_detail "9" Desk.calm Example.tables eq_refl).
  intros a A. cbn in A. destruct A as [<-|[<-|[<-|[]]]]; reflexivity.
Defined.

Section ApplyThenRead.
Context `{Platform} `{References}.

Lemma document_rows_of (id : string) (appId first : Z) (fs : list File.t) :
  key_eq (JStr id) appId = true ->
  filter (Reads.document_of id) (document_rows appId first fs)
  = document_rows appId first fs.
Proof.
  intros Hk. revert first.
  induction fs as [|f fs IH]; intros first; [reflexivity|].
  cbn. unfold Reads.document_of at 1. cbn. rewrite Hk, IH. reflexivity.
Qed.

(** X8: a submitted application shows up in its applicant's list.  After
    an apply that was answered with success, the list of a user whose id
    the payload's [user_id] refers to contains a row with the application
    id the apply returned. *)
Theorem apply_then_my_applications (req : ApplyRequest.t) (env : Env)
  (w : World) (appId : Z) (userId : string) (renv : Reads.Env) :
  let h := final (Server.post_api_apply req) env w in
  succeeded h appId ->
  (forall text data v,
     ApplyRequest.data req = Some text -> JSON_parse text = Some data ->
     get_prop "user_id" data = Some v -> reference_eq v userId = true) ->
  Reads.fails renv _ (Reads.SelectMyApplications userId) = false ->
  exists rows r,
    Reads.response
      (Reads.answer (Reads.get_api_my_applications userId) renv
         (committed (world h)))
    = Some (Reads.mkResponse 200 (Reads.MyApplicationsBody rows)) /\
    In r rows /\ MyApplication.application_id r = appId.
Proof.
  intros h S Hu Hf.
  destruct (apply_success _ _ _ _ S)
    as [text [data [user [scheme [Hd [Hp [Hgu [Hgs [_ [_ [_ Hc]]]]]]]]]]].
  fold h in Hc.
  remember (Reads.answer _ _ _) as s0 eqn:E.
  unfold_reads E. rewrite Hf in E. cbn in E. subst. cbn.
  set (a := new_application (now env) appId user scheme
              (or_null (get_prop "amount_applied" data))
              (JSON_stringify data)) in Hc.
  destruct (left_matches_inhabited (scheme_of a)
              (schemes (committed (world h)))) as [s Hs].
  exists (Reads.select (Reads.SelectMyApplications userId)
            (committed (world h))), (Reads.my_row a s).
  split; [reflexivity|]. split; [|reflexivity].
  apply (Permutation_in _
           (Permutation_sym (order_by_perm _ Reads.newest_first _))).
  apply in_flat_map. exists a. split.
  - apply filter_In. split.
    + rewrite Hc. cbn. apply in_or_app. right. left. reflexivity.
    + unfold Reads.owned_by. cbn. exact (Hu _ _ _ Hd Hp Hgu).
  - apply in_map. exact Hs.
Qed.

(** X9: what was submitted can be read back.  After an apply that was
    answered with success, the detail route under the returned id, when no
    earlier application matches that id, answers with an application that
    has the returned id, the payload's user and scheme references and the
    serialised payload, joined with its scheme, and with the documents
    stored under the id before followed by one document per uploaded
    file. *)
Theorem apply_then_application_detail (req : ApplyRequest.t) (env : Env)
  (w : World) (appId : Z) (id : string) (renv : Reads.Env) :
  let h := final (Server.post_api_apply req) env w in
  succeeded h appId ->
  key_eq (JStr id) appId = true ->
  (forall a, In a (applications (committed w)) ->
             Reads.application_is id a = false) ->
  (forall R q, Reads.fails renv R q = false) ->
  exists text data a s,
    ApplyRequest.data req = Some text /\ JSON_parse text = Some data /\
    Reads.response
      (Reads.answer (Reads.get_api_application id) renv (committed (world h)))
    = Some
        (Reads.mkResponse 200
           (Reads.ApplicationBody (Reads.detail_row a s)
              (filter (Reads.document_of id) (documents (committed w))
               ++ document_rows appId (next_document_id (sequences w))
                    (uploads req))%list)) /\
    Application.id a = appId /\
    Some (Application.user_id a) = get_prop "user_id" data /\
    Some (Application.scheme_id a) = get_prop "scheme_id" data /\
    Application.data_json a = JSON_stringify data /\
    joined (scheme_of a) (schemes (committed w)) s.
Proof.
  intros h S Hk Hfresh Hf.
  destruct (apply_success _ _ _ _ S)
    as [text [data [user [scheme [Hd [Hp [Hgu [Hgs [_ [_ [_ Hc]]]]]]]]]]].
  fold h in Hc.
  set (a := new_application (now env) appId user scheme
              (or_null (get_prop "amount_applied" data))
              (JSON_stringify data)) in Hc.
  assert (A1 : Reads.select (Reads.SelectApplicationById id)
                 (committed (world h))
               = map (Reads.detail_row a)
                   (left_matches (scheme_of a) (schemes (committed w)))).
  { unfold Reads.select. rewrite Hc. cbn [applications schemes].
    rewrite filter_app, (filter_nothing _ _ Hfresh). cbn [filter app].
    unfold Reads.application_is at 1.
    cbn [a new_application Application.id]. rewrite Hk. cbn [flat_map].
    apply app_nil_r. }
  assert (A2 : Reads.select (Reads.SelectDocumentsOf id)
                 (committed (world h))
               = (filter (Reads.document_of id) (documents (committed w))
                  ++ document_rows appId (next_document_id (sequences w))
                       (uploads req))%list).
  { unfold Reads.select. rewrite Hc. cbn [documents].
    rewrite filter_app, (document_rows_of _ _ _ _ Hk). reflexivity. }
  destruct (left_matches (scheme_of a) (schemes (committed w)))
    as [|s more] eqn:L.
  { destruct (left_matches_inhabited (scheme_of a) (schemes (committed w)))
      as [o Ho].
    rewrite L in Ho. destruct Ho. }
  assert (J : joined (scheme_of a) (schemes (committed w)) s).
  { apply left_matches_joined. rewrite L. left. reflexivity. }
  remember (Reads.answer _ _ _) as s0 eqn:E.
  unfold_reads E. rewrite Hf, A1 in E. cbn in E.
  rewrite Hf, A2 in E. cbn in E. subst s0. cbn.
  exists text, data, a, s. repeat split; auto.
Qed.

End ApplyThenRead.

Lemma apply_then_my_applications_witness :
  let h := final (Server.post_api_apply Example.application) Example.calm
             Example.portal in
  succeeded h 4 /\
  exists rows r,
    Reads.response
      (Reads.answer (Reads.get_api_my_applications "1") Desk.calm
         (committed (world h)))
    = Some (Reads.mkResponse 200 (Reads.MyApplicationsBody rows)) /\
    In r rows /\ MyApplication.application_id r = 4.
Proof.
  cbv zeta. split; [reflexivity|].
  apply (apply_then_my_applications Example.application Example.calm
           Example.portal 4 "1" Desk.calm); try reflexivity.
  intros text data v T P G.
  injection T as <-. vm_compute in P. injection P as <-.
  vm_compute in G. injection G as <-. reflexivity.
Defined.

Lemma apply_then_application_detail_witness :
  let h := final (Server.post_api_apply Example.application) Example.calm
             Example.portal in
  succeeded h 4 /\
  exists a s,
    Reads.response
      (Reads.answer (Reads.get_api_application "4") Desk.calm
         (committed (world h)))
    = Some
        (Reads.mkResponse 200
           (Reads.ApplicationBody (Reads.detail_row a s)
              [Document.mk 1 4 "photo" "0f3a9c51d2e84b7fa6c0b1d2e3f40516";
               Document.mk 2 4 "mark10" "7be1c2a93d4f4065b8a7c6d5e4f3a2b1"])) /\
    Application.id a = 4.
Proof.
  cbv zeta.
  assert (S : succeeded
                (final (Server.post_api_apply Example.application)
                   Example.calm Example.portal) 4) by reflexivity.
  assert (K : key_eq (JStr "4") 4 = true) by reflexivity.
  split; [exact S|].
  destruct (apply_then_application_detail Example.application Example.calm
              Example.portal 4 "4" Desk.calm S K)
    as (text & data & a & s & _ & _ & R & I & _).
  - intros a A. cbn in A. destruct A as [<-|[<-|[<-|[]]]]; reflexivity.
  - intros R q. reflexivity.
  - exists a, s. split; [exact R|exact I].
Defined.

(* ================================================================== *)
(** * The admin dashboard *)
(* ================================================================== *)

Section Stats.
Context `{Platform} `{References}.

Lemma stats_response (env : Reads.Env) (ts : Tables) :
  Reads.fails env _ Reads.CountUsers = false ->
  Reads.fails env _ Reads.CountSchemes = false ->
  Reads.fails env _ Reads.CountPending = false ->
  Reads.response (Reads.answer Reads.get_api_admin_stats env ts)
  = Some (Reads.mkResponse 200 (stats_of ts)).
Proof.
  intros Hu Hs Hp. remember (Reads.answer _ _ _) as s0 eqn:E.
  unfold_reads E. rewrite Hu in E. cbn in E. rewrite Hs in E. cbn in E.
  rewrite Hp in E. cbn in E. subst. reflexivity.
Qed.

(** X10: the dashboard shows all three counts or none.  When none of the
    three count queries fails, the answer holds the number of users, the
    number of schemes and the number of pending applications, after exactly
    the three queries in that order.  When one fails, the answer is the
    server error, the failed query is the last one sent and the one logged,
    and every query before it went through. *)
Theorem stats_all_or_error (env : Reads.Env) (ts : Tables) :
  let st := Reads.answer Reads.get_api_admin_stats env ts in
  let failing :=
    Reads.fails env _ Reads.CountUsers || Reads.fails env _ Reads.CountSchemes
    || Reads.fails env _ Reads.CountPending in
  (failing = false ->
   Reads.response st = Some (Reads.mkResponse 200 (stats_of ts)) /\
   Reads.queries st
   = [Reads.Asked Reads.CountUsers true; Reads.Asked Reads.CountSchemes true;
      Reads.Asked Reads.CountPending true] /\
   Reads.console st = []) /\
  (failing = true ->
   Reads.response st = Some read_error /\
   exists asked (failed : Reads.query Z),
     Reads.queries st = (asked ++ [Reads.Asked failed false])%list /\
     Reads.console st = [Reads.QueryError failed] /\
     (forall q, In q asked -> exists R (q' : Reads.query R),
                                q = Reads.Asked q' true)).
Proof.
  intros st failing. remember st as s0 eqn:E. unfold st in E. clear st.
  unfold failing. clear failing.
  unfold_reads E.
  destruct (Reads.fails env Z Reads.CountUsers); cbn in E;
    [|destruct (Reads.fails env Z Reads.CountSchemes); cbn in E;
      [|destruct (Reads.fails env Z Reads.CountPending); cbn in E]];
    subst; cbn; split; intros F; try discriminate F.
  - split; [reflexivity|]. exists [], Reads.CountUsers.
    repeat split. intros q [].
  - split; [reflexivity|].
    exists [Reads.Asked Reads.CountUsers true], Reads.CountSchemes.
    repeat split. intros q [<-|[]]. eexists _, _. reflexivity.
  - split; [reflexivity|].
    exists [Reads.Asked Reads.CountUsers true;
            Reads.Asked Reads.CountSchemes true], Reads.CountPending.
    repeat split. intros q [<-|[<-|[]]]; eexists _, _; reflexivity.
  - repeat split.
Qed.

(** X11: the user count of the dashboard follows the registrations.  After
    a registration answered with success the dashboard shows one user more
    and the same numbers of schemes and pending applications; after any
    other registration it shows what it showed before. *)
Theorem register_then_stats (b : RegisterBody.t) (env : Env) (w : World)
  (renv : Reads.Env) :
  (forall R q, Reads.fails renv R q = false) ->
  let h := final (Server.post_api_register b) env w in
  let before := committed w in
  let after := committed (world h) in
  ((exists userId, response h = Some (mkResponse 200 (RegisterOk userId))) ->
   Reads.response (Reads.answer Reads.get_api_admin_stats renv after)
   = Some
       (Reads.mkResponse 200
          (Reads.StatsBody (Z.of_nat (List.length (users before)) + 1)
             (Z.of_nat (List.length (schemes before)))
             (count is_pending (applications before))))) /\
  ((forall userId, response h <> Some (mkResponse 200 (RegisterOk userId))) ->
   Reads.response (Reads.answer Reads.get_api_admin_stats renv after)
   = Reads.response (Reads.answer Reads.get_api_admin_stats renv before)).
Proof.
  intros Hf h before after.
  rewrite !stats_response by apply Hf.
  unfold before, after. remember h as h0 eqn:E. unfold h in E. clear h.
  clear before after.
  destruct b as [[name|] [email|] [password|] age gender];
    paths E; subst; cbn; split; intros R;
    try reflexivity;
    try (destruct R as [i R]; discriminate R);
    try (exfalso; eapply R; reflexivity).
  unfold stats_of. cbn. rewrite length_app. cbn.
  do 3 f_equal. lia.
Qed.

Lemma count_with_status (st : Status) (id : string)
  (apps : list Application.t) :
  st <> Pending ->
  count is_pending (with_status st id apps)
  = count is_pending apps
    - count (fun a => is_pending a && key_eq (JStr id) (Application.id a))
        apps.
Proof.
  intros Hst. unfold count, with_status.
  induction apps as [|a apps IH]; [reflexivity|].
  cbn [map filter].
  destruct (key_eq (JStr id) (Application.id a)) eqn:K.
  - replace (is_pending (Application.set_status st a)) with false
      by (destruct st; [contradiction| |]; reflexivity).
    rewrite andb_true_r.
    destruct (is_pending a); cbn [List.length]; lia.
  - rewrite andb_false_r. destruct (is_pending a); cbn [List.length]; lia.
Qed.

(** X12: a decision takes the applications it reaches off the pending
    count.  After an approve or a reject that the store carried out, the
    dashboard's pending count is the one before less the number of pending
    applications with the decided id, and the other two counts are as
    before. *)
Theorem status_update_then_stats (handler : string -> M unit) (st : Status)
  (id : string) (env : Env) (w : World) (renv : Reads.Env) :
  handler = Server.post_api_admin_application_approve /\ st = Approved \/
  handler = Server.post_api_admin_application_reject /\ st = Rejected ->
  fails env (PoolQuery (UpdateStatus st id)) = false ->
  (forall R q, Reads.fails renv R q = false) ->
  let before := committed w in
  let after := committed (world (final (handler id) env w)) in
  Reads.response (Reads.answer Reads.get_api_admin_stats renv after)
  = Some
      (Reads.mkResponse 200
         (Reads.StatsBody (Z.of_nat (List.length (users before)))
            (Z.of_nat (List.length (schemes before)))
            (count is_pending (applications before)
             - count
                 (fun a =>
                    is_pending a && key_eq (JStr id) (Application.id a))
                 (applications before)))).
Proof.
  intros Hh Hf Hr before after.
  rewrite stats_response by apply Hr.
  destruct (status_update handler st id env w Hh Hf) as [_ [_ Hc]].
  unfold after. rewrite Hc. unfold stats_of. cbn.
  rewrite count_with_status; [reflexivity|].
  destruct Hh as [[_ ->]|[_ ->]]; discriminate.
Qed.

End Stats.

Lemma register_then_stats_witness :
  let h := final (Server.post_api_register Example.newcomer) Example.calm
             Example.portal in
  (forall R q, Reads.fails Desk.calm R q = false) /\
  Reads.response
    (Reads.answer Reads.get_api_admin_stats Desk.calm (committed (world h)))
  = Some (Reads.mkResponse 200 (Reads.StatsBody 3 3 2)).
Proof.
  cbv zeta. split; [intros R q; reflexivity|].
  apply (register_then_stats Example.newcomer Example.calm Example.portal
           Desk.calm (fun R q => eq_refl)).
  exists 3. reflexivity.
Defined.

Lemma status_update_then_stats_witness :
  fails Example.calm (PoolQuery (UpdateStatus Approved "3")) = false /\
  Reads.response
    (Reads.answer Reads.get_api_admin_stats Desk.calm
       (committed
          (world
             (final (Server.post_api_admin_application_approve "3")
                Example.calm Example.portal))))
  = Some (Reads.mkResponse 200 (Reads.StatsBody 2 3 1)).
Proof.
  split; [reflexivity|].
  exact (status_update_then_stats Server.post_api_admin_application_approve
           Approved "3" Example.calm Example.portal Desk.calm
           (or_introl (conj eq_refl eq_refl)) eq_refl (fun R q => eq_refl)).
Defined.

(* ================================================================== *)
(** * What the writing routes leave alone *)
(* ================================================================== *)

Section Writes.
Context `{Platform}.

(** X13: a registration whose body lacks the name, the address or the
    password is turned away before the store is asked.  For a body the
    parsers read, with the three fields as texts or absent: the answer is
    400 with the missing-fields message exactly when one of the three is
    absent or empty, and then no operation was performed, the world is
    untouched and nothing was logged. *)
Theorem register_validation_before_store (b : RegisterBody.t) (env : Env)
  (w : World) :
  let h := final (Server.post_api_register b) env w in
  (incomplete b = true <-> response h = Some registration_refused) /\
  (incomplete b = true -> trace h = [] /\ world h = w /\ console h = []).
Proof.
  intros h. remember h as h0 eqn:E. unfold h in E. clear h.
  unfold incomplete, truthy_str, registration_refused.
  destruct b as [[name|] [email|] [password|] age gender];
    cbn [RegisterBody.name RegisterBody.email RegisterBody.password];
    rewrite ?andb_false_r, <- ?negb_orb; cbn [negb andb];
    paths E; subst; cbn;
      (split; [split|]); intros; try reflexivity; try discriminate;
      try (repeat split; reflexivity).
Qed.

(** X14: a registration stores one user row or nothing.  When the answer is
    the success body, the returned id is the next user id and the tables
    differ from those before by exactly one user row at the end: that id,
    the name and address given, the hash the password library made of the
    password, the validated age, the gender or [NULL], and the role [user].
    Otherwise the tables and the counters are those from before.  The
    handler leases no connection either way. *)
Theorem register_all_or_nothing (b : RegisterBody.t) (env : Env) (w : World) :
  let h := final (Server.post_api_register b) env w in
  let before := committed w in
  let after := committed (world h) in
  (forall userId, response h = Some (mkResponse 200 (RegisterOk userId)) ->
     exists name email password,
       RegisterBody.name b = Some name /\
       RegisterBody.email b = Some email /\
       RegisterBody.password b = Some password /\
       userId = next_user_id (sequences w) /\
       after =
         mkTables
           (users before
            ++ [User.mk userId name email (bcrypt_hash env password)
                  (Server.validatedAge (RegisterBody.age b))
                  (or_null (RegisterBody.gender b)) "user"])
           (schemes before) (applications before) (documents before))
  /\ ((forall userId,
         response h <> Some (mkResponse 200 (RegisterOk userId))) ->
      after = before /\ sequences (world h) = sequences w)
  /\ leased (world h) = leased w.
Proof.
  intros h before after. unfold before, after. clear before after.
  remember h as h0 eqn:E. unfold h in E. clear h.
  destruct w as [[us ss aps ds] seqs n].
  destruct b as [[name|] [email|] [password|] age gender];
    paths E; subst; cbn;
      (split; [|split]); intros; try reflexivity; try discriminate;
      try (split; reflexivity).
  - match goal with A : Some _ = Some _ |- _ => injection A as <- end.
    exists name, email, password. repeat split.
  - exfalso. match goal with A : forall _, _ <> _ |- _ => eapply A end.
    reflexivity.
Qed.

(** X15: the apply handler sends an answer of its own on every path but
    one.  It sends none if and only if a rollback was attempted and failed,
    which is also exactly when its exception leaves the handler for the
    framework to deal with; in that case the committed tables are those
    from before.  An answer the handler sends comes with a normal return and
    is the success body, the missing-reference error or the server
    error. *)
Theorem apply_answers_unless_rollback_fails (req : ApplyRequest.t) (env : Env)
  (w : World) :
  let r := fst (run (Server.post_api_apply req) env w) in
  let h := snd (run (Server.post_api_apply req) env w) in
  (response h = None <-> In (Rollback, false) (trace h)) /\
  (response h = None <-> r = Throw (OperationError Rollback)) /\
  (response h = None -> committed (world h) = committed w) /\
  (forall x, response h = Some x ->
     r = Return tt /\
     ((exists appId, x = mkResponse 200 (ApplyOk appId)) \/
      x = missing_reference \/ x = server_error)).
Proof.
  intros r h. remember (run _ _ _) as p eqn:E in r, h.
  destruct w as [[us ss aps ds] seqs n].
  destruct req as [data files].
  paths E; subst r h p; cbn;
    (split; [split|split; [split|split]]); intros; try reflexivity;
    try discriminate;
    in_cases; try discriminate;
    try match goal with A : Some _ = Some _ |- _ => injection A as <- end;
    try (split; [reflexivity|]);
    try (left; eexists; reflexivity);
    try (right; left; reflexivity);
    try (right; right; reflexivity);
    try (left; reflexivity);
    auto 10.
Qed.

End Writes.

Section StatusFrame.
Context `{Platform}.

Lemma with_status_unchanging (st : Status) (id : string)
  (apps : list Application.t) :
  map unchanging (with_status st id apps) = map unchanging apps.
Proof.
  unfold with_status. rewrite map_map. apply map_ext.
  intros a. destruct (key_eq (JStr id) (Application.id a)); reflexivity.
Qed.

Lemma with_status_twice (st st' : Status) (id : string)
  (apps : list Application.t) :
  with_status st' id (with_status st id apps) = with_status st' id apps.
Proof.
  unfold with_status. rewrite map_map. apply map_ext.
  intros a. destruct (key_eq (JStr id) (Application.id a)) eqn:K.
  - cbn. rewrite K. reflexivity.
  - rewrite K. reflexivity.
Qed.

Lemma status_route (r : request) (st : Status) (id : string) (env : Env)
  (w : World) :
  r = PostApprove id /\ st = Approved \/ r = PostReject id /\ st = Rejected ->
  let h := final (Server.route r) env w in
  (fails env (PoolQuery (UpdateStatus st id)) = false ->
   response h = Some acknowledged /\
   world h =
     mkWorld
       (mkTables (users (committed w)) (schemes (committed w))
          (with_status st id (applications (committed w)))
          (documents (committed w)))
       (sequences w) (leased w)) /\
  (fails env (PoolQuery (UpdateStatus st id)) = true ->
   response h = Some server_error /\ world h = w).
Proof.
  intros Hr h. remember h as h0 eqn:E. unfold h in E. clear h.
  destruct w as [[us ss aps ds] seqs n].
  destruct Hr as [[-> ->]|[-> ->]]; paths E; subst; cbn;
    (split; intros F; [|try discriminate F]); try discriminate F;
    split; reflexivity.
Qed.

(** X16: approve and reject change nothing but the status of the
    applications with the given id.  Whatever the store does with the
    statement, the users, the schemes and the documents are as before, the
    applications keep their order and every column other than the status,
    an application that is new to the table is one with the given id in the
    decided status, and every application with another id is still there
    unchanged. *)
Theorem status_update_frame (r : request) (st : Status) (id : string)
  (env : Env) (w : World) :
  r = PostApprove id /\ st = Approved \/ r = PostReject id /\ st = Rejected ->
  let before := committed w in
  let after := committed (world (final (Server.route r) env w)) in
  users after = users before /\
  schemes after = schemes before /\
  documents after = documents before /\
  map unchanging (applications after) = map unchanging (applications before) /\
  (forall a, In a (applications after) ->
     In a (applications before) \/
     Application.status a = st /\
     key_eq (JStr id) (Application.id a) = true) /\
  (forall a, In a (applications before) ->
     key_eq (JStr id) (Application.id a) = false ->
     In a (applications after)).
Proof.
  intros Hr before after.
  destruct (status_route r st id env w Hr) as [Hok Hko].
  unfold after, before. clear after before.
  destruct (fails env (PoolQuery (UpdateStatus st id))).
  - destruct (Hko eq_refl) as [_ ->]. repeat split; auto.
  - destruct (Hok eq_refl) as [_ ->]. cbn.
    repeat split; try reflexivity.
    + apply with_status_unchanging.
    + intros a Ha. unfold with_status in Ha. apply in_map_iff in Ha.
      destruct Ha as [a0 [<- Hin]].
      destruct (key_eq (JStr id) (Application.id a0)) eqn:K.
      * right. split; [reflexivity|exact K].
      * left. exact Hin.
    + intros a Ha K. unfold with_status. apply in_map_iff.
      exists a. rewrite K. split; [reflexivity|exact Ha].
Qed.

(** X17: of two decisions on the same id the later one stands.  An approve
    or reject followed by another one that the store carries out leaves the
    world as the second one alone would, whatever the first one did, and
    every application with the id then has the status of the second. *)
Theorem status_update_last_wins (r r' : request) (st st' : Status)
  (id : string) (env env' : Env) (w : World) :
  r = PostApprove id /\ st = Approved \/ r = PostReject id /\ st = Rejected ->
  r' = PostApprove id /\ st' = Approved \/
  r' = PostReject id /\ st' = Rejected ->
  fails env' (PoolQuery (UpdateStatus st' id)) = false ->
  serve [(env, r); (env', r')] w = serve [(env', r')] w /\
  forall a, In a (applications (committed (serve [(env, r); (env', r')] w))) ->
    key_eq (JStr id) (Application.id a) = true -> Application.status a = st'.
Proof.
  intros Hr Hr' Hf'. cbn [serve].
  destruct (status_route r' st' id env' w Hr') as [Hok' _].
  destruct (Hok' Hf') as [_ E2]. rewrite E2.
  destruct (status_route r st id env w Hr) as [Hok Hko].
  assert (E1 : world (final (Server.route r) env w) = w \/
               world (final (Server.route r) env w)
               = mkWorld
                   (mkTables (users (committed w)) (schemes (committed w))
                      (with_status st id (applications (committed w)))
                      (documents (committed w)))
                   (sequences w) (leased w)).
  { destruct (fails env (PoolQuery (UpdateStatus st id)));
      [left; apply Hko|right; apply Hok]; reflexivity. }
  assert (E3 : world (final (Server.route r') env'
                        (world (final (Server.route r) env w)))
               = mkWorld
                   (mkTables (users (committed w)) (schemes (committed w))
                      (with_status st' id (applications (committed w)))
                      (documents (committed w)))
                   (sequences w) (leased w)).
  { destruct (status_route r' st' id env'
                (world (final (Server.route r) env w)) Hr') as [Hok2 _].
    destruct (Hok2 Hf') as [_ ->].
    destruct E1 as [->| ->]; [reflexivity|].
    cbn [committed users schemes applications documents sequences leased].
    rewrite with_status_twice. reflexivity. }
  rewrite E3. split; [reflexivity|]. cbn.
  intros a Ha K. unfold with_status in Ha. apply in_map_iff in Ha.
  destruct Ha as [a0 [<- Hin]].
  destruct (key_eq (JStr id) (Application.id a0)) eqn:K0.
  - reflexivity.
  - rewrite K0 in K. discriminate K.
Qed.

End StatusFrame.

Lemma status_update_frame_witness :
  let after :=
    committed (world (final (Server.route (PostReject "1")) Example.calm
                        Example.portal)) in
  users after = users Example.tables /\
  schemes after = schemes Example.tables /\
  documents after = documents Example.tables /\
  map unchanging (applications after)
  = map unchanging (applications Example.tables).
Proof.
  cbv zeta.
  destruct (status_update_frame (PostReject "1") Rejected "1" Example.calm
              Example.portal (or_intror (conj eq_refl eq_refl)))
    as (U & S & D & A & _).
  repeat split; assumption.
Defined.

Lemma status_update_last_wins_witness :
  fails Example.calm (PoolQuery (UpdateStatus Rejected "1")) = false /\
  serve [(Example.calm, PostApprove "1"); (Example.calm, PostReject "1")]
    Example.portal
  = serve [(Example.calm, PostReject "1")] Example.portal.
Proof.
  split; [reflexivity|].
  apply (status_update_last_wins (PostApprove "1") (PostReject "1") Approved
           Rejected "1" Example.calm Example.calm Example.portal
           (or_introl (conj eq_refl eq_refl))
           (or_intror (conj eq_refl eq_refl)) eq_refl).
Defined.

(* ================================================================== *)
(** * The scheme listing, with and without bound values *)
(* ================================================================== *)

Section Listing.
Context `{Platform}.

Lemma deadline_le_total (a b : Scheme.t) :
  deadline_le a b = false -> deadline_le b a = true.
Proof.
  unfold deadline_le.
  destruct (Scheme.application_deadline a), (Scheme.application_deadline b);
    try reflexivity; try discriminate. lia.
Qed.

Lemma deadline_le_trans (a b c : Scheme.t) :
  deadline_le a b = true -> deadline_le b c = true -> deadline_le a c = true.
Proof.
  unfold deadline_le.
  destruct (Scheme.application_deadline a), (Scheme.application_deadline b),
    (Scheme.application_deadline c); try reflexivity; try discriminate. lia.
Qed.

Lemma deadline_le_order (a b : Scheme.t) :
  deadline_le a b = true -> deadline_order a b.
Proof.
  unfold deadline_le, deadline_order.
  destruct (Scheme.application_deadline a), (Scheme.application_deadline b);
    try discriminate; auto. lia.
Qed.

Lemma listed (p : Scheme.t -> bool) (l : list Scheme.t) :
  Permutation (order_by deadline_le (filter p l)) (filter p l) /\
  (forall s, In s (order_by deadline_le (filter p l)) <->
             In s l /\ p s = true) /\
  StronglySorted deadline_order (order_by deadline_le (filter p l)).
Proof.
  assert (P : Permutation (order_by deadline_le (filter p l)) (filter p l))
    by apply order_by_perm.
  split; [exact P|]. split.
  - intros s. rewrite <- filter_In. split.
    + apply Permutation_in. exact P.
    + apply Permutation_in. apply Permutation_sym. exact P.
  - apply sorted_weaken with (R := fun a b => deadline_le a b = true).
    + exact deadline_le_order.
    + apply order_by_sorted.
      * exact deadline_le_total.
      * exact deadline_le_trans.
Qed.

(** X18: the scheme listing of [server.js] answers only requests that bind
    no value.  When the store is up, a request with a text, a year, a type
    or a category is answered with the server error and leaves the world
    untouched.  Any other request is answered with the schemes that pass
    the [international=1] test when it is asked for, all of them otherwise:
    each such scheme once, in ascending order of deadline with the schemes
    without a deadline last. *)
Theorem schemes_answers_without_bound_values (query : SchemesQuery.t)
  (env : Env) (w : World) :
  fails env (PoolQuery (SelectSchemes (Server.clauses query) [])) = false ->
  let h := final (Server.get_api_schemes query) env w in
  (binds_a_value query = true ->
   response h = Some server_error /\ world h = w) /\
  (binds_a_value query = false ->
   exists rows,
     response h = Some (mkResponse 200 (SchemesBody (map SchemeRow rows))) /\
     Permutation rows
       (filter (matches_international query) (schemes (committed w))) /\
     (forall s, In s rows <->
                In s (schemes (committed w)) /\
                matches_international query s = true) /\
     StronglySorted deadline_order rows).
Proof.
  intros Hf h. split; intros Hb.
  - destruct (schemes_unbound query env w Hb) as [R [_ W]]. split; assumption.
  - exists (order_by deadline_le
              (filter (matches_international query) (schemes (committed w)))).
    split; [apply schemes_without_values; assumption|]. apply listed.
Qed.

Lemma not_empty (s : string) : string_is_empty s = false <-> s <> EmptyString.
Proof.
  destruct s; cbn; split; intros E.
  - discriminate E.
  - exfalso. apply E. reflexivity.
  - discriminate.
  - reflexivity.
Qed.

(** The listing test of the corrected server, filter by filter. *)
Lemma matches_spelled (query : SchemesQuery.t) (s : Scheme.t) :
  matches query s = true <->
  (forall q, SchemesQuery.q query = Some q -> q <> EmptyString ->
     text_like (Scheme.scheme_name s) ("%" ++ q ++ "%") = true \/
     text_like (Scheme.scholarship_name s) ("%" ++ q ++ "%") = true) /\
  (forall y, SchemesQuery.academic_year query = Some y -> y <> EmptyString ->
     text_eq (Scheme.academic_year s) (trim y) = true) /\
  (forall t, SchemesQuery.type query = Some t -> t <> EmptyString ->
     text_eq (Scheme.type s) (trim t) = true) /\
  (forall c, SchemesQuery.category query = Some c -> c <> EmptyString ->
     exists piece,
       In piece (split_comma c) /\
       text_eq (Scheme.category s) (trim piece) = true) /\
  (SchemesQuery.international query = Some "1" ->
   Scheme.is_international_eligible s = Some true).
Proof.
  unfold matches, matches_q, matches_year, matches_type, matches_category,
    matches_international, Server.international_is_1, Server.wildcard.
  destruct query as [q y t c i]; cbn [SchemesQuery.q SchemesQuery.academic_year
    SchemesQuery.type SchemesQuery.category SchemesQuery.international].
  rewrite !andb_true_iff.
  assert (Q : (match q with
               | Some text =>
                   string_is_empty text
                   || text_like (Scheme.scheme_name s) ("%" ++ text ++ "%")
                   || text_like (Scheme.scholarship_name s)
                        ("%" ++ text ++ "%")
               | None => true
               end = true) <->
              (forall q0, q = Some q0 -> q0 <> EmptyString ->
                 text_like (Scheme.scheme_name s) ("%" ++ q0 ++ "%") = true \/
                 text_like (Scheme.scholarship_name s) ("%" ++ q0 ++ "%")
                 = true)).
  { destruct q as [text|]; [|split; [discriminate|reflexivity]].
    rewrite !orb_true_iff. split.
    - intros [[E|L]|L] q0 [= <-] N; auto.
      apply not_empty in N. rewrite N in E. discriminate E.
    - intros A. destruct (string_is_empty text) eqn:E; [auto|].
      destruct (A text eq_refl (proj1 (not_empty text) E)); auto. }
  assert (T : forall (column given : option string),
             (match given with
              | Some v => string_is_empty v || text_eq column (trim v)
              | None => true
              end = true) <->
             (forall v, given = Some v -> v <> EmptyString ->
                text_eq column (trim v) = true)).
  { intros column [v|]; [|split; [discriminate|reflexivity]].
    rewrite orb_true_iff. split.
    - intros [E|L] v0 [= <-] N; auto.
      apply not_empty in N. rewrite N in E. discriminate E.
    - intros A. destruct (string_is_empty v) eqn:E; [auto|].
      right. apply (A v eq_refl). apply not_empty. exact E. }
  assert (C : (match c with
               | Some v =>
                   string_is_empty v
                   || existsb (text_eq (Scheme.category s))
                        (map trim (split_comma v))
               | None => true
               end = true) <->
              (forall v, c = Some v -> v <> EmptyString ->
                 exists piece,
                   In piece (split_comma v) /\
                   text_eq (Scheme.category s) (trim piece) = true)).
  { destruct c as [v|]; [|split; [discriminate|reflexivity]].
    rewrite orb_true_iff, existsb_exists. split.
    - intros [E|[x [Ix Tx]]] v0 [= <-] N.
      + apply not_empty in N. rewrite N in E. discriminate E.
      + apply in_map_iff in Ix. destruct Ix as [piece [<- Ip]].
        exists piece. auto.
    - intros A. destruct (string_is_empty v) eqn:E; [auto|].
      right. destruct (A v eq_refl (proj1 (not_empty v) E)) as [piece [Ip Tp]].
      exists (trim piece). split; [apply in_map; exact Ip|exact Tp]. }
  assert (I : ((if match i with
                   | Some x => String.eqb x "1"
                   | None => false
                   end
                then match Scheme.is_international_eligible s with
                     | Some true => true
                     | _ => false
                     end
                else true) = true) <->
              (i = Some "1" -> Scheme.is_international_eligible s = Some true)).
  { destruct i as [x|]; [|split; [discriminate|reflexivity]].
    destruct (String.eqb x "1") eqn:X.
    - apply String.eqb_eq in X. subst x.
      destruct (Scheme.is_international_eligible s) as [[|]|]; split;
        intros A; try reflexivity; try discriminate;
        try (discriminate (A eq_refl)).
    - split; [|reflexivity]. intros _ [= ->]. cbv in X. discriminate X. }
  rewrite Q, (T (Scheme.academic_year s) y), (T (Scheme.type s) t), C, I.
  tauto.
Qed.

(** X19: the scheme listing of the corrected server applies every filter
    that is supplied.  When the store is up, the answer holds each stored
    scheme that passes the tests once, and no other, in ascending order of
    deadline with the schemes without a deadline last.  The tests: one of
    the two names is [LIKE] the text between two [%] (the text is not
    escaped, so a [%] or [_] in it is a wildcard of its own); the year and
    the type are equal to the trimmed values; the category is equal to one
    of the trimmed pieces of the comma-separated list; and the scheme is
    eligible when [international] is [1].  A filter that is absent or empty
    tests nothing. *)
Theorem corrected_schemes_listing (query : SchemesQuery.t) (env : Env)
  (w : World) :
  fails env
    (PoolQuery
       (SelectSchemes (Server.clauses query) (ServerCorrected.params query)))
  = false ->
  let h := final (ServerCorrected.get_api_schemes query) env w in
  exists rows keep,
    response h = Some (mkResponse 200 (SchemesBody (map SchemeRow rows))) /\
    Permutation rows (filter keep (schemes (committed w))) /\
    (forall s, keep s = true <->
       (forall q, SchemesQuery.q query = Some q -> q <> EmptyString ->
          text_like (Scheme.scheme_name s) ("%" ++ q ++ "%") = true \/
          text_like (Scheme.scholarship_name s) ("%" ++ q ++ "%") = true) /\
       (forall y, SchemesQuery.academic_year query = Some y ->
          y <> EmptyString ->
          text_eq (Scheme.academic_year s) (trim y) = true) /\
       (forall t, SchemesQuery.type query = Some t -> t <> EmptyString ->
          text_eq (Scheme.type s) (trim t) = true) /\
       (forall c, SchemesQuery.category query = Some c -> c <> EmptyString ->
          exists piece,
            In piece (split_comma c) /\
            text_eq (Scheme.category s) (trim piece) = true) /\
       (SchemesQuery.international query = Some "1" ->
        Scheme.is_international_eligible s = Some true)) /\
    StronglySorted deadline_order rows.
Proof.
  intros Hf h.
  exists (order_by deadline_le
            (filter (matches query) (schemes (committed w)))),
         (matches query).
  split; [apply corrected_schemes_conjunctive; assumption|].
  destruct (listed (matches query) (schemes (committed w))) as [P [_ S]].
  split; [exact P|]. split; [|exact S].
  intros s. apply matches_spelled.
Qed.

End Listing.

Lemma schemes_answers_without_bound_values_witness :
  let query := SchemesQuery.mk None None None None (Some "1") in
  fails Example.calm (PoolQuery (SelectSchemes (Server.clauses query) []))
  = false /\
  binds_a_value query = false /\
  exists rows,
    response (final (Server.get_api_schemes query) Example.calm Example.portal)
    = Some (mkResponse 200 (SchemesBody (map SchemeRow rows))) /\
    Permutation rows [Example.merit].
Proof.
  cbv zeta. split; [reflexivity|]. split; [reflexivity|].
  destruct (proj2 (schemes_answers_without_bound_values
                     (SchemesQuery.mk None None None None (Some "1"))
                     Example.calm Example.portal eq_refl) eq_refl)
    as (rows & R & P & _).
  exists rows. split; [exact R|exact P].
Defined.

Lemma corrected_schemes_listing_witness :
  let query := SchemesQuery.mk (Some "_") None None None None in
  fails Example.calm
    (PoolQuery
       (SelectSchemes (Server.clauses query) (ServerCorrected.params query)))
  = false /\
  exists rows,
    response
      (final (ServerCorrected.get_api_schemes query) Example.calm
         Example.portal)
    = Some (mkResponse 200 (SchemesBody (map SchemeRow rows))) /\
    Permutation rows [Example.merit; Example.means; Example.sports] /\
    StronglySorted deadline_order rows.
Proof.
  cbv zeta. split; [reflexivity|].
  destruct (corrected_schemes_listing
              (SchemesQuery.mk (Some "_") None None None None) Example.calm
              Example.portal eq_refl) as (rows & keep & R & P & K & S).
  exists rows. split; [exact R|]. split; [|exact S].
  assert (A : forall s, In s (schemes Example.tables) -> keep s = true).
  { intros s I. apply K. repeat split; try discriminate.
    intros q [= <-] _. left.
    cbn in I. destruct I as [<-|[<-|[<-|[]]]]; reflexivity. }
  change (schemes (committed Example.portal))
    with [Example.merit; Example.means; Example.sports] in P.
  cbn [filter] in P.
  rewrite !A in P by (cbn; tauto). exact P.
Defined.

(* ================================================================== *)
(** * The corrected admin listing after a decision *)
(* ================================================================== *)

Section Decided.
Context `{Platform}.

(** X20: the admin listing of the corrected server holds the pending
    applications, oldest first.  When the query goes through, the rows are a
    rearrangement of the join of the pending applications with their users
    and schemes: every pending application is listed, every row is pending
    and comes from an application paired with a user and a scheme it refers
    to (or with none), and the submission dates never decrease along the
    list. *)
Theorem corrected_pending_oldest_first (env : Env) (w : World) :
  fails env (PoolQuery SelectPendingJoin) = false ->
  let h := final ServerCorrected.get_api_admin_pending_applications env w in
  let ts := committed w in
  exists rows,
    response h = Some (mkResponse 200 (ApplicationsBody (map AdminRow rows))) /\
    Permutation rows (admin_join ts (filter is_pending (applications ts))) /\
    (forall a, In a (applications ts) -> Application.status a = Pending ->
       exists u s, In (admin_row a u s) rows) /\
    (forall x, In x rows ->
       AdminApplication.status x = Pending /\
       exists a u s,
         In a (applications ts) /\ x = admin_row a u s /\
         joined (owner_of a) (users ts) u /\
         joined (scheme_of a) (schemes ts) s) /\
    StronglySorted
      (fun x x' =>
         AdminApplication.application_date x
         <= AdminApplication.application_date x')
      rows.
Proof.
  intros Hf h ts.
  destruct (corrected_pending_list env w Hf) as [rows [R [P S]]].
  fold h in R. fold ts in P. exists rows.
  split; [exact R|]. split; [exact P|]. split; [|split; [|exact S]].
  - intros a Ha Hp.
    destruct (admin_rows_inhabited ts a) as [u [s Hus]].
    exists u, s. apply (Permutation_in _ (Permutation_sym P)).
    unfold admin_join. apply in_flat_map. exists a. split; [|exact Hus].
    apply filter_In. split; [exact Ha|].
    unfold is_pending. rewrite Hp. reflexivity.
  - intros x Hx. apply (Permutation_in _ P) in Hx.
    unfold admin_join in Hx. apply in_flat_map in Hx.
    destruct Hx as [a [Ha Hx]]. apply filter_In in Ha.
    destruct Ha as [Ha Hp]. apply admin_rows_in in Hx.
    destruct Hx as [u [s [-> [Ju Js]]]]. split.
    + cbn. apply status_eqb_eq. exact Hp.
    + exists a, u, s. repeat split; assumption.
Qed.

Lemma pending_after (st : Status) (id : string) (apps : list Application.t) :
  st <> Pending ->
  filter is_pending (with_status st id apps) = filter (undecided id) apps.
Proof.
  intros Hst. unfold with_status, undecided.
  induction apps as [|a apps IH]; [reflexivity|].
  cbn [map filter]. rewrite IH.
  destruct (key_eq (JStr id) (Application.id a)) eqn:K.
  - replace (is_pending (Application.set_status st a)) with false
      by (destruct st; [contradiction| |]; reflexivity).
    rewrite andb_false_r. reflexivity.
  - rewrite andb_true_r. reflexivity.
Qed.

(** X21: a decided application leaves the admin listing.  After an approve
    or a reject that the store carried out, the listing of the corrected
    server holds the join of the applications that were pending and have
    another id: no row has the decided id, every row is pending, and every
    application that was pending under another id is still listed. *)
Theorem decided_leaves_pending_list (r : request) (st : Status) (id : string)
  (env env' : Env) (w : World) :
  r = PostApprove id /\ st = Approved \/ r = PostReject id /\ st = Rejected ->
  fails env (PoolQuery (UpdateStatus st id)) = false ->
  fails env' (PoolQuery SelectPendingJoin) = false ->
  let ts := committed w in
  let w' := world (final (Server.route r) env w) in
  let h := final ServerCorrected.get_api_admin_pending_applications env' w' in
  exists rows,
    response h = Some (mkResponse 200 (ApplicationsBody (map AdminRow rows))) /\
    Permutation rows
      (admin_join ts (filter (undecided id) (applications ts))) /\
    (forall x, In x rows ->
       key_eq (JStr id) (AdminApplication.id x) = false /\
       AdminApplication.status x = Pending) /\
    (forall a, In a (applications ts) -> Application.status a = Pending ->
       key_eq (JStr id) (Application.id a) = false ->
       exists u s, In (admin_row a u s) rows).
Proof.
  intros Hr Hf Hf' ts w' h.
  destruct (corrected_pending_list env' w' Hf') as [rows [R [P _]]].
  fold h in R. exists rows. split; [exact R|].
  destruct (status_route r st id env w Hr) as [Hok _].
  destruct (Hok Hf) as [_ W].
  assert (Hst : st <> Pending)
    by (destruct Hr as [[_ ->]|[_ ->]]; discriminate).
  assert (P' : Permutation rows
                 (admin_join ts (filter (undecided id) (applications ts)))).
  { unfold w' in P. rewrite W in P. cbn in P.
    rewrite (pending_after st id _ Hst) in P. exact P. }
  split; [exact P'|]. split.
  - intros x Hx. apply (Permutation_in _ P') in Hx.
    unfold admin_join in Hx. apply in_flat_map in Hx.
    destruct Hx as [a [Ha Hx]]. apply filter_In in Ha.
    destruct Ha as [_ Hu]. apply admin_rows_in in Hx.
    destruct Hx as [u [s [-> _]]]. cbn.
    unfold undecided in Hu. apply andb_true_iff in Hu. destruct Hu as [Hp Hk].
    split.
    + destruct (key_eq (JStr id) (Application.id a)); [discriminate|reflexivity].
    + apply status_eqb_eq. exact Hp.
  - intros a Ha Hp Hk.
    destruct (admin_rows_inhabited ts a) as [u [s Hus]].
    exists u, s. apply (Permutation_in _ (Permutation_sym P')).
    unfold admin_join. apply in_flat_map. exists a. split; [|exact Hus].
    apply filter_In. split; [exact Ha|].
    unfold undecided, is_pending. rewrite Hp, Hk. reflexivity.
Qed.

End Decided.

Lemma corrected_pending_oldest_first_witness :
  let h :=
    final ServerCorrected.get_api_admin_pending_applications Example.calm
      Example.portal in
  fails Example.calm (PoolQuery SelectPendingJoin) = false /\
  exists rows,
    response h = Some (mkResponse 200 (ApplicationsBody (map AdminRow rows))) /\
    StronglySorted
      (fun r r' =>
         AdminApplication.application_date r
         <= AdminApplication.application_date r')
      rows.
Proof.
  cbv zeta. split; [reflexivity|].
  destruct (corrected_pending_oldest_first Example.calm Example.portal eq_refl)
    as (rows & R & _ & _ & _ & S).
  exists rows. split; [exact R|exact S].
Defined.

Lemma decided_leaves_pending_list_witness :
  let w' :=
    world (final (Server.route (PostApprove "3")) Example.calm
             Example.portal) in
  fails Example.calm (PoolQuery (UpdateStatus Approved "3")) = false /\
  fails Example.calm (PoolQuery SelectPendingJoin) = false /\
  exists rows,
    response
      (final ServerCorrected.get_api_admin_pending_applications Example.calm
         w')
    = Some (mkResponse 200 (ApplicationsBody (map AdminRow rows))) /\
    forall x, In x rows -> key_eq (JStr "3") (AdminApplication.id x) = false.
Proof.
  cbv zeta. split; [reflexivity|]. split; [reflexivity|].
  destruct (decided_leaves_pending_list (PostApprove "3") Approved "3"
              Example.calm Example.calm Example.portal
              (or_introl (conj eq_refl eq_refl)) eq_refl eq_refl)
    as (rows & R & _ & N & _).
  exists rows. split; [exact R|].
  intros x X. apply N. exact X.
Defined.

(* ================================================================== *)
(** * Failures on the reading routes *)
(* ================================================================== *)

Section ReadFailures.
Context `{Platform} `{References}.

(** X22: the routes that only read always answer, and answer a failure with
    the server error.  For the login, the single scheme, the applicant's
    list, the application detail and the dashboard: a response is sent on
    every request; it is the server error exactly when something was
    logged; and a query that failed is the last one sent and the one
    logged, and the answer is then the server error. *)
Theorem reading_routes_fail_closed (r : Reads.request) (env : Reads.Env)
  (ts : Tables) :
  let st := Reads.answer (Reads.route r) env ts in
  Reads.response st <> None /\
  (Reads.console st <> [] <-> Reads.response st = Some read_error) /\
  (forall R (q : Reads.query R), In (Reads.Asked q false) (Reads.queries st) ->
     Reads.response st = Some read_error /\
     Reads.console st = [Reads.QueryError q] /\
     exists asked, Reads.queries st = (asked ++ [Reads.Asked q false])%list /\
                   forall R' (q' : Reads.query R'),
                     ~ In (Reads.Asked q' false) asked).
Proof.
  intros st. remember st as s0 eqn:E. unfold st in E. clear st.
  destruct r as [[[email|] [password|]]|id|userId|id|];
    unfold_reads E; unfold Reads.select in E;
    repeat path_step E; subst; cbn;
    (split; [discriminate|]);
    (split;
     [split; intros C;
      [first [reflexivity | exfalso; apply C; reflexivity]
      |first [discriminate C | discriminate]]|]);
    intros R q I;
    repeat match goal with
           | A : _ \/ _ |- _ => destruct A
           | A : False |- _ => destruct A
           end;
    try discriminate; blamed.
Qed.

End ReadFailures.

(* ================================================================== *)
(** * What no request takes away *)
(* ================================================================== *)

Section Growth.
Context `{Platform}.

Lemma grew_refl (ts : Tables) : grew ts ts.
Proof.
  unfold grew. split; [reflexivity|].
  repeat split; exists []; rewrite app_nil_r; reflexivity.
Qed.

Lemma grew_trans (a b c : Tables) : grew a b -> grew b c -> grew a c.
Proof.
  intros [S1 [[us1 U1] [[aps1 A1] [ds1 D1]]]]
         [S2 [[us2 U2] [[aps2 A2] [ds2 D2]]]].
  unfold grew. split; [congruence|]. split; [|split].
  - exists (us1 ++ us2)%list. rewrite U2, U1, app_assoc. reflexivity.
  - exists (aps1 ++ aps2)%list. rewrite A2, A1, app_assoc. reflexivity.
  - exists (ds1 ++ ds2)%list. rewrite D2, D1, app_assoc. reflexivity.
Qed.

Lemma route_grew (r : request) (env : Env) (w : World) :
  grew (committed w) (committed (world (final (Server.route r) env w))).
Proof.
  destruct w as [[us ss aps ds] seqs n].
  destruct r as [b|query|[data files]| |id|id];
    remember (final _ _ _) as h eqn:E; paths E; subst h; tidy_files; cbn;
    unfold grew; cbn; (split; [reflexivity|]);
    (split; [appended|split; appended]).
Qed.

(** X23: no sequence of requests takes anything away.  After any requests
    to the routes that write and to the two listings, under any failures,
    the schemes are those from before, the users and the documents are
    those from before with rows appended, and the applications are those
    from before, in their order and with every column but the status
    unchanged, with rows appended. *)
Theorem nothing_is_taken_away (rs : list (Env * request)) (w : World) :
  let before := committed w in
  let after := committed (serve rs w) in
  schemes after = schemes before /\
  (exists us, users after = (users before ++ us)%list) /\
  (exists aps,
     map unchanging (applications after)
     = (map unchanging (applications before) ++ aps)%list) /\
  (exists ds, documents after = (documents before ++ ds)%list).
Proof.
  cbv zeta. change (grew (committed w) (committed (serve rs w))).
  revert w. induction rs as [|[env r] rs IH]; intros w.
  - apply grew_refl.
  - cbn [serve]. eapply grew_trans; [apply route_grew|apply IH].
Qed.

End Growth.
